(** * Vision interpretation and rule derivation: a shallow embedding

    The development embeds the decision logic of the agent-orchestration
    tools (master-agent.py, pr-constitution-generator.py,
    vision-task-extractor.py, agent-creator.py, bootstrap.py) and states
    the properties of the specification over that embedding.

    Text is a list of Unicode code points, as a Python [str] is.  The tables
    of the Unicode database are embedded as follows: white space is the
    complete set of [str.isspace]; case mapping and printability are exact
    for U+0000..U+00FF and code points above are taken as caseless and
    printable; decimal digits are the complete set of [str.isdecimal]. *)

From Stdlib Require Import String Ascii List NArith ZArith Bool Arith Lia Sorted Permutation.
Import ListNotations.

Set Implicit Arguments.

(** ** Python strings *)

Module PyStr.

Definition char := N.
Definition str := list char.

(** An ASCII literal as a [str]. *)
Definition u (s : string) : str := map N_of_ascii (list_ascii_of_string s).
Arguments u s%_string.

Definition nl : str := [10%N].

Definition char_eqb (a b : char) : bool := N.eqb a b.

Fixpoint str_eqb (a b : str) : bool :=
  match a, b with
  | [], [] => true
  | x :: a', y :: b' => char_eqb x y && str_eqb a' b'
  | _, _ => false
  end.

Definition in_range (lo hi c : N) : bool := (N.leb lo c && N.leb c hi)%bool.

(** [str.isspace], which is also the class [\s] of a [str] pattern. *)
Definition isspace (c : char) : bool :=
  (in_range 9 13 c || in_range 28 32 c || N.eqb c 133 || N.eqb c 160
   || N.eqb c 5760 || in_range 8192 8202 c || N.eqb c 8232 || N.eqb c 8233
   || N.eqb c 8239 || N.eqb c 8287 || N.eqb c 12288)%bool.

(** The decimal digits of the Unicode database (version 14.0, that of
    Python 3.11) come in runs of ten: [digit_zeros] lists the zero of each
    run. *)
Definition digit_zeros : list N :=
  [48; 1632; 1776; 1984; 2406; 2534; 2662; 2790; 2918; 3046; 3174; 3302; 3430; 3558;
   3664; 3792; 3872; 4160; 4240; 6112; 6160; 6470; 6608; 6784; 6800; 6992; 7088; 7232;
   7248; 42528; 43216; 43264; 43472; 43504; 43600; 44016; 65296; 66720; 68912; 69734;
   69872; 69942; 70096; 70384; 70736; 70864; 71248; 71360; 71472; 71904; 72016; 72784;
   73040; 73120; 92768; 92864; 93008; 120782; 120792; 120802; 120812; 120822; 123200;
   123632; 125264; 130032]%N.

(** The class [\d] of a [str] pattern, which is [str.isdecimal]. *)
Definition isdigit (c : char) : bool :=
  existsb (fun zero => in_range zero (zero + 9) c) digit_zeros.

(** [str.lower] on one character. *)
Definition lower_char (c : char) : char :=
  if (in_range 65 90 c || (in_range 192 222 c && negb (N.eqb c 215)))%bool
  then (c + 32)%N else c.

Definition lower (s : str) : str := map lower_char s.

(** [str.isprintable] on one character. *)
Definition isprintable (c : char) : bool :=
  negb (N.ltb c 32%N || in_range 127 160 c || N.eqb c 173%N)%bool.

(** [s.startswith(p)]. *)
Fixpoint startswith (s p : str) {struct p} : bool :=
  match p with
  | [] => true
  | x :: p' =>
      match s with
      | [] => false
      | y :: s' => char_eqb x y && startswith s' p'
      end
  end.

(** [sub in s]. *)
Fixpoint contains (s sub : str) : bool :=
  (startswith s sub ||
   match s with
   | [] => false
   | _ :: s' => contains s' sub
   end)%bool.

(** [s.count(sub)]: occurrences counted from the left without overlap.
    [skip] is the number of characters of the last occurrence still to be
    passed over. *)
Fixpoint count_from (skip : nat) (s sub : str) : nat :=
  match s with
  | [] => 0
  | _ :: s' =>
      match skip with
      | S k => count_from k s' sub
      | O =>
          if startswith s sub
          then S (count_from (Nat.pred (length sub)) s' sub)
          else count_from 0 s' sub
      end
  end.

Definition count (s sub : str) : nat :=
  match sub with
  | [] => S (length s)
  | _ => count_from 0 s sub
  end.

Fixpoint lstrip (s : str) : str :=
  match s with
  | c :: s' => if isspace c then lstrip s' else s
  | [] => []
  end.

Definition rstrip (s : str) : str := rev (lstrip (rev s)).

(** [s.strip()]. *)
Definition strip (s : str) : str := rstrip (lstrip s).

(** [s.split(sep)] for a non-empty separator.  [cur] is the piece being
    read, reversed. *)
Fixpoint split_from (sep : str) (skip : nat) (cur : str) (s : str) : list str :=
  match s with
  | [] => [rev cur]
  | c :: s' =>
      match skip with
      | S k => split_from sep k cur s'
      | O =>
          if startswith s sep
          then rev cur :: split_from sep (Nat.pred (length sep)) [] s'
          else split_from sep 0 (c :: cur) s'
      end
  end.

Definition split (s sep : str) : list str := split_from sep 0 [] s.

(** [sep.join(l)]. *)
Fixpoint join (sep : str) (l : list str) : str :=
  match l with
  | [] => []
  | [x] => x
  | x :: l' => x ++ sep ++ join sep l'
  end.

(** Decimal digits of a natural number, most significant first; [fuel]
    bounds the number of digits. *)
Fixpoint digits_fuel (fuel n : nat) (acc : str) : str :=
  match fuel with
  | O => acc
  | S f =>
      let acc' := N.of_nat (48 + n mod 10) :: acc in
      if n / 10 =? 0 then acc' else digits_fuel f (n / 10) acc'
  end.

Definition str_of_nat (n : nat) : str := digits_fuel (S n) n [].

(** The format [{n:0wd}]: decimal, padded with zeros to width [w]. *)
Definition format_0d (w n : nat) : str :=
  let d := str_of_nat n in
  repeat 48%N (w - length d) ++ d.

End PyStr.

(** ** Regular expressions of the [re] module

    A pattern is written as its syntax tree and matched by backtracking in
    the order of [re]: the alternatives of [|] from left to right, a greedy
    quantifier longest first, a lazy one shortest first, a lookahead
    tried once.  The quantifiers of the patterns of these tools all range
    over a single character class. *)

Module Re.
Import PyStr.

Record flags := { ignorecase : bool; dotall : bool }.

Inductive cset :=
| CDot                       (* .   *)
| CSpace                     (* \s  *)
| CDigit                     (* \d  *)
| COneOf (l : list char)     (* [abc], or one literal character *)
| CNoneOf (l : list char).   (* [^abc] *)

Inductive re :=
| Lit (s : str)
| One (cs : cset)
| Rep (cs : cset) (lo : nat) (hi : option nat) (greedy : bool)
| Seq (a b : re)
| Alt (a b : re)
| Group (n : nat) (a : re)
| Ahead (a : re)     (* (?=...) *)
| Bol                (* ^  *)
| EndZ.              (* \Z *)

Definition chr_match (fl : flags) (x y : char) : bool :=
  if ignorecase fl then char_eqb (lower_char x) (lower_char y) else char_eqb x y.

Definition cset_mem (fl : flags) (cs : cset) (c : char) : bool :=
  match cs with
  | CDot => (dotall fl || negb (char_eqb c 10%N))%bool
  | CSpace => isspace c
  | CDigit => isdigit c
  | COneOf l => existsb (chr_match fl c) l
  | CNoneOf l => negb (existsb (chr_match fl c) l)
  end.

(** The literal [p] read at the head of [s]. *)
Fixpoint lit_match (fl : flags) (p s : str) {struct p} : bool :=
  match p with
  | [] => true
  | x :: p' =>
      match s with
      | [] => false
      | y :: s' => chr_match fl x y && lit_match fl p' s'
      end
  end.

(** Captured groups, the latest capture first. *)
Definition caps := list (nat * str).

Fixpoint group (n : nat) (c : caps) : option str :=
  match c with
  | [] => None
  | (i, s) :: c' => if Nat.eqb i n then Some s else group n c'
  end.

Definition orelse (R : Type) (a b : option R) : option R :=
  match a with
  | Some r => Some r
  | None => b
  end.

Definition hi_open (hi : option nat) : bool :=
  match hi with
  | Some O => false
  | _ => true
  end.

Definition hi_pred (hi : option nat) : option nat :=
  match hi with
  | Some n => Some (Nat.pred n)
  | None => None
  end.

Section Matcher.
Variable fl : flags.

(** [cs{lo,hi}] or [cs{lo,hi}?] at position [pos], followed by [k]. *)
Fixpoint rep_match (R : Type) (cs : cset) (greedy : bool) (lo : nat)
    (hi : option nat) (pos : nat) (rest : str)
    (k : nat -> str -> option R) {struct rest} : option R :=
  let more :=
    match rest with
    | c :: rest' =>
        if (hi_open hi && cset_mem fl cs c)%bool
        then rep_match cs greedy (Nat.pred lo) (hi_pred hi) (S pos) rest' k
        else None
    | [] => None
    end in
  match lo with
  | S _ => more
  | O => if greedy then orelse more (k pos rest) else orelse (k pos rest) more
  end.

(** [r] at position [pos] of the subject, of which [rest] is what follows
    [pos]; [k] is the rest of the pattern. *)
Fixpoint bt (R : Type) (r : re) (pos : nat) (rest : str) (c : caps)
    (k : nat -> str -> caps -> option R) {struct r} : option R :=
  match r with
  | Lit s =>
      if lit_match fl s rest
      then k (pos + List.length s) (skipn (List.length s) rest) c
      else None
  | One cs =>
      match rest with
      | x :: rest' => if cset_mem fl cs x then k (S pos) rest' c else None
      | [] => None
      end
  | Rep cs lo hi greedy =>
      rep_match cs greedy lo hi pos rest (fun p r' => k p r' c)
  | Seq a b => bt a pos rest c (fun p r' c' => bt b p r' c' k)
  | Alt a b => orelse (bt a pos rest c k) (bt b pos rest c k)
  | Group n a =>
      bt a pos rest c (fun p r' c' => k p r' ((n, firstn (p - pos) rest) :: c'))
  | Ahead a =>
      match bt a pos rest c (fun _ _ c' => Some c') with
      | Some c' => k pos rest c'
      | None => None
      end
  | Bol => if Nat.eqb pos 0 then k pos rest c else None
  | EndZ =>
      match rest with
      | [] => k pos rest c
      | _ :: _ => None
      end
  end.

(** A match of [r] that starts at [pos]: its end and its groups. *)
Definition match_at (r : re) (pos : nat) (rest : str) : option (nat * caps) :=
  bt r pos rest [] (fun p _ c => Some (p, c)).

(** [re.search]: the first position, from the left, with a match. *)
Fixpoint search_from (r : re) (pos : nat) (rest : str) : option (nat * caps) :=
  orelse (match_at r pos rest)
    match rest with
    | [] => None
    | _ :: rest' => search_from r (S pos) rest'
    end.

Definition search (r : re) (s : str) : option (nat * caps) := search_from r 0 s.

(** [re.match]: a match at the start of the subject. *)
Definition rmatch (r : re) (s : str) : option (nat * caps) := match_at r 0 s.

(** [re.sub(r, '', s)]: every match, found from the left without overlap,
    is removed.  [skip] counts the characters of the last match still to be
    dropped. *)
Fixpoint sub_from (r : re) (skip : nat) (pos : nat) (rest : str) : str :=
  match rest with
  | [] => []
  | x :: rest' =>
      match skip with
      | S n => sub_from r n (S pos) rest'
      | O =>
          match match_at r pos rest with
          | Some (e, _) =>
              if e <=? pos then x :: sub_from r 0 (S pos) rest'
              else sub_from r (e - pos - 1) (S pos) rest'
          | None => x :: sub_from r 0 (S pos) rest'
          end
      end
  end.

Definition sub_empty (r : re) (s : str) : str := sub_from r 0 0 s.

(** [re.split(r, s)] for a pattern that is one character class. *)
Fixpoint split_class (cs : cset) (cur : str) (s : str) : list str :=
  match s with
  | [] => [rev cur]
  | x :: s' =>
      if cset_mem fl cs x then rev cur :: split_class cs [] s'
      else split_class cs (x :: cur) s'
  end.

End Matcher.

(** [a b c ...] in sequence. *)
Fixpoint seq (l : list re) : re :=
  match l with
  | [] => Lit []
  | [a] => a
  | a :: l' => Seq a (seq l')
  end.

Definition star (cs : cset) : re := Rep cs 0 None true.        (* cs*  *)
Definition star_lazy (cs : cset) : re := Rep cs 0 None false.  (* cs*? *)
Definition plus (cs : cset) : re := Rep cs 1 None true.        (* cs+  *)
Definition opt (cs : cset) : re := Rep cs 0 (Some 1) true.     (* cs?  *)
Definition chr (s : string) : cset := COneOf (u s).
Arguments chr s%_string.

End Re.

(** ** Iterating over matches *)

Module ReIter.
Import PyStr Re.

(** A match object: where the match starts and ends, and its groups. *)
Record span_match := { m_start : nat; m_end : nat; m_groups : caps }.

Definition m_group (n : nat) (m : span_match) : str :=
  match group n (m_groups m) with
  | Some s => s
  | None => []
  end.

(** [re.search], with the start of the match. *)
Fixpoint search_span_from (fl : flags) (r : re) (pos : nat) (rest : str)
  : option span_match :=
  match match_at fl r pos rest with
  | Some (e, c) => Some {| m_start := pos; m_end := e; m_groups := c |}
  | None =>
      match rest with
      | [] => None
      | _ :: rest' => search_span_from fl r (S pos) rest'
      end
  end.

Definition search_span (fl : flags) (r : re) (s : str) : option span_match :=
  search_span_from fl r 0 s.

(** [re.finditer] for a pattern that matches no empty text: the matches
    from the left, without overlap.  [skip] counts the characters of the
    last match still to be passed over. *)
Fixpoint finditer_from (fl : flags) (r : re) (skip : nat) (pos : nat) (rest : str)
  : list span_match :=
  match rest with
  | [] => []
  | _ :: rest' =>
      match skip with
      | S n => finditer_from fl r n (S pos) rest'
      | O =>
          match match_at fl r pos rest with
          | Some (e, c) =>
              {| m_start := pos; m_end := e; m_groups := c |}
              :: finditer_from fl r (e - pos - 1) (S pos) rest'
          | None => finditer_from fl r 0 (S pos) rest'
          end
      end
  end.

Definition finditer (fl : flags) (r : re) (s : str) : list span_match :=
  finditer_from fl r 0 0 s.

(** [s[a:b]] *)
Definition slice (a b : nat) (s : str) : str := firstn (b - a) (skipn a s).

End ReIter.

(** ** Exceptions and the rendering of lists *)

Module Py.
Import PyStr.

Inductive exn :=
| FileNotFoundError (msg : str)
| KeyError (key : str)
| ZeroDivisionError (msg : str)
| OverflowError (msg : str)
(** An error of the operating system, of the class named. *)
| OSError (class_name msg : str).

Inductive result (A : Type) :=
| Ok (a : A)
| Raise (e : exn).
Arguments Ok {A} a.
Arguments Raise {A} e.

Definition bind (A B : Type) (m : result A) (f : A -> result B) : result B :=
  match m with
  | Ok a => f a
  | Raise e => Raise e
  end.

(** The least magnitude that rounds to no float: [2^1024 - 2^970], half a
    unit in the last place above the largest float. *)
Definition float_overflow : Z := (2 ^ 1024 - 2 ^ 970)%Z.

(** [a / b] for two integers, [b] a length.  The quotient is rounded to a
    float; the float is held as the pair of [a] and [b].  The division
    raises when [b] is 0 and when the quotient rounds to no float. *)
Definition true_divide (a : Z) (b : nat) : result (Z * nat) :=
  if Nat.eqb b 0 then Raise (ZeroDivisionError (u "division by zero"))
  else if (float_overflow * Z.of_nat b <=? Z.abs a)%Z
  then Raise (OverflowError (u "integer division result too large for a float"))
  else Ok (a, b).

Definition hex_digit (n : N) : char :=
  if N.ltb n 10%N then (48 + n)%N else (87 + n)%N.

(** One character inside [repr(s)], [quote] being the quote chosen. *)
Definition repr_char (quote : char) (c : char) : str :=
  if (char_eqb c quote || char_eqb c 92%N)%bool then [92%N; c]
  else if char_eqb c 9%N then u "\t"
  else if char_eqb c 10%N then u "\n"
  else if char_eqb c 13%N then u "\r"
  else if isprintable c then [c]
  else u "\x" ++ [hex_digit (N.div c 16); hex_digit (N.modulo c 16)].

(** [repr(s)] for a string: single quotes, unless the string has a single
    quote and no double quote. *)
Definition repr (s : str) : str :=
  let quote :=
    if (existsb (char_eqb 39%N) s && negb (existsb (char_eqb 34%N) s))%bool
    then 34%N else 39%N in
  quote :: flat_map (repr_char quote) s ++ [quote].

(** [str(l)] for a list of strings. *)
Definition str_of_list (l : list str) : str :=
  u "[" ++ join (u ", ") (map repr l) ++ u "]".

End Py.

(** ** master-agent.py *)

Module MasterAgent.
Import PyStr Re.

(** The dictionary built by [interpret_vision]. *)
Record Goals := { short_term : list str; long_term : list str }.

Record VisionData := {
  mission : str;
  principles : list str;
  goals : Goals;
  constraints : list str;
  success_criteria : list str;
  domain : str;
  stakeholders : list str;
  values : list str;
  architecture_hints : list str
}.

(** Flags [re.DOTALL | re.IGNORECASE] of the section patterns. *)
Definition fl_section : flags := {| ignorecase := true; dotall := true |}.
Definition fl_none : flags := {| ignorecase := false; dotall := false |}.

(** [#{1,3}] *)
Definition hashes : re := Rep (chr "#") 1 (Some 3) true.
(** [\n+] *)
Definition newlines : re := plus (COneOf nl).
(** [(.*?)(?=\n#{1,3}|\Z)] *)
Definition body_to_next_heading : list re :=
  [Group 1 (star_lazy CDot); Ahead (Alt (Seq (Lit nl) hashes) EndZ)].

(** [#{1,3}\s+<word>.*?\n+(.*?)(?=\n#{1,3}|\Z)] *)
Definition mission_pattern (word : str) : re :=
  seq ([hashes; plus CSpace; Lit word; star_lazy CDot; newlines]
       ++ body_to_next_heading).

Definition group1 (m : nat * caps) : str :=
  match group 1 (snd m) with
  | Some s => s
  | None => []
  end.

Fixpoint first_match (patterns : list re) (content : str) : option str :=
  match patterns with
  | [] => None
  | p :: ps =>
      match search fl_section p content with
      | Some m => Some (firstn 500 (strip (group1 m)))
      | None => first_match ps content
      end
  end.

Definition _extract_mission (content : str) : str :=
  let patterns :=
    [mission_pattern (u "Mission"); mission_pattern (u "Purpose");
     mission_pattern (u "Overview")] in
  match first_match patterns content with
  | Some r => r
  | None =>
      (* Fallback: first paragraph *)
      match split content (nl ++ nl) with
      | p :: _ => firstn 500 (strip p)
      | [] => u "Mission not specified"
      end
  end.

(** The bullet glyph of the source text: the three code points U+201A,
    U+00C4, U+00A2. *)
Definition bullet_glyph : str := [8218%N; 196%N; 162%N].

(** [^\d+\.] *)
Definition ordinal_start : re := seq [Bol; plus CDigit; Lit (u ".")].

(** [^[-*<glyph>]\s*|\d+\.\s*] *)
Definition marker_pattern : re :=
  Alt (seq [Bol; One (COneOf (u "-*" ++ bullet_glyph)); star CSpace])
      (seq [plus CDigit; Lit (u "."); star CSpace]).

Definition is_list_line (line : str) : bool :=
  (startswith line (u "-") || startswith line (u "*")
   || startswith line bullet_glyph
   || match rmatch fl_none ordinal_start line with
      | Some _ => true
      | None => false
      end)%bool.

Fixpoint list_items_of_lines (lines : list str) : list str :=
  match lines with
  | [] => []
  | line :: rest =>
      let line := strip line in
      if is_list_line line then
        let item := sub_empty fl_none marker_pattern line in
        if (negb (Nat.eqb (List.length item) 0) && (5 <? List.length item))%bool
        then item :: list_items_of_lines rest
        else list_items_of_lines rest
      else list_items_of_lines rest
  end.

Definition _extract_list_items (content : str) : list str :=
  list_items_of_lines (split content nl).

(** [#{1,3}\s+.*<keyword>[^\n]*\n+([^#].*?)(?=\n#{1,3}|\Z)] *)
Definition principles_pattern (keyword : str) : re :=
  seq [hashes; plus CSpace; star CDot; Lit keyword; star (CNoneOf nl);
       newlines;
       Group 1 (Seq (One (CNoneOf (u "#"))) (star_lazy CDot));
       Ahead (Alt (Seq (Lit nl) hashes) EndZ)].

Fixpoint principles_of (keywords : list str) (content : str) : list str :=
  match keywords with
  | [] => []
  | keyword :: ks =>
      match search fl_section (principles_pattern keyword) content with
      | Some m => _extract_list_items (group1 m) ++ principles_of ks content
      | None => principles_of ks content
      end
  end.

(** [#{1,3}\s+.*<alternatives>.*?\n+(.*?)(?=\n#{1,3}|\Z)] *)
Definition heading_containing (alternatives : re) : re :=
  seq ([hashes; plus CSpace; star CDot; alternatives; star_lazy CDot; newlines]
       ++ body_to_next_heading).

(** [(?:short.?term|6.?month|year.?1)] *)
Definition short_alternatives : re :=
  Alt (seq [Lit (u "short"); opt CDot; Lit (u "term")])
   (Alt (seq [Lit (u "6"); opt CDot; Lit (u "month")])
        (seq [Lit (u "year"); opt CDot; Lit (u "1")])).

(** [(?:long.?term|year.?[23]|future)] *)
Definition long_alternatives : re :=
  Alt (seq [Lit (u "long"); opt CDot; Lit (u "term")])
   (Alt (seq [Lit (u "year"); opt CDot; One (chr "23")])
        (Lit (u "future"))).

Definition items_under (p : re) (content : str) : list str :=
  match search fl_section p content with
  | Some m => _extract_list_items (group1 m)
  | None => []
  end.

Definition _extract_goals (content : str) : Goals :=
  {| short_term := items_under (heading_containing short_alternatives) content;
     long_term := items_under (heading_containing long_alternatives) content |}.

Definition _extract_constraints (content : str) : list str :=
  items_under (heading_containing (Lit (u "constraint"))) content.

Definition _extract_success_criteria (content : str) : list str :=
  items_under (heading_containing (Lit (u "success"))) content.

(** The lexicon of [_infer_domain], in declaration order. *)
Definition domain_keywords : list (str * list str) :=
  [ (u "education", [u "learn"; u "student"; u "course"; u "teach"; u "education"]);
    (u "healthcare", [u "health"; u "medical"; u "patient"; u "clinical"; u "hospital"]);
    (u "finance", [u "financial"; u "banking"; u "payment"; u "transaction"; u "trading"]);
    (u "ecommerce", [u "shop"; u "product"; u "cart"; u "checkout"; u "order"]);
    (u "social", [u "social"; u "community"; u "connect"; u "share"; u "network"]);
    (u "iot", [u "device"; u "sensor"; u "embedded"; u "hardware"; u "iot"]);
    (u "enterprise", [u "business"; u "enterprise"; u "organization"; u "workflow"]);
    (u "gaming", [u "game"; u "player"; u "level"; u "score"; u "gameplay"]);
    (u "media", [u "content"; u "video"; u "stream"; u "media"; u "publish"]) ].

(** [sum(content_lower.count(kw) for kw in keywords)] *)
Definition score (content_lower : str) (keywords : list str) : nat :=
  list_sum (map (count content_lower) keywords).

Definition domain_scores (content : str) : list (str * nat) :=
  let content_lower := lower content in
  map (fun dk => (fst dk, score content_lower (snd dk))) domain_keywords.

(** [max(items, key=...)] keeps the first of the items with the largest
    key: the running best is replaced only by a strictly larger one. *)
Fixpoint max_by_from (A : Type) (key : A -> nat) (best : A) (l : list A) : A :=
  match l with
  | [] => best
  | x :: l' => if key best <? key x then max_by_from key x l' else max_by_from key best l'
  end.

Definition _infer_domain (content : str) : str :=
  match domain_scores content with
  | [] => u "general"   (* the table is not empty *)
  | first :: others =>
      let top_domain := max_by_from snd first others in
      if 0 <? snd top_domain then fst top_domain else u "general"
  end.

Definition value_keywords : list str :=
  [u "simple"; u "secure"; u "reliable"; u "fast"; u "accessible";
   u "private"; u "open"; u "transparent"; u "scalable"; u "resilient"].

Definition _extract_values (content : str) : list str :=
  let content_lower := lower content in
  firstn 7 (filter (fun v => contains content_lower v) value_keywords).

Definition arch_keywords : list str :=
  [u "architecture"; u "platform"; u "infrastructure"; u "system";
   u "offline"; u "cloud"; u "mobile"; u "web"; u "api"; u "microservice"].

Fixpoint hints_of (keywords : list str) (content : str) : list str :=
  match keywords with
  | [] => []
  | keyword :: ks =>
      if contains (lower content) keyword then
        let sentences := split_class fl_none (chr ".!?") [] content in
        match find (fun sentence => contains (lower sentence) keyword) sentences with
        | Some sentence => strip sentence :: hints_of ks content
        | None => hints_of ks content
        end
      else hints_of ks content
  end.

Definition _extract_architecture_hints (content : str) : list str :=
  firstn 5 (hints_of arch_keywords content).

(** *** The constitution *)

Record CoreLaw := {
  id : str;
  principle : str;
  enforcement : str;
  violation_action : str
}.

Record PrincipleRule := {
  rule_id : str;
  name : str;
  description : str;
  validation : str
}.

Record QualityGate := {
  gate_name : str;
  checks : list str;
  required : bool
}.

Record DecisionFramework := {
  agent_authority : list (str * str);
  review_required : list str;
  approval_levels : list (str * str)
}.

Record Constitution := {
  version : str;
  created : str;
  source_vision : str;
  core_laws : list CoreLaw;
  working_principles : list PrincipleRule;
  decision_framework : DecisionFramework;
  quality_gates : list QualityGate;
  review_criteria : list str;
  enforcement_rules : list (str * list str);
  escalation : list (str * str)
}.

(** [enumerate(principles[:5])], the index starting at [i]. *)
Fixpoint core_laws_from (i : nat) (ps : list str) : list CoreLaw :=
  match ps with
  | [] => []
  | p :: ps' =>
      {| id := u "LAW-" ++ format_0d 3 (i + 1);
         principle := p;
         enforcement := u "automatic";
         violation_action := u "reject" |} :: core_laws_from (S i) ps'
  end.

Definition _derive_core_laws (vision_data : VisionData) : list CoreLaw :=
  core_laws_from 0 (firstn 5 (principles vision_data)).

Definition _derive_principles : list PrincipleRule :=
  [ {| rule_id := u "PRIN-001"; name := u "Vision Alignment";
       description := u "All work must align with project vision";
       validation := u "Check against vision goals" |};
    {| rule_id := u "PRIN-002"; name := u "Quality First";
       description := u "Quality cannot be compromised for speed";
       validation := u "All quality gates must pass" |};
    {| rule_id := u "PRIN-003"; name := u "Simplicity";
       description := u "Choose simple solutions over complex";
       validation := u "Complexity review required" |} ].

Definition _create_decision_framework : DecisionFramework :=
  {| agent_authority :=
       [ (u "implement", u "Implementation details");
         (u "propose", u "Architectural changes");
         (u "escalate", u "Vision/principle changes") ];
     review_required :=
       [ u "Breaking changes"; u "New dependencies";
         u "Architecture decisions"; u "Security changes" ];
     approval_levels :=
       [ (u "code", u "any-agent");
         (u "architecture", u "enforcement-agent");
         (u "vision", u "human") ] |}.

Definition _define_quality_gates (vision_data : VisionData) : list QualityGate :=
  let gates :=
    [ {| gate_name := u "Code Quality";
         checks := [u "linting"; u "tests"; u "coverage"];
         required := true |};
      {| gate_name := u "Vision Alignment";
         checks := [u "goals"; u "principles"; u "constraints"];
         required := true |};
      {| gate_name := u "Security";
         checks := [u "vulnerability-scan"; u "secrets-check"];
         required := true |} ] in
  (* Add domain-specific gates *)
  if str_eqb (domain vision_data) (u "education")
  then gates ++ [ {| gate_name := u "Accessibility";
                     checks := [u "wcag"; u "screen-reader"];
                     required := true |} ]
  else gates.

Definition _define_review_criteria : list str :=
  [ u "Aligns with vision"; u "Follows principles"; u "Meets quality gates";
    u "Has adequate tests"; u "Documentation updated"; u "No security issues" ].

Definition _define_enforcement_rules : list (str * list str) :=
  [ (u "automatic", [u "Linting"; u "Tests"; u "Security scans"]);
    (u "agent_review", [u "Code review"; u "Architecture review"; u "Complexity review"]);
    (u "human_approval", [u "Vision changes"; u "Release decisions"; u "Major pivots"]) ].

Definition _define_escalation_paths : list (str * str) :=
  [ (u "technical_blocker", u "coordination-agent");
    (u "architecture_conflict", u "enforcement-agent");
    (u "vision_conflict", u "human");
    (u "resource_constraint", u "human") ].

(** *** The agent roster *)

Record AgentSpec := {
  agent_id : str;
  title : str;
  type : str;
  role : str;
  authority : str;
  responsibilities : option (list str)
}.

Definition _core_coordination_agents : list AgentSpec :=
  [ {| agent_id := u "master-coordinator";
       title := u "Master Coordination Agent";
       type := u "coordination";
       role := u "Orchestrate overall system execution";
       authority := u "coordinate";
       responsibilities :=
         Some [ u "Sprint planning"; u "Task assignment";
                u "Progress tracking"; u "Blocker resolution" ] |};
    {| agent_id := u "task-dispatcher";
       title := u "Task Dispatcher Agent";
       type := u "coordination";
       role := u "Assign tasks to appropriate agents";
       authority := u "assign";
       responsibilities :=
         Some [ u "Task analysis"; u "Agent matching";
                u "Load balancing"; u "Priority management" ] |} ].

Definition mobile_agent : AgentSpec :=
  {| agent_id := u "mobile-agent";
     title := u "Mobile Development Agent";
     type := u "development";
     role := u "Develop mobile applications";
     authority := u "implement";
     responsibilities := None |}.

Definition api_agent : AgentSpec :=
  {| agent_id := u "api-agent";
     title := u "API Development Agent";
     type := u "development";
     role := u "Design and implement APIs";
     authority := u "implement";
     responsibilities := None |}.

(** Common agents for any domain *)
Definition common_agents : list AgentSpec :=
  [ {| agent_id := u "implementation-agent";
       title := u "Implementation Agent";
       type := u "development";
       role := u "Implement features and functionality";
       authority := u "implement";
       responsibilities := None |};
    {| agent_id := u "test-agent";
       title := u "Quality Assurance Agent";
       type := u "development";
       role := u "Ensure quality through testing";
       authority := u "validate";
       responsibilities := None |};
    {| agent_id := u "documentation-agent";
       title := u "Documentation Agent";
       type := u "development";
       role := u "Maintain project documentation";
       authority := u "document";
       responsibilities := None |} ].

Definition _domain_specific_agents (vision_data : VisionData) : list AgentSpec :=
  let agents := common_agents in
  (* Domain-specific specializations *)
  let rendered := lower (Py.str_of_list (architecture_hints vision_data)) in
  let agents :=
    if contains rendered (u "mobile") then agents ++ [mobile_agent] else agents in
  let agents :=
    if contains rendered (u "api") then agents ++ [api_agent] else agents in
  agents.

Definition _enforcement_agents : list AgentSpec :=
  [ {| agent_id := u "constitutional-judge";
       title := u "Constitutional Judge Agent";
       type := u "enforcement";
       role := u "Ensure compliance with constitution";
       authority := u "enforce";
       responsibilities :=
         Some [ u "Review changes for principle violations";
                u "Validate vision alignment"; u "Enforce core laws" ] |};
    {| agent_id := u "security-enforcer";
       title := u "Security Enforcement Agent";
       type := u "enforcement";
       role := u "Ensure security standards";
       authority := u "enforce";
       responsibilities :=
         Some [ u "Security scanning"; u "Vulnerability detection";
                u "Secret detection" ] |};
    {| agent_id := u "quality-enforcer";
       title := u "Quality Enforcement Agent";
       type := u "enforcement";
       role := u "Ensure quality standards";
       authority := u "enforce";
       responsibilities :=
         Some [ u "Code quality checks"; u "Test coverage validation";
                u "Performance validation" ] |} ].

(** The roster assembled by [identify_required_agents]. *)
Definition required_agents (vision_data : VisionData) : list AgentSpec :=
  (* Core coordination agents (always needed) *)
  _core_coordination_agents
  (* Domain-specific agents based on vision analysis *)
  ++ _domain_specific_agents vision_data
  (* Enforcement agents based on constitution *)
  ++ _enforcement_agents.

(** *** The agent and its state

    The fields of a [MasterAgent] object that the operations below read
    and write ([protocol] is written by [generate_communication_protocol]
    only). *)
Record State := {
  repo_root : str;
  vision_path : option str;
  vision_data : option VisionData;
  constitution : option Constitution;
  agents : list AgentSpec
}.

Definition init (root : str) : State :=
  {| repo_root := root; vision_path := None; vision_data := None;
     constitution := None; agents := [] |}.

(** The files of the repository: the text at a path, if the path exists. *)
Definition files := str -> option str.

Definition exists_ (fs : files) (p : str) : bool :=
  match fs p with
  | Some _ => true
  | None => false
  end.

Definition possible_locations : list str :=
  [ u "docs/product/vision.md"; u "docs/vision.md"; u "VISION.md"; u "README.md" ].

Fixpoint first_existing (fs : files) (root : str) (locations : list str) : option str :=
  match locations with
  | [] => None
  | location :: ls =>
      let path := root ++ u "/" ++ location in
      if exists_ fs path then Some path else first_existing fs root ls
  end.

Definition discover_vision (fs : files) (st : State) : option str * State :=
  match first_existing fs (repo_root st) possible_locations with
  | Some path =>
      (Some path,
       {| repo_root := repo_root st; vision_path := Some path;
          vision_data := vision_data st; constitution := constitution st;
          agents := agents st |})
  | None => (None, st)
  end.

(** [str(self.vision_path)] *)
Definition str_of_path (p : option str) : str :=
  match p with
  | Some s => s
  | None => u "None"
  end.

(** [_extract_principles] and [_identify_stakeholders] pass their findings
    through a [set]; Python leaves the iteration order of a set of strings
    unspecified.  The order is a parameter: [set_order l] lists the distinct
    elements of [l] in the order the set yields them. *)
Section Interpretation.
Variable set_order : list str -> list str.
Variable _identify_stakeholders : str -> list str.

Definition _extract_principles (content : str) : list str :=
  let section_keywords := [u "principle"; u "value"; u "philosophy"; u "approach"] in
  firstn 10 (set_order (principles_of section_keywords content)).

(** The dictionary of [interpret_vision], from the text of the document. *)
Definition vision_of_content (content : str) : VisionData :=
  {| mission := _extract_mission content;
     principles := _extract_principles content;
     goals := _extract_goals content;
     constraints := _extract_constraints content;
     success_criteria := _extract_success_criteria content;
     domain := _infer_domain content;
     stakeholders := _identify_stakeholders content;
     values := _extract_values content;
     architecture_hints := _extract_architecture_hints content |}.

Definition interpret_vision (fs : files) (path : option str) (st : State)
  : Py.result (VisionData * State) :=
  let st1 :=
    match path with
    | Some (c :: p) =>
        {| repo_root := repo_root st; vision_path := Some (c :: p);
           vision_data := vision_data st; constitution := constitution st;
           agents := agents st |}
    | _ =>
        match vision_path st with
        | Some _ => st
        | None => snd (discover_vision fs st)
        end
    end in
  match vision_path st1 with
  | None => Py.Raise (Py.FileNotFoundError (u "Vision document not found"))
  | Some p =>
      match fs p with
      | None => Py.Raise (Py.FileNotFoundError (u "Vision document not found"))
      | Some content =>
          let data := vision_of_content content in
          Py.Ok (data,
                 {| repo_root := repo_root st1; vision_path := vision_path st1;
                    vision_data := Some data; constitution := constitution st1;
                    agents := agents st1 |})
      end
  end.

(** [if not self.vision_data: self.interpret_vision()] *)
Definition ensure_vision (fs : files) (st : State) : Py.result (VisionData * State) :=
  match vision_data st with
  | Some data => Py.Ok (data, st)
  | None => interpret_vision fs None st
  end.

(** [now] is [datetime.now().isoformat()] at the time of the call. *)
Definition generate_constitution (fs : files) (now : str) (st : State)
  : Py.result (Constitution * State) :=
  Py.bind (ensure_vision fs st) (fun r =>
    let '(data, st1) := r in
    let c :=
      {| version := u "1.0";
         created := now;
         source_vision := str_of_path (vision_path st1);
         core_laws := _derive_core_laws data;
         working_principles := _derive_principles;
         decision_framework := _create_decision_framework;
         quality_gates := _define_quality_gates data;
         review_criteria := _define_review_criteria;
         enforcement_rules := _define_enforcement_rules;
         escalation := _define_escalation_paths |} in
    Py.Ok (c,
           {| repo_root := repo_root st1; vision_path := vision_path st1;
              vision_data := vision_data st1; constitution := Some c;
              agents := agents st1 |})).

Definition identify_required_agents (fs : files) (st : State)
  : Py.result (list AgentSpec * State) :=
  Py.bind (ensure_vision fs st) (fun r =>
    let '(data, st1) := r in
    let roster := required_agents data in
    Py.Ok (roster,
           {| repo_root := repo_root st1; vision_path := vision_path st1;
              vision_data := vision_data st1; constitution := constitution st1;
              agents := roster |})).

End Interpretation.

End MasterAgent.

(** ** pr-constitution-generator.py *)

Module PRConstitutionGenerator.
Import PyStr.
Import MasterAgent.

(** [any(keyword in text for keyword in keywords)] *)
Definition any_in (text : str) (keywords : list str) : bool :=
  existsb (fun keyword => contains text keyword) keywords.

Definition _generate_principle_checks (principle : str) : list str :=
  let principle_lower := lower principle in
  (* Generic check - always include *)
  let checks := [u "Implementation aligns with principle"] in
  (* Specific checks based on keywords *)
  let checks :=
    if any_in principle_lower [u "offline"; u "connectivity"; u "network"] then
      checks ++ [ u "Feature works without network connectivity";
                  u "Graceful handling of network failures" ]
    else if any_in principle_lower [u "mobile"; u "phone"; u "device"] then
      checks ++ [ u "Mobile-friendly implementation";
                  u "Works on target mobile devices" ]
    else if any_in principle_lower [u "simple"; u "simplicity"; u "easy"] then
      checks ++ [ u "Solution is as simple as possible";
                  u "No unnecessary complexity" ]
    else if any_in principle_lower [u "secure"; u "security"; u "privacy"; u "protected"] then
      checks ++ [ u "Security best practices followed";
                  u "No known vulnerabilities" ]
    else if any_in principle_lower [u "performance"; u "fast"; u "speed"; u "quick"] then
      checks ++ [ u "Performance targets met";
                  u "No performance regressions" ]
    else if any_in principle_lower [u "reliable"; u "reliability"; u "consistent"; u "resilient"] then
      checks ++ [ u "Error handling implemented";
                  u "Graceful degradation in edge cases" ]
    else if any_in principle_lower [u "accessible"; u "accessibility"; u "anyone"; u "anywhere"] then
      checks ++ [ u "Works in target environments";
                  u "No unnecessary barriers" ]
    else if any_in principle_lower [u "open"; u "transparent"; u "interoperable"] then
      checks ++ [ u "Uses open standards where applicable";
                  u "Documented interfaces" ]
    else
      (* Default checks for unrecognized principles *)
      checks ++ [ u "Principle considered in design";
                  u "No violations of principle" ] in
  firstn 4 checks.

Record Requirement := {
  req_description : str;
  req_checks : list str
}.

(** The dictionary of requirements, in insertion order. *)
Definition _derive_technical_requirements (vision_data : VisionData)
  : list (str * Requirement) :=
  let constraints := constraints vision_data in
  (* Device compatibility (if mobile/device mentioned) *)
  let arch_hints := lower (join (u " ") (architecture_hints vision_data)) in
  let device :=
    if (contains arch_hints (u "mobile") || contains arch_hints (u "phone")
        || contains arch_hints (u "device"))%bool
    then [ (u "device_compatibility",
            {| req_description := u "Ensure compatibility with target devices";
               req_checks :=
                 [ u "Tested on target devices or emulators";
                   u "Performance within acceptable range";
                   u "No crashes on target platforms";
                   u "Resource usage acceptable" ] |}) ]
    else [] in
  (* Performance requirements *)
  let performance :=
    if (contains (lower (join (u " ") constraints)) (u "performance")
        || contains (join (u " ") (values vision_data)) (u "fast"))%bool
    then [ (u "performance",
            {| req_description := u "Meet performance requirements";
               req_checks :=
                 [ u "Performance benchmarks run";
                   u "No performance regressions";
                   u "Response times acceptable";
                   u "Resource usage optimized" ] |}) ]
    else [] in
  (* Storage/resource constraints *)
  let resource :=
    if existsb (fun c => (contains (lower c) (u "storage")
                          || contains (lower c) (u "memory")
                          || contains (lower c) (u "resource"))%bool) constraints
    then [ (u "resource_constraints",
            {| req_description := u "Respect resource constraints";
               req_checks :=
                 [ u "Storage impact documented";
                   u "Memory usage acceptable";
                   u "Resource cleanup implemented";
                   u "Efficient data structures used" ] |}) ]
    else [] in
  device ++ performance ++ resource.

(** The security requirements, in insertion order: a name, the list under
    [requirements] and the list under [checks]. *)
Definition _define_security_requirements (vision_data : VisionData)
  : list (str * (list str * list str)) :=
  let privacy_focused := existsb (str_eqb (u "private")) (values vision_data) in
  let requirements :=
    [ (u "data_protection",
       ([ u "Sensitive data encrypted at rest"; u "Secure communication (HTTPS)";
          u "Input validation present"; u "No hardcoded secrets" ],
        [ u "Security scan passes"; u "No known vulnerabilities";
          u "Secrets properly managed"; u "Input sanitized" ])) ] in
  if privacy_focused then
    requirements ++
    [ (u "privacy",
       ([ u "Minimal data collection"; u "User consent obtained";
          u "Data anonymized where possible"; u "Privacy policy compliance" ],
        [ u "Privacy review done"; u "PII handled correctly";
          u "Consent flow appropriate"; u "Audit trail in place" ])) ]
  else requirements.

Record Principle := {
  p_description : str;
  p_enforcement : str;
  p_checks : list str
}.

(** [d[key] = value] on a dictionary in insertion order: a key already
    present keeps its place. *)
Fixpoint dict_set (A : Type) (key : str) (value : A) (d : list (str * A)) : list (str * A) :=
  match d with
  | [] => [(key, value)]
  | (k, v) :: rest =>
      if str_eqb k key then (k, value) :: rest else (k, v) :: dict_set key value rest
  end.

(** [s.replace(a, b)] for single characters. *)
Definition replace_char (a b : char) (s : str) : str :=
  map (fun c => if char_eqb c a then b else c) s.

(** [str.isalnum] and [str.capitalize] are tables of the Unicode
    database, taken as parameters. *)
Section CorePrinciples.
Variable isalnum : char -> bool.
Variable capitalize : str -> str.

Definition principle_id_of (principle : str) : str :=
  (* Extract principle name (before colon if present) *)
  let principle_name :=
    strip (match split principle (u ":") with
           | first :: _ => first
           | [] => []
           end) in
  let principle_id := replace_char 45%N 95%N (replace_char 32%N 95%N (lower principle_name)) in
  (* Clean up ID *)
  firstn 40 (filter (fun c => (isalnum c || char_eqb c 95%N)%bool) principle_id).

Fixpoint add_principles (ps : list str) (principles : list (str * Principle))
  : list (str * Principle) :=
  match ps with
  | [] => principles
  | principle :: rest =>
      add_principles rest
        (dict_set (principle_id_of principle)
           {| p_description := principle;
              p_enforcement := u "mandatory";
              p_checks := _generate_principle_checks principle |}
           principles)
  end.

(** Generate checks for a value. *)
Definition _generate_value_checks (value : str) : list str :=
  [ u "Implementation maintains " ++ value;
    u "No compromise on " ++ value;
    capitalize value ++ u " validated in tests" ].

Fixpoint add_values (vs : list str) (principles : list (str * Principle))
  : list (str * Principle) :=
  match vs with
  | [] => principles
  | value :: rest =>
      let value_id := value ++ u "_focused" in
      add_values rest
        (if existsb (fun kv => str_eqb (fst kv) value_id) principles
         then principles
         else principles ++
              [ (value_id,
                 {| p_description := u "Maintain " ++ value ++ u " as a core value";
                    p_enforcement := u "mandatory";
                    p_checks := _generate_value_checks value |}) ])
  end.

(** Derive core principles from vision principles and values. *)
Definition _derive_core_principles (vision_data : VisionData) : list (str * Principle) :=
  (* Add principles from vision (these are the main ones) *)
  let principles := add_principles (firstn 7 (principles vision_data)) [] in
  (* Only add values if we don't have enough principles *)
  if List.length principles <? 3
  then add_values (firstn 3 (values vision_data)) principles
  else principles.

End CorePrinciples.

End PRConstitutionGenerator.

(** ** vision-task-extractor.py *)

Module VisionTaskExtractor.
Import PyStr Re.

(** Flag [re.DOTALL]. *)
Definition fl_dotall : flags := {| ignorecase := false; dotall := true |}.

(** The pattern of [_extract_section] is an [rf] string: each [{1,3}] in it
    is a replacement field that holds the tuple [(1, 3)], so the text
    handed to [re] is
    [#(1, 3)\s+<heading>.*?\n(.*?)(?=\n#(1, 3)\s+|\Z)],
    in which [(1, 3)] is a group around the literal [1, 3].  The groups are
    numbered from the left: 1 is the first [(1, 3)], 2 is [(.*?)], 3 is the
    [(1, 3)] of the lookahead.  [re.escape(heading)] is the heading read
    literally. *)
Definition section_pattern (heading : str) : re :=
  seq [ Lit (u "#"); Group 1 (Lit (u "1, 3")); plus CSpace; Lit heading;
        star_lazy CDot; Lit nl;
        Group 2 (star_lazy CDot);
        Ahead (Alt (seq [Lit nl; Lit (u "#"); Group 3 (Lit (u "1, 3")); plus CSpace])
                   EndZ) ].

Definition _extract_section (content heading : str) : str :=
  match search fl_dotall (section_pattern heading) content with
  | Some m =>
      match group 1 (snd m) with
      | Some s => strip s
      | None => strip []
      end
  | None => []
  end.

(** *** Tasks from the backlog *)

(** [any(kw in text for kw in keywords)] *)
Definition any_kw (text : str) (keywords : list str) : bool :=
  existsb (fun kw => contains text kw) keywords.

(** Simple heuristic to estimate story points *)
Definition _estimate_task_points (task_desc : str) : nat :=
  let keywords_complex := [u "implementation"; u "integration"; u "system"; u "architecture"] in
  let keywords_medium := [u "design"; u "create"; u "build"; u "add"] in
  let keywords_simple := [u "setup"; u "update"; u "fix"; u "document"] in
  let task_lower := lower task_desc in
  if any_kw task_lower keywords_complex then 5
  else if any_kw task_lower keywords_medium then 3
  else if any_kw task_lower keywords_simple then 1
  else 2.

(** Suggest appropriate agent type for task *)
Definition _suggest_agent_type (task_desc : str) : str :=
  let task_lower := lower task_desc in
  if any_kw task_lower [u "ui"; u "screen"; u "component"; u "view"] then u "ui-agent"
  else if any_kw task_lower [u "database"; u "storage"; u "data"; u "schema"] then u "data-agent"
  else if any_kw task_lower [u "test"; u "testing"; u "validation"] then u "test-agent"
  else if any_kw task_lower [u "document"; u "docs"; u "guide"] then u "doc-agent"
  else if any_kw task_lower [u "api"; u "endpoint"; u "service"] then u "backend-agent"
  else u "general-agent".

Definition fl_plain : flags := {| ignorecase := false; dotall := false |}.

(** [^\s*-\s*\[[ x]\]] *)
Definition checkbox_pattern : re :=
  seq [Bol; star CSpace; Lit (u "-"); star CSpace; Lit (u "["); One (chr " x"); Lit (u "]")].

(** [^\s*-\s*\[[ x]\]\s*] *)
Definition checkbox_prefix : re :=
  seq [Bol; star CSpace; Lit (u "-"); star CSpace; Lit (u "["); One (chr " x"); Lit (u "]");
       star CSpace].

Fixpoint checkbox_items_of_lines (lines : list str) : list str :=
  match lines with
  | [] => []
  | line :: rest =>
      match rmatch fl_plain checkbox_pattern line with
      | Some _ =>
          let item := strip (sub_empty fl_plain checkbox_prefix line) in
          match item with
          | [] => checkbox_items_of_lines rest
          | _ :: _ => item :: checkbox_items_of_lines rest
          end
      | None => checkbox_items_of_lines rest
      end
  end.

(** Extract checkbox items from content *)
Definition _extract_checkbox_items (content : str) : list str :=
  checkbox_items_of_lines (split content nl).

Record Story := {
  story_id : str;
  story_title : str;
  story_tasks : list str;
  story_status : str
}.

(** [\*\*(\d+\.\d+)\s+([^\*]+)\*\*] *)
Definition story_pattern : re :=
  seq [ Lit (u "**"); Group 1 (seq [plus CDigit; Lit (u "."); plus CDigit]);
        plus CSpace; Group 2 (plus (CNoneOf (u "*"))); Lit (u "**") ].

(** [\*\*\d+\.\d+] *)
Definition next_story_pattern : re :=
  seq [Lit (u "**"); plus CDigit; Lit (u "."); plus CDigit].

Definition story_of_match (epic_content : str) (m : ReIter.span_match) : Story :=
  (* Find tasks for this story (checkbox items after the story) *)
  let story_pos := ReIter.m_end m in
  let end_pos :=
    match ReIter.search_span fl_plain next_story_pattern (skipn story_pos epic_content) with
    | Some next_story => story_pos + ReIter.m_start next_story
    | None => List.length epic_content
    end in
  let story_section := ReIter.slice story_pos end_pos epic_content in
  {| story_id := ReIter.m_group 1 m;
     story_title := strip (ReIter.m_group 2 m);
     story_tasks := _extract_checkbox_items story_section;
     story_status := u "pending" |}.

(** Extract stories from epic section *)
Definition _extract_stories (epic_content : str) : list Story :=
  map (story_of_match epic_content) (ReIter.finditer fl_plain story_pattern epic_content).

Record Epic := {
  epic_id : str;
  epic_title : str;
  epic_priority : str;
  epic_goal : str;
  epic_stories : list Story
}.

Record SprintTask := {
  task_id : str;
  task_epic : str;
  task_story : str;
  task_description : str;
  task_priority : str;
  task_status : str;
  task_estimated_points : nat;
  task_agent_type : str
}.

(** The tasks of one story, numbered from [n]. *)
Fixpoint tasks_of_story (epic : Epic) (story : Story) (n : nat) (descs : list str)
  : list SprintTask :=
  match descs with
  | [] => []
  | task_desc :: rest =>
      {| task_id := u "TASK-" ++ format_0d 3 n;
         task_epic := epic_title epic;
         task_story := story_title story;
         task_description := task_desc;
         task_priority := epic_priority epic;
         task_status := u "todo";
         task_estimated_points := _estimate_task_points task_desc;
         task_agent_type := _suggest_agent_type task_desc |}
      :: tasks_of_story epic story (S n) rest
  end.

Fixpoint tasks_of_stories (epic : Epic) (stories : list Story) (n : nat)
  : list SprintTask :=
  match stories with
  | [] => []
  | story :: rest =>
      tasks_of_story epic story n (story_tasks story)
      ++ tasks_of_stories epic rest (n + List.length (story_tasks story))
  end.

Definition tasks_in (epic : Epic) : nat :=
  list_sum (map (fun story => List.length (story_tasks story)) (epic_stories epic)).

Fixpoint tasks_of_epics (epics : list Epic) (n : nat) : list SprintTask :=
  match epics with
  | [] => []
  | epic :: rest =>
      tasks_of_stories epic (epic_stories epic) n
      ++ tasks_of_epics rest (n + tasks_in epic)
  end.

(** Convert stories into actionable tasks with metadata; [task_id] starts
    at 1. *)
Definition _extract_actionable_tasks (epics : list Epic) : list SprintTask :=
  tasks_of_epics epics 1.

(** Determine sprint goal based on vision and selected epics *)
Definition _determine_sprint_goal (epics : list Epic) : str :=
  match epics with
  | [] => u "Initialize project foundation"
  | _ :: _ =>
      (* Combine the goals of selected epics *)
      let epic_goals := map epic_goal (firstn 2 epics) in
      u "Deliver " ++ join (u " and ") epic_goals
  end.

(** The bullet glyph of this source text: the three code points U+00E2,
    U+20AC, U+00A2. *)
Definition bullet_glyph : str := [226%N; 8364%N; 162%N].

(** [^[-*<glyph>]\s*|\d+\.\s*] *)
Definition marker_pattern : re :=
  Alt (seq [Bol; One (COneOf (u "-*" ++ bullet_glyph)); star CSpace])
      (seq [plus CDigit; Lit (u "."); star CSpace]).

(** [^\d+\.] *)
Definition ordinal_start : re := seq [Bol; plus CDigit; Lit (u ".")].

Fixpoint list_items_of_lines (lines : list str) : list str :=
  match lines with
  | [] => []
  | line :: rest =>
      let line := strip line in
      if (startswith line (u "-") || startswith line (u "*")
          || startswith line bullet_glyph
          || match rmatch fl_plain ordinal_start line with
             | Some _ => true
             | None => false
             end)%bool
      then
        (* Remove list markers *)
        match sub_empty fl_plain marker_pattern line with
        | [] => list_items_of_lines rest
        | item => item :: list_items_of_lines rest
        end
      else list_items_of_lines rest
  end.

(** Extract bullet points or numbered list items *)
Definition _extract_list_items (content : str) : list str :=
  list_items_of_lines (split content nl).

Record Vision := {
  v_mission : str;
  short_term_goals : list str;
  guiding_principles : list str;
  v_success_criteria : list str
}.

Definition vision_file (repo_root : str) : str := repo_root ++ u "/docs/product/vision.md".
Definition backlog_file (repo_root : str) : str :=
  repo_root ++ u "/docs/development/backlog-v1.md".

(** Parse vision document to extract goals and priorities *)
Definition parse_vision (fs : MasterAgent.files) (repo_root : str) : Py.result Vision :=
  match fs (vision_file repo_root) with
  | None =>
      Py.Raise (Py.FileNotFoundError (u "Vision file not found: " ++ vision_file repo_root))
  | Some content =>
      Py.Ok {| v_mission := _extract_section content (u "Mission Statement");
               short_term_goals :=
                 _extract_list_items (_extract_section content (u "Short Term"));
               guiding_principles :=
                 _extract_list_items (_extract_section content (u "Guiding Principles"));
               v_success_criteria :=
                 _extract_list_items (_extract_section content (u "Success Criteria")) |}
  end.

(** The class [\w] is a table of the Unicode database: [word_chars] lists
    its code points. *)
Section Backlog.
Variable word_chars : list char.

(** [## (Epic \d+): ([^\n]+)\n\n### Priority: (\w+)\n\*\*Goal\*\*: ([^\n]+)] *)
Definition epic_pattern : re :=
  seq [ Lit (u "## "); Group 1 (seq [Lit (u "Epic "); plus CDigit]); Lit (u ": ");
        Group 2 (plus (CNoneOf nl)); Lit (nl ++ nl); Lit (u "### Priority: ");
        Group 3 (plus (COneOf word_chars)); Lit nl; Lit (u "**Goal**: ");
        Group 4 (plus (CNoneOf nl)) ].

Definition epic_of_match (content : str) (m : ReIter.span_match) : Epic :=
  let id := ReIter.m_group 1 m in
  let title := ReIter.m_group 2 m in
  (* Extract stories for this epic *)
  let epic_section := _extract_section content (id ++ u ": " ++ title) in
  {| epic_id := id;
     epic_title := title;
     epic_priority := ReIter.m_group 3 m;
     epic_goal := ReIter.m_group 4 m;
     epic_stories := _extract_stories epic_section |}.

(** Parse backlog to extract epics and stories *)
Definition parse_backlog (fs : MasterAgent.files) (repo_root : str) : Py.result (list Epic) :=
  match fs (backlog_file repo_root) with
  | None =>
      Py.Raise (Py.FileNotFoundError (u "Backlog file not found: " ++ backlog_file repo_root))
  | Some content =>
      Py.Ok (map (epic_of_match content) (ReIter.finditer fl_plain epic_pattern content))
  end.

Record Alignment := {
  vision_goals : list str;
  success_criteria : list str
}.

Record SprintPlan := {
  sprint_goal : str;
  duration_days : Z;
  epics : list Epic;
  alignment : Alignment;
  tasks : list SprintTask
}.

(** Generate a sprint plan based on vision and backlog *)
Definition generate_sprint_plan (fs : MasterAgent.files) (repo_root : str)
    (sprint_duration_days : Z) : Py.result SprintPlan :=
  Py.bind (parse_vision fs repo_root) (fun vision =>
  Py.bind (parse_backlog fs repo_root) (fun backlog =>
    (* Focus on critical priority epics aligned with short-term goals *)
    let critical_epics :=
      filter (fun epic => str_eqb (lower (epic_priority epic)) (u "critical")) backlog in
    Py.Ok {| sprint_goal := _determine_sprint_goal critical_epics;
             duration_days := sprint_duration_days;
             epics := firstn 3 critical_epics;
             alignment :=
               {| vision_goals := firstn 2 (short_term_goals vision);
                  success_criteria := v_success_criteria vision |};
             tasks := _extract_actionable_tasks (firstn 3 critical_epics) |})).

End Backlog.

End VisionTaskExtractor.

(** ** agent-creator.py *)

Module AgentCreator.
Import PyStr.

(** A task of the sprint plan, as loaded from YAML: a key may be absent. *)
Record Task := {
  agent_type : option str;
  description : option str;
  estimated_points : option Z
}.

Record Need := {
  count : nat;
  tasks : list str;
  complexity : list Z
}.

(** [agent_needs], a dictionary in insertion order. *)
Definition Needs := list (str * Need).

(** One more task for [agent_type]: its entry is updated in place, or
    appended when the type is new. *)
Fixpoint record_task (agent_type : str) (descr : str) (points : Z) (needs : Needs) : Needs :=
  match needs with
  | [] => [ (agent_type, {| count := 1; tasks := [descr]; complexity := [points] |}) ]
  | (k, d) :: rest =>
      if str_eqb k agent_type
      then (k, {| count := count d + 1;
                  tasks := tasks d ++ [descr];
                  complexity := complexity d ++ [points] |}) :: rest
      else (k, d) :: record_task agent_type descr points rest
  end.

(** Count tasks by agent type. *)
Fixpoint count_tasks (plan : list Task) (needs : Needs) : Py.result Needs :=
  match plan with
  | [] => Py.Ok needs
  | task :: plan' =>
      let agent_type :=
        match agent_type task with
        | Some t => t
        | None => u "general-agent"
        end in
      match description task with
      | None => Py.Raise (Py.KeyError (u "description"))
      | Some descr =>
          let points :=
            match estimated_points task with
            | Some p => p
            | None => 2%Z
            end in
          count_tasks plan' (record_task agent_type descr points needs)
      end
  end.

Record Suggestion := {
  s_agent_type : str;
  task_count : nat;
  (** [sum(complexity) / len(complexity)], as the pair of the sum and the
      length: the source holds their quotient as a float. *)
  avg_complexity : Z * nat;
  sample_tasks : list str;
  priority : str
}.

(** Identify high-demand specializations.  The average is computed for
    each agent type of at least 3 tasks, in the order of the dictionary:
    the division raises when the average rounds to no float. *)
Fixpoint suggest (needs : Needs) : Py.result (list Suggestion) :=
  match needs with
  | [] => Py.Ok []
  | (agent_type, data) :: rest =>
      if 3 <=? count data
      then
        Py.bind (Py.true_divide (fold_right Z.add 0%Z (complexity data))
                   (List.length (complexity data))) (fun avg =>
        Py.bind (suggest rest) (fun suggestions =>
          Py.Ok ({| s_agent_type := agent_type;
                    task_count := count data;
                    avg_complexity := avg;
                    sample_tasks := firstn 3 (tasks data);
                    priority := if 5 <=? count data then u "high" else u "medium" |}
                 :: suggestions)))
      else suggest rest
  end.

(** [sorted(l, key=task_count, reverse=True)]: a stable sort, largest
    first; equal keys keep their order. *)
Fixpoint insert_desc (x : Suggestion) (l : list Suggestion) : list Suggestion :=
  match l with
  | [] => [x]
  | y :: l' =>
      if task_count x <? task_count y then y :: insert_desc x l' else x :: l
  end.

Definition sorted_desc (l : list Suggestion) : list Suggestion :=
  fold_right insert_desc [] l.

Record Analysis := {
  suggestions : list Suggestion;
  total_tasks : nat;
  unique_agent_types : nat
}.

(** [plan] is the list under the key [tasks] of the sprint plan. *)
Definition analyze_task_patterns (plan : list Task) : Py.result Analysis :=
  Py.bind (count_tasks plan []) (fun agent_needs =>
  Py.bind (suggest agent_needs) (fun found =>
    Py.Ok {| suggestions := sorted_desc found;
             total_tasks := List.length plan;
             unique_agent_types := List.length agent_needs |})).

(** *** Agent specifications from the analysis *)

Record AgentSpec := {
  agent_id : str;
  title : str;
  role : str;
  authority_level : str;
  authority_description : str;
  responsibilities : list str;
  capabilities : list str;
  task_type : str;
  quality_gates : str;
  rationale : str;
  spec_sample_tasks : list str;
  spec_priority : str;
  type : str;
  proposed_by : str
}.

(** An entry of the dictionary [specs], with the keys that
    [_generate_agent_spec] sets on it. *)
Definition spec_entry (agent_id title role authority_level authority_description : str)
    (responsibilities capabilities : list str) (task_type quality_gates : str)
    (agent_type : str) (analysis : Suggestion) : AgentSpec :=
  {| agent_id := agent_id;
     title := title;
     role := role;
     authority_level := authority_level;
     authority_description := authority_description;
     responsibilities := responsibilities;
     capabilities := capabilities;
     task_type := task_type;
     quality_gates := quality_gates;
     rationale :=
       u "High volume of " ++ agent_type ++ u " tasks ("
       ++ str_of_nat (task_count analysis)
       ++ u " tasks) requires dedicated specialization";
     spec_sample_tasks := sample_tasks analysis;
     spec_priority := priority analysis;
     type := u "mutagen";
     proposed_by := u "Agent Coordination System" |}.

(** Generate detailed agent specification from analysis; [None] when the
    agent type is no key of [specs]. *)
Definition _generate_agent_spec (agent_type : str) (analysis : Suggestion)
  : option AgentSpec :=
  if str_eqb agent_type (u "ui-agent") then
    Some (spec_entry (u "ui-development-agent") (u "UI Development Agent")
      (u "Develop user interface components and screens for the mobile app")
      (u "Implement")
      (u "Can implement UI components, make styling decisions, and ensure mobile-first design")
      [ u "Implement mobile UI components"; u "Ensure offline-first UI patterns";
        u "Optimize for low-end devices"; u "Follow mobile design guidelines";
        u "Write UI tests" ]
      [ u "React Native/Flutter development"; u "Mobile UI/UX implementation";
        u "Responsive design"; u "Accessibility compliance";
        u "Performance optimization" ]
      (u "ui-implementation")
      (u "- UI renders correctly on 2GB device" ++ nl ++ u "- Works in airplane mode" ++ nl
       ++ u "- Passes accessibility checks" ++ nl ++ u "- Performance targets met")
      agent_type analysis)
  else if str_eqb agent_type (u "data-agent") then
    Some (spec_entry (u "data-layer-agent") (u "Data Layer Agent")
      (u "Design and implement data storage, models, and offline sync")
      (u "Implement")
      (u "Can design data schemas, implement storage, and create sync logic")
      [ u "Design data models"; u "Implement local storage (SQLite)";
        u "Create sync mechanisms"; u "Handle data migrations";
        u "Ensure data integrity" ]
      [ u "Database design"; u "SQLite/local storage"; u "Sync logic implementation";
        u "Data validation"; u "Migration strategies" ]
      (u "data-implementation")
      (u "- Schema is optimized" ++ nl ++ u "- Data persists correctly" ++ nl
       ++ u "- Sync handles conflicts" ++ nl ++ u "- No data loss scenarios")
      agent_type analysis)
  else if str_eqb agent_type (u "test-agent") then
    Some (spec_entry (u "quality-assurance-agent") (u "Quality Assurance Agent")
      (u "Implement comprehensive testing for features")
      (u "Validate")
      (u "Can create tests, validate quality, and enforce testing standards")
      [ u "Write unit tests"; u "Create integration tests"; u "Test offline scenarios";
        u "Performance testing"; u "Device compatibility testing" ]
      [ u "Test framework expertise"; u "Offline testing"; u "Device simulation";
        u "Performance profiling"; u "Test automation" ]
      (u "testing")
      (u "- 80%+ code coverage" ++ nl ++ u "- All offline scenarios tested" ++ nl
       ++ u "- Device tests passing" ++ nl ++ u "- Performance validated")
      agent_type analysis)
  else if str_eqb agent_type (u "doc-agent") then
    Some (spec_entry (u "documentation-agent") (u "Documentation Agent")
      (u "Create and maintain project documentation")
      (u "Document")
      (u "Can write documentation, maintain guides, and ensure clarity")
      [ u "Write user documentation"; u "Maintain developer guides";
        u "Create API documentation"; u "Update ADRs as needed";
        u "Ensure documentation accuracy" ]
      [ u "Technical writing"; u "Documentation tools"; u "API documentation";
        u "Tutorial creation"; u "Markdown expertise" ]
      (u "documentation")
      (u "- Documentation is clear" ++ nl ++ u "- Examples work" ++ nl
       ++ u "- Links are valid" ++ nl ++ u "- Stays synchronized with code")
      agent_type analysis)
  else if str_eqb agent_type (u "backend-agent") then
    Some (spec_entry (u "backend-development-agent") (u "Backend Development Agent")
      (u "Implement backend services and APIs (optional features)")
      (u "Implement")
      (u "Can implement APIs and services with offline-first principle")
      [ u "Design REST/GraphQL APIs"; u "Implement sync endpoints";
        u "Ensure APIs are optional"; u "Handle authentication";
        u "Optimize for low bandwidth" ]
      [ u "API design"; u "Backend development"; u "Database integration";
        u "Security implementation"; u "Performance optimization" ]
      (u "backend-implementation")
      (u "- API is optional (offline works)" ++ nl ++ u "- Secure authentication" ++ nl
       ++ u "- Handles low bandwidth" ++ nl ++ u "- Proper error handling")
      agent_type analysis)
  else None.

Fixpoint specs_of (l : list Suggestion) : list AgentSpec :=
  match l with
  | [] => []
  | suggestion :: rest =>
      (* Map generic types to specific agent specs *)
      match _generate_agent_spec (s_agent_type suggestion) suggestion with
      | Some agent_specs => agent_specs :: specs_of rest
      | None => specs_of rest
      end
  end.

(** Analyze sprint and suggest agent creations *)
Definition suggest_agents_from_sprint (plan : list Task) : Py.result (list AgentSpec) :=
  Py.bind (analyze_task_patterns plan) (fun analysis =>
    Py.Ok (specs_of (suggestions analysis))).

(** Format a list of items as markdown *)
Definition _format_list (items : list str) : str :=
  match items with
  | [] => u "- (To be defined)"
  | _ :: _ => join nl (map (fun item => u "- " ++ item) items)
  end.

End AgentCreator.

(** ** bootstrap.py *)

Module MaSfBootstrap.
Import PyStr.




(** [open(path, 'w').write(text)] on the files. *)
Definition write_file (fs : MasterAgent.files) (path text : str) : MasterAgent.files :=
  fun p => if str_eqb p path then Some text else fs p.

Definition vision_path (target_repo : str) : str := target_repo ++ u "/docs/product/vision.md".


(** The platform decides whether a directory can be made, beyond what the
    files tell, and what is raised when it cannot: [mkdir_refused d] for a
    directory [d] that cannot be made for a reason of its own (the
    permissions, a regular file above the repository), [mkdir_error d] for
    the error raised. *)
Section Platform.
Variable mkdir_refused : str -> bool.
Variable mkdir_error : str -> Py.exn.



End Platform.


End MaSfBootstrap.

(** ** Notions used to state the properties *)

Module Props.
Import PyStr.

(** [l1] is [l2] with some elements left out, the others in their order. *)
Inductive subseq (A : Type) : list A -> list A -> Prop :=
| subseq_nil : subseq [] []
| subseq_skip : forall x l1 l2, subseq l1 l2 -> subseq l1 (x :: l2)
| subseq_take : forall x l1 l2, subseq l1 l2 -> subseq (x :: l1) (x :: l2).

(** No string occurs twice. *)
Fixpoint distinctb (l : list str) : bool :=
  match l with
  | [] => true
  | x :: l' => (negb (existsb (str_eqb x) l') && distinctb l')%bool
  end.

(** Deduplication by key that keeps the first record of each key; [seen]
    holds the keys already emitted. *)
Fixpoint dedup_from (A : Type) (key : A -> str) (seen : list str) (l : list A) : list A :=
  match l with
  | [] => []
  | x :: l' =>
      if existsb (str_eqb (key x)) seen then dedup_from key seen l'
      else x :: dedup_from key (key x :: seen) l'
  end.

Definition dedup_keep_first (A : Type) (key : A -> str) (l : list A) : list A :=
  dedup_from key [] l.

(** [s] has [sub] as a substring. *)
Definition substring (sub s : str) : Prop :=
  exists pre post, s = pre ++ sub ++ post.

(** A constitution with its time stamp replaced. *)
Definition with_created (t : str) (c : MasterAgent.Constitution) : MasterAgent.Constitution :=
  {| MasterAgent.version := MasterAgent.version c;
     MasterAgent.created := t;
     MasterAgent.source_vision := MasterAgent.source_vision c;
     MasterAgent.core_laws := MasterAgent.core_laws c;
     MasterAgent.working_principles := MasterAgent.working_principles c;
     MasterAgent.decision_framework := MasterAgent.decision_framework c;
     MasterAgent.quality_gates := MasterAgent.quality_gates c;
     MasterAgent.review_criteria := MasterAgent.review_criteria c;
     MasterAgent.enforcement_rules := MasterAgent.enforcement_rules c;
     MasterAgent.escalation := MasterAgent.escalation c |}.

(** The ids of a roster. *)
Definition ids (roster : list MasterAgent.AgentSpec) : list str :=
  map MasterAgent.agent_id roster.

(** The state [st] holding the vision profile [profile]. *)
Definition holding (st : MasterAgent.State) (profile : MasterAgent.VisionData)
  : MasterAgent.State :=
  {| MasterAgent.repo_root := MasterAgent.repo_root st;
     MasterAgent.vision_path := MasterAgent.vision_path st;
     MasterAgent.vision_data := Some profile;
     MasterAgent.constitution := MasterAgent.constitution st;
     MasterAgent.agents := MasterAgent.agents st |}.

End Props.

(** ** Notions for patterns and list items *)

Module ReNotions.
Import PyStr Re.

(** No group numbered [n] occurs in [r]. *)
Fixpoint no_group (n : nat) (r : re) : bool :=
  match r with
  | Group m a => (negb (Nat.eqb m n) && no_group n a)%bool
  | Seq a b => (no_group n a && no_group n b)%bool
  | Alt a b => (no_group n a && no_group n b)%bool
  | Ahead a => no_group n a
  | _ => true
  end.

(** The length of the longest prefix of [s] made of characters in [p]. *)
Fixpoint span (p : char -> bool) (s : str) : nat :=
  match s with
  | c :: s' => if p c then S (span p s') else 0
  | [] => 0
  end.

End ReNotions.

(** ** Notions for list items *)

Module ListItemNotions.
Import PyStr Re ReNotions MasterAgent.








(** What [_extract_list_items] does with one line. *)
Definition line_items (line : str) : list str :=
  let line := strip line in
  if is_list_line line then
    let item := sub_empty fl_none marker_pattern line in
    if (negb (Nat.eqb (List.length item) 0) && (5 <? List.length item))%bool
    then [item] else []
  else [].




End ListItemNotions.

(** ** Notions for the analysis of tasks *)

Module TaskNotions.
Import PyStr AgentCreator.

(** The agent type a task counts for. *)
Definition effective_type (t : Task) : str :=
  match agent_type t with
  | Some ty => ty
  | None => u "general-agent"
  end.

(** The number of tasks of the plan that count for [ty]. *)
Definition occurrences (ty : str) (plan : list Task) : nat :=
  List.length (filter (fun t => str_eqb (effective_type t) ty) plan).

(** The distinct elements of [types] in the order of their first
    occurrence, after those of [seen]. *)
Fixpoint seen_order (seen : list str) (types : list str) : list str :=
  match types with
  | [] => seen
  | ty :: rest =>
      seen_order (if existsb (fun k => str_eqb k ty) seen then seen else seen ++ [ty]) rest
  end.

Definition types_in_order (plan : list Task) : list str :=
  seen_order [] (map effective_type plan).

(** The catalog order of the specification. *)
Definition catalog : list str :=
  [u "ui-agent"; u "data-agent"; u "test-agent"; u "doc-agent"; u "backend-agent"].

Definition task_for (ty : str) : Task :=
  {| agent_type := Some ty; description := Some (u "work item");
     estimated_points := Some 3%Z |}.

(** Three tasks for the data agent, then three for the UI agent. *)
Definition tied_plan : list Task :=
  [ task_for (u "data-agent"); task_for (u "data-agent"); task_for (u "data-agent");
    task_for (u "ui-agent"); task_for (u "ui-agent"); task_for (u "ui-agent") ].

Definition keys (needs : Needs) : list str := map fst needs.

(** The count recorded for [ty], 0 when [ty] has no entry. *)
Definition count_of (ty : str) (needs : Needs) : nat :=
  match find (fun kd => str_eqb (fst kd) ty) needs with
  | Some kd => count (snd kd)
  | None => 0
  end.

(** The points a task counts for. *)
Definition effective_points (t : Task) : Z :=
  match estimated_points t with
  | Some p => p
  | None => 2%Z
  end.

(** The points of the tasks of the plan that count for [ty], in the order
    of the plan. *)
Definition points_of (ty : str) (plan : list Task) : list Z :=
  map effective_points (filter (fun t => str_eqb (effective_type t) ty) plan).

(** The points of a task are below the magnitude that rounds to no
    float. *)
Definition points_fit (t : Task) : Prop :=
  (Z.abs (effective_points t) < Py.float_overflow)%Z.

(** The average of [points] rounds to no float. *)
Definition average_overflows (points : list Z) : bool :=
  (Py.float_overflow * Z.of_nat (List.length points)
   <=? Z.abs (fold_right Z.add 0 points))%Z.

(** The points recorded for [ty], none when [ty] has no entry. *)
Definition complexity_of (ty : str) (needs : Needs) : list Z :=
  match find (fun kd => str_eqb (fst kd) ty) needs with
  | Some kd => complexity (snd kd)
  | None => []
  end.

(** The suggestion made for an entry. *)
Definition suggestion_of (kd : str * Need) : Suggestion :=
  {| s_agent_type := fst kd;
     task_count := count (snd kd);
     avg_complexity :=
       (fold_right Z.add 0%Z (complexity (snd kd)), List.length (complexity (snd kd)));
     sample_tasks := firstn 3 (tasks (snd kd));
     priority := if 5 <=? count (snd kd) then u "high" else u "medium" |}.

End TaskNotions.

(** ** Notions for the vision profile *)

Module VisionNotions.
Import PyStr MasterAgent.

(** The candidate [location] does not exist under [root]. *)
Definition missing (fs : files) (root : str) (location : str) : Prop :=
  exists_ fs (root ++ u "/" ++ location) = false.


(** The keywords of the domain [education]. *)
Definition education_keywords : list str :=
  [u "learn"; u "student"; u "course"; u "teach"; u "education"].

(** What is said of a hint: it is a piece of the document, it is trimmed,
    has none of the characters [.], [!], [?], and one of the keywords
    occurs in it, whatever the case of its letters. *)
Definition hint_ok (content : str) (keywords : list str) (h : str) : Prop :=
  Props.substring h content
  /\ strip h = h
  /\ (forall c, In c h -> ~ In c (u ".!?"))
  /\ exists keyword, In keyword keywords /\ contains (lower h) keyword = true.

End VisionNotions.

(** ** Further notions *)

Module MoreNotions.
Import PyStr.

(** The number read from decimal digits, after [acc]. *)
Definition parse_decimal (acc : nat) (digits : str) : nat :=
  fold_left (fun a d => 10 * a + (N.to_nat d - 48)) digits acc.

(** A task of the sprint plan as [analyze_task_patterns] finds it in the
    plan written by [save_sprint_plan]: the keys [agent_type],
    [description] and [estimated_points] with the values of the task. *)
Definition as_loaded (t : VisionTaskExtractor.SprintTask) : AgentCreator.Task :=
  {| AgentCreator.agent_type := Some (VisionTaskExtractor.task_agent_type t);
     AgentCreator.description := Some (VisionTaskExtractor.task_description t);
     AgentCreator.estimated_points :=
       Some (Z.of_nat (VisionTaskExtractor.task_estimated_points t)) |}.

(** The six agent types of [_suggest_agent_type]. *)
Definition agent_types : list str :=
  [u "ui-agent"; u "data-agent"; u "test-agent"; u "doc-agent"; u "backend-agent";
   u "general-agent"].

(** The number of task descriptions under the epics. *)
Definition total_tasks_in (epics : list VisionTaskExtractor.Epic) : nat :=
  list_sum (map VisionTaskExtractor.tasks_in epics).

(** An entry made from a principle: the key has at most 40 characters,
    each alphanumeric or an underscore, and the description is one of the
    principles [ps]. *)
Definition principle_entry (isalnum : char -> bool) (ps : list str)
    (kv : str * PRConstitutionGenerator.Principle) : Prop :=
  List.length (fst kv) <= 40
  /\ Forall (fun c => isalnum c = true \/ c = 95%N) (fst kv)
  /\ In (PRConstitutionGenerator.p_description (snd kv)) ps
  /\ PRConstitutionGenerator.p_checks (snd kv)
     = PRConstitutionGenerator._generate_principle_checks
         (PRConstitutionGenerator.p_description (snd kv)).

(** An entry made from a value: the key is the value followed by
    [_focused]. *)
Definition value_entry (vs : list str)
    (kv : str * PRConstitutionGenerator.Principle) : Prop :=
  exists v, In v vs /\ fst kv = v ++ u "_focused"
            /\ List.length (PRConstitutionGenerator.p_checks (snd kv)) = 3.

(** The agent types that [_generate_agent_spec] knows, each with the id
    of the agent it specifies. *)
Definition catalog_ids : list (str * str) :=
  [ (u "ui-agent", u "ui-development-agent");
    (u "data-agent", u "data-layer-agent");
    (u "test-agent", u "quality-assurance-agent");
    (u "doc-agent", u "documentation-agent");
    (u "backend-agent", u "backend-development-agent") ].

(** The files with [text] at [path] unless [path] exists. *)
Definition ensure_file (fs : MasterAgent.files) (path text : str) : MasterAgent.files :=
  if MasterAgent.exists_ fs path then fs else MaSfBootstrap.write_file fs path text.

(** What follows the checkbox of a line: the line starts, after white
    space, with [-], and after it and more white space come [[ ]] or [[x]];
    the rest of the line is what follows the closing bracket. *)
Definition checkbox_rest (line : str) : option str :=
  match lstrip line with
  | dash :: after_dash =>
      match lstrip after_dash with
      | open :: mark :: close :: rest =>
          if (char_eqb dash 45%N && char_eqb open 91%N
              && (char_eqb mark 32%N || char_eqb mark 120%N) && char_eqb close 93%N)%bool
          then Some rest else None
      | _ => None
      end
  | [] => None
  end.

(** The checkbox item of a line, if it has one: the trimmed rest, when it
    is not empty. *)
Definition line_checkbox_items (line : str) : list str :=
  match checkbox_rest line with
  | Some rest =>
      match strip rest with
      | [] => []
      | item => [item]
      end
  | None => []
  end.

(** [t] is what is left of [s] after some of its first characters. *)
Definition suffix (t s : str) : Prop := exists pre, s = pre ++ t.

(** Every captured group is a piece of [subject]. *)
Definition caps_in (subject : str) (c : Re.caps) : Prop :=
  Forall (fun capture => Props.substring (snd capture) subject) c.

(** The checkbox items under the epics, in their order. *)
Definition checkbox_items_of (epics : list VisionTaskExtractor.Epic) : list str :=
  flat_map (fun e => flat_map VisionTaskExtractor.story_tasks
                       (VisionTaskExtractor.epic_stories e)) epics.

End MoreNotions.

(** ** Sample inputs *)

Module Samples.
Import PyStr MasterAgent.

(** A vision profile with the given principles and architecture hints and
    nothing else. *)
Definition profile_of (ps hints : list str) : VisionData :=
  {| mission := [];
     principles := ps;
     goals := {| short_term := []; long_term := [] |};
     constraints := [];
     success_criteria := [];
     domain := u "general";
     stakeholders := [];
     values := [];
     architecture_hints := hints |}.

Definition no_files : files := fun _ => None.

(** The principles of the example of the specification. *)
Definition five_principles : list str :=
  [ u "Offline-first: app must work without network";
    u "Simple: ...";
    u "Secure: ...";
    u "Fast: ...";
    u "Accessible: ..." ].

Definition state_of (profile : VisionData) : State :=
  {| repo_root := u "."; vision_path := Some (u "VISION.md");
     vision_data := Some profile; constitution := None; agents := [] |}.

(** A document with a Mission heading and one line of text under it. *)
Definition mission_doc : str := u "# Mission" ++ nl ++ u "Build tools." ++ nl.

End Samples.

(** * Properties *)

(** ** Strings and lists *)

Module StrFacts.
Import PyStr Props.

Lemma char_eqb_eq (a b : char) : char_eqb a b = true <-> a = b.
Proof. apply N.eqb_eq. Qed.

Lemma str_eqb_eq (a b : str) : str_eqb a b = true <-> a = b.
Proof.
  revert b; induction a as [|x a IH]; intros [|y b]; simpl; split; intro H;
    try reflexivity; try discriminate.
  - apply andb_true_iff in H as [Hx Ha].
    apply char_eqb_eq in Hx. apply IH in Ha. now subst.
  - injection H as -> ->. apply andb_true_iff; split.
    + now apply char_eqb_eq.
    + now apply IH.
Qed.

Lemma str_eqb_refl (a : str) : str_eqb a a = true.
Proof. now apply str_eqb_eq. Qed.

Lemma str_eqb_sym (a b : str) : str_eqb a b = str_eqb b a.
Proof.
  destruct (str_eqb a b) eqn:E1, (str_eqb b a) eqn:E2; try reflexivity.
  - apply str_eqb_eq in E1. subst b. now rewrite str_eqb_refl in E2.
  - apply str_eqb_eq in E2. subst b. now rewrite str_eqb_refl in E1.
Qed.

Lemma existsb_str_eqb_In (x : str) (l : list str) :
  existsb (str_eqb x) l = true <-> In x l.
Proof.
  rewrite existsb_exists; split.
  - intros [y [Hy E]]. apply str_eqb_eq in E. now subst.
  - intro H. exists x. split; [assumption | apply str_eqb_refl].
Qed.

Lemma distinctb_NoDup (l : list str) : distinctb l = true -> NoDup l.
Proof.
  induction l as [|x l IH]; simpl; intro H.
  - constructor.
  - apply andb_true_iff in H as [Hx Hl]. constructor.
    + intro Hin. apply existsb_str_eqb_In in Hin. rewrite Hin in Hx. discriminate.
    + now apply IH.
Qed.

Lemma subseq_refl (A : Type) (l : list A) : subseq l l.
Proof. induction l; constructor; assumption. Qed.

Lemma subseq_filter (A : Type) (p : A -> bool) (l : list A) : subseq (filter p l) l.
Proof.
  induction l as [|x l IH]; simpl.
  - constructor.
  - destruct (p x); constructor; assumption.
Qed.

Lemma subseq_nil_l (A : Type) (l : list A) : subseq [] l.
Proof. induction l; constructor; assumption. Qed.

Lemma subseq_firstn (A : Type) (n : nat) (l : list A) : subseq (firstn n l) l.
Proof.
  revert n; induction l as [|x l IH]; intros [|n]; simpl;
    try constructor; try apply subseq_nil_l; apply IH.
Qed.

Lemma subseq_trans (A : Type) (l1 l2 l3 : list A) :
  subseq l1 l2 -> subseq l2 l3 -> subseq l1 l3.
Proof.
  intros H12 H23; revert l1 H12.
  induction H23 as [| x l2 l3 H IH | x l2 l3 H IH]; intros l1 H12.
  - assumption.
  - constructor. now apply IH.
  - inversion H12; subst.
    + apply subseq_skip. now apply IH.
    + apply subseq_take. now apply IH.
Qed.

Lemma subseq_In (A : Type) (l1 l2 : list A) (x : A) :
  subseq l1 l2 -> In x l1 -> In x l2.
Proof.
  induction 1 as [| y l1 l2 H IH | y l1 l2 H IH]; simpl; intuition.
Qed.

Lemma subseq_NoDup (A : Type) (l1 l2 : list A) :
  subseq l1 l2 -> NoDup l2 -> NoDup l1.
Proof.
  induction 1 as [| y l1 l2 H IH | y l1 l2 H IH]; intro Hnd.
  - constructor.
  - inversion Hnd; subst. now apply IH.
  - inversion Hnd; subst. constructor.
    + intro Hin. eapply subseq_In in Hin; eauto.
    + now apply IH.
Qed.

Lemma startswith_app (p s : str) : startswith (p ++ s) p = true.
Proof.
  induction p as [|x p IH]; simpl.
  - reflexivity.
  - unfold char_eqb. now rewrite N.eqb_refl, IH.
Qed.

Lemma startswith_inv (s p : str) :
  startswith s p = true -> exists post, s = p ++ post.
Proof.
  revert s; induction p as [|x p IH]; intros s H; simpl in *.
  - now exists s.
  - destruct s as [|y s]; [discriminate|].
    apply andb_true_iff in H as [Hx Hp].
    apply char_eqb_eq in Hx. subst y.
    destruct (IH _ Hp) as [post ->]. now exists post.
Qed.

Lemma contains_startswith (s sub : str) :
  startswith s sub = true -> contains s sub = true.
Proof. intro H. destruct s; simpl; now rewrite H. Qed.

Lemma contains_substring (s sub : str) :
  contains s sub = true <-> substring sub s.
Proof.
  split.
  - induction s as [|c s IH]; simpl; intro H.
    + rewrite orb_false_r in H. destruct (startswith_inv _ _ H) as [post E].
      exists [], post. exact E.
    + apply orb_true_iff in H as [H|H].
      * destruct (startswith_inv _ _ H) as [post E]. exists [], post. exact E.
      * destruct (IH H) as [pre [post E]]. exists (c :: pre), post.
        simpl. now rewrite E.
  - intros [pre [post ->]]. induction pre as [|c pre IH]; simpl.
    + apply contains_startswith, startswith_app.
    + rewrite IH. apply orb_true_r.
Qed.

Lemma lower_app (a b : str) : lower (a ++ b) = lower a ++ lower b.
Proof. apply map_app. Qed.

End StrFacts.

(** ** The vision analysis *)

Module VisionFacts.
Import PyStr Re Props StrFacts MasterAgent.

(** *** Values *)

Lemma value_keywords_distinct : NoDup value_keywords.
Proof. apply distinctb_NoDup. vm_compute. reflexivity. Qed.

Lemma extract_values_subseq (content : str) :
  subseq (_extract_values content) value_keywords.
Proof.
  unfold _extract_values.
  eapply subseq_trans; [apply subseq_firstn | apply subseq_filter].
Qed.

(** C10. The values of the vision profile are a subsequence of the fixed
    vocabulary, in the order of its declaration whatever the order of the
    words in the document; there are at most 7 of them and none occurs
    twice. *)
Theorem values_from_vocabulary
    (set_order : list str -> list str) (stakeholders_of : str -> list str)
    (content : str) :
  let vs := values (vision_of_content set_order stakeholders_of content) in
  subseq vs value_keywords /\ List.length vs <= 7 /\ NoDup vs.
Proof.
  cbn [vision_of_content values]. repeat split.
  - apply extract_values_subseq.
  - unfold _extract_values. apply firstn_le_length.
  - eapply subseq_NoDup; [apply extract_values_subseq | apply value_keywords_distinct].
Qed.

(** *** Mission *)

Lemma first_match_truncated (patterns : list re) (content r : str) :
  first_match patterns content = Some r ->
  exists body, r = firstn 500 (strip body).
Proof.
  induction patterns as [|p ps IH]; simpl; intro H.
  - discriminate.
  - destruct (search fl_section p content) as [m|].
    + injection H as <-. now exists (group1 m).
    + now apply IH.
Qed.

Lemma split_from_not_nil (sep : str) (s : str) (skip : nat) (cur : str) :
  split_from sep skip cur s <> [].
Proof.
  revert skip cur; induction s as [|c s IH]; intros skip cur; simpl.
  - discriminate.
  - destruct skip; [destruct (startswith (c :: s) sep)|]; try discriminate; apply IH.
Qed.

(** Whichever branch produces the mission, a heading or the first
    paragraph, the text is cut at 500 characters. *)
Lemma extract_mission_truncated (content : str) :
  exists body, _extract_mission content = firstn 500 (strip body).
Proof.
  unfold _extract_mission.
  destruct (first_match _ content) as [r|] eqn:E.
  - eapply first_match_truncated; eassumption.
  - destruct (split content (nl ++ nl)) as [|p ps] eqn:Es.
    + exfalso. eapply split_from_not_nil. exact Es.
    + now exists p.
Qed.

(** C9. The mission of the vision profile has at most 500 characters, also
    when it is read under a Mission, Purpose or Overview heading. *)
Theorem mission_at_most_500
    (set_order : list str -> list str) (stakeholders_of : str -> list str)
    (content : str) :
  List.length (mission (vision_of_content set_order stakeholders_of content)) <= 500
  /\ (forall r,
        first_match [mission_pattern (u "Mission"); mission_pattern (u "Purpose");
                     mission_pattern (u "Overview")] content = Some r ->
        mission (vision_of_content set_order stakeholders_of content) = r
        /\ List.length r <= 500).
Proof.
  cbn [vision_of_content mission]. split.
  - destruct (extract_mission_truncated content) as [body ->].
    apply firstn_le_length.
  - intros r Hr. unfold _extract_mission. rewrite Hr. split; [reflexivity|].
    destruct (first_match_truncated _ _ Hr) as [body ->].
    apply firstn_le_length.
Qed.

(** *** Domain *)

Section MaxBy.
Variable A : Type.
Variable key : A -> nat.

(** The item kept by [max] has the largest key, and every item before it
    has a strictly smaller one. *)
Lemma max_by_from_first (l pre mid : list A) (best : A) :
  Forall (fun x => key x < key best) pre ->
  Forall (fun x => key x <= key best) mid ->
  exists pre' post',
    pre ++ best :: mid ++ l = pre' ++ max_by_from key best l :: post'
    /\ Forall (fun x => key x < key (max_by_from key best l)) pre'
    /\ Forall (fun x => key x <= key (max_by_from key best l)) post'.
Proof.
  revert pre mid best; induction l as [|x l IH]; intros pre mid best Hpre Hmid; simpl.
  - exists pre, mid. rewrite app_nil_r. auto.
  - destruct (key best <? key x) eqn:E.
    + apply Nat.ltb_lt in E.
      destruct (IH (pre ++ best :: mid) [] x) as [pre' [post' [Heq [H1 H2]]]].
      * apply Forall_app; split.
        -- eapply Forall_impl; [|exact Hpre]. simpl; intros; lia.
        -- constructor; [assumption|].
           eapply Forall_impl; [|exact Hmid]. simpl; intros; lia.
      * constructor.
      * exists pre', post'. split; [|auto].
        rewrite <- Heq. rewrite <- app_assoc. simpl. reflexivity.
    + apply Nat.ltb_ge in E.
      destruct (IH pre (mid ++ [x]) best) as [pre' [post' [Heq [H1 H2]]]].
      * assumption.
      * apply Forall_app; split; [assumption|]. constructor; [assumption|constructor].
      * exists pre', post'. split; [|auto].
        rewrite <- Heq. rewrite <- app_assoc. simpl. reflexivity.
Qed.

End MaxBy.

Lemma domain_names_not_general (d : str) :
  In d (map fst domain_keywords) -> d <> u "general".
Proof.
  intros Hin E. subst d. apply existsb_str_eqb_In in Hin.
  vm_compute in Hin. discriminate.
Qed.

(** The decision of [_infer_domain], read on the lexicon: the domain
    returned sits at a position of the table where the score is the
    largest, all earlier scores being strictly smaller. *)
Lemma infer_domain_position (content : str) :
  let sc := score (lower content) in
  exists pre d kws post,
    domain_keywords = pre ++ (d, kws) :: post
    /\ Forall (fun dk => sc (snd dk) < sc kws) pre
    /\ Forall (fun dk => sc (snd dk) <= sc kws) post
    /\ _infer_domain content = if 0 <? sc kws then d else u "general".
Proof.
  intro sc. unfold _infer_domain, domain_scores.
  set (f := fun dk : str * list str => (fst dk, score (lower content) (snd dk))).
  destruct domain_keywords as [|first others] eqn:Etab; [discriminate|].
  cbn [map].
  destruct (@max_by_from_first _ (@snd str nat) (map f others) [] [] (f first))
    as [pre' [post' [Heq [H1 H2]]]]; try constructor.
  cbn [app] in Heq.
  change (f first :: map f others) with (map f (first :: others)) in Heq.
  set (top := max_by_from snd (f first) (map f others)) in *.
  apply map_eq_app in Heq as [pre [rest [Etab' [Epre Erest]]]].
  apply map_eq_cons in Erest as [x [post [Erest [Ex Epost]]]].
  subst rest. destruct x as [d kws].
  exists pre, d, kws, post. rewrite Etab'.
  assert (Etop : snd top = sc kws) by (rewrite <- Ex; reflexivity).
  assert (Edom : fst top = d) by (rewrite <- Ex; reflexivity).
  repeat split.
  - subst pre'. rewrite Forall_map in H1. rewrite Etop in H1. exact H1.
  - subst post'. rewrite Forall_map in H2. rewrite Etop in H2. exact H2.
  - rewrite Etop, Edom. reflexivity.
Qed.

(** C1. The classifier returns general exactly when the score of every
    domain is 0; otherwise it returns a domain whose score is the largest,
    and among the domains with that score the one declared first in the
    lexicon. *)
Theorem infer_domain_stable_argmax (content : str) :
  let sc := score (lower content) in
  (_infer_domain content = u "general"
   <-> Forall (fun dk => sc (snd dk) = 0) domain_keywords)
  /\ exists pre d kws post,
       domain_keywords = pre ++ (d, kws) :: post
       /\ Forall (fun dk => sc (snd dk) < sc kws) pre
       /\ Forall (fun dk => sc (snd dk) <= sc kws) post
       /\ _infer_domain content = (if 0 <? sc kws then d else u "general")
       /\ map fst domain_keywords =
            [u "education"; u "healthcare"; u "finance"; u "ecommerce";
             u "social"; u "iot"; u "enterprise"; u "gaming"; u "media"].
Proof.
  intro sc.
  destruct (infer_domain_position content) as [pre [d [kws [post [Etab [Hpre [Hpost Hres]]]]]]].
  fold sc in Hpre, Hpost, Hres.
  split.
  - split.
    + intro Hgen. rewrite Hres in Hgen.
      destruct (0 <? sc kws) eqn:E.
      * exfalso. apply (@domain_names_not_general d); [|exact Hgen].
        rewrite Etab, map_app. apply in_or_app. right. left. reflexivity.
      * apply Nat.ltb_ge in E. rewrite Etab. apply Forall_app; split.
        -- eapply Forall_impl; [|exact Hpre]. simpl; intros; lia.
        -- constructor; [simpl; lia|].
           eapply Forall_impl; [|exact Hpost]. simpl; intros; lia.
    + intro Hall. rewrite Hres. rewrite Etab in Hall.
      apply Forall_app in Hall as [_ Hall]. inversion Hall as [|? ? Hk _]; subst.
      simpl in Hk. rewrite Hk. reflexivity.
  - exists pre, d, kws, post. repeat split; try assumption.
Qed.

End VisionFacts.

(** ** The agent roster *)

Module RosterFacts.
Import PyStr Props StrFacts MasterAgent.

Lemma dedup_from_distinct (A : Type) (key : A -> str) (l : list A) (seen : list str) :
  NoDup (map key l) ->
  (forall x, In x l -> ~ In (key x) seen) ->
  dedup_from key seen l = l.
Proof.
  revert seen; induction l as [|x l IH]; intros seen Hnd Hseen; simpl.
  - reflexivity.
  - destruct (existsb (str_eqb (key x)) seen) eqn:E.
    + apply existsb_str_eqb_In in E. exfalso. apply (Hseen x); [now left | exact E].
    + f_equal. inversion Hnd as [|? ? Hx Hl]; subst. apply IH; [assumption|].
      intros y Hy [Hk|Hk].
      * apply Hx. rewrite Hk. now apply in_map.
      * apply (Hseen y); [now right | exact Hk].
Qed.

Lemma required_agents_cases (vision_data : VisionData) :
  let base := _core_coordination_agents ++ common_agents in
  let rendered := lower (Py.str_of_list (architecture_hints vision_data)) in
  required_agents vision_data =
    base
    ++ (if contains rendered (u "mobile") then [mobile_agent] else [])
    ++ (if contains rendered (u "api") then [api_agent] else [])
    ++ _enforcement_agents.
Proof.
  unfold required_agents, _domain_specific_agents.
  destruct (contains _ (u "mobile")), (contains _ (u "api")); reflexivity.
Qed.

Lemma required_agents_distinct (vision_data : VisionData) :
  NoDup (ids (required_agents vision_data)).
Proof.
  apply distinctb_NoDup. rewrite required_agents_cases.
  unfold _domain_specific_agents.
  destruct (contains _ (u "mobile")), (contains _ (u "api")); vm_compute; reflexivity.
Qed.

(** C4. The roster produced by [identify_required_agents] holds no two
    agents with the same [agent_id]; deduplicating it by id, keeping the
    first record, leaves it as it is.  From a state that holds a vision
    profile the call returns the roster of that profile. *)
Theorem roster_ids_unique
    (set_order : list str -> list str) (stakeholders_of : str -> list str)
    (fs : files) (st : State) (profile : VisionData) :
  match identify_required_agents set_order stakeholders_of fs st with
  | Py.Ok (roster, st') =>
      NoDup (ids roster)
      /\ dedup_keep_first agent_id roster = roster
      /\ agents st' = roster
  | Py.Raise _ => vision_data st = None
  end
  /\ (let st0 :=
        {| repo_root := repo_root st; vision_path := vision_path st;
           vision_data := Some profile; constitution := constitution st;
           agents := agents st |} in
      exists st',
        identify_required_agents set_order stakeholders_of fs st0
          = Py.Ok (required_agents profile, st')
        /\ agents st' = required_agents profile
        /\ NoDup (ids (required_agents profile))
        /\ dedup_keep_first agent_id (required_agents profile)
             = required_agents profile).
Proof.
  assert (Hdedup : forall data,
             dedup_keep_first agent_id (required_agents data) = required_agents data).
  { intro data. apply dedup_from_distinct.
    - apply required_agents_distinct.
    - intros x _ []. }
  split.
  - unfold identify_required_agents, ensure_vision.
    destruct (vision_data st) as [data|] eqn:Ev; simpl.
    + repeat split; [apply required_agents_distinct | apply Hdedup].
    + destruct (interpret_vision set_order stakeholders_of fs None st)
        as [[data st1]|e]; simpl.
      * repeat split; [apply required_agents_distinct | apply Hdedup].
      * reflexivity.
  - simpl. eexists. split; [reflexivity|]. simpl.
    repeat split; [apply required_agents_distinct | apply Hdedup].
Qed.

Lemma substring_refl (s : str) : substring s s.
Proof. exists [], []. now rewrite app_nil_r. Qed.

Lemma substring_trans (a b c : str) :
  substring a b -> substring b c -> substring a c.
Proof.
  intros [p1 [q1 ->]] [p2 [q2 ->]].
  exists (p2 ++ p1), (q1 ++ q2). now rewrite !app_assoc.
Qed.

Lemma substring_app_l (a s t : str) : substring a s -> substring a (t ++ s).
Proof. intros [p [q ->]]. exists (t ++ p), q. now rewrite app_assoc. Qed.

Lemma substring_app_r (a s t : str) : substring a s -> substring a (s ++ t).
Proof. intros [p [q ->]]. exists p, (q ++ t). now rewrite !app_assoc. Qed.

Lemma substring_join (sep x : str) (l : list str) :
  In x l -> substring x (join sep l).
Proof.
  induction l as [|y l IH]; intro Hin; [contradiction|].
  destruct l as [|z l].
  - destruct Hin as [->|[]]. simpl. apply substring_refl.
  - change (join sep (y :: z :: l)) with (y ++ sep ++ join sep (z :: l)).
    destruct Hin as [->|Hin].
    + apply substring_app_r, substring_refl.
    + apply substring_app_l, substring_app_l. now apply IH.
Qed.

Lemma substring_lower (sub s : str) :
  lower sub = sub -> substring sub s -> substring sub (lower s).
Proof.
  intros Hl [p [q ->]]. exists (lower p), (lower q).
  now rewrite !lower_app, Hl.
Qed.

(** The letters of [mobile] are rendered as they are by [repr]. *)
Lemma repr_keeps_mobile (h : str) :
  substring (u "mobile") h -> substring (u "mobile") (Py.repr h).
Proof.
  intros [p [q ->]]. unfold Py.repr.
  set (quote := if (_ && _)%bool then 34%N else 39%N).
  assert (Hq : quote = 34%N \/ quote = 39%N).
  { unfold quote. destruct (_ && _)%bool; auto. }
  exists (quote :: flat_map (Py.repr_char quote) p),
         (flat_map (Py.repr_char quote) q ++ [quote]).
  rewrite !flat_map_app.
  assert (Hm : flat_map (Py.repr_char quote) (u "mobile") = u "mobile").
  { destruct Hq as [-> | ->]; vm_compute; reflexivity. }
  rewrite Hm. simpl. now rewrite <- !app_assoc.
Qed.

Lemma rendered_has_mobile (hints : list str) (h : str) :
  In h hints -> substring (u "mobile") h ->
  contains (lower (Py.str_of_list hints)) (u "mobile") = true.
Proof.
  intros Hin Hsub. apply contains_substring.
  apply substring_lower; [reflexivity|].
  unfold Py.str_of_list.
  apply substring_app_l, substring_app_r.
  eapply substring_trans; [apply repr_keeps_mobile; exact Hsub|].
  apply substring_join. now apply in_map.
Qed.

(** C2, as amended.  When a hint has the substring [mobile], the roster
    has an agent with id [mobile-agent]; when the lower-cased rendering of
    the list of hints, which is the text the code searches, has neither
    [mobile] nor [api], the roster has exactly 8 agents: 2 for
    coordination, 3 for development, 3 for enforcement. *)
Theorem roster_by_hints (profile : VisionData) :
  let rendered := lower (Py.str_of_list (architecture_hints profile)) in
  ((exists h, In h (architecture_hints profile) /\ substring (u "mobile") h) ->
   In (u "mobile-agent") (ids (required_agents profile)))
  /\ (contains rendered (u "mobile") = false ->
      contains rendered (u "api") = false ->
      List.length (required_agents profile) = 8
      /\ ids (required_agents profile) =
           [u "master-coordinator"; u "task-dispatcher";
            u "implementation-agent"; u "test-agent"; u "documentation-agent";
            u "constitutional-judge"; u "security-enforcer"; u "quality-enforcer"]).
Proof.
  intro rendered. split.
  - intros [h [Hin Hsub]].
    rewrite required_agents_cases. fold rendered.
    unfold rendered. rewrite (rendered_has_mobile _ Hin Hsub).
    unfold ids. rewrite !map_app. apply in_or_app. right.
    apply in_or_app. left. left. reflexivity.
  - intros Hm Ha. rewrite required_agents_cases. fold rendered.
    rewrite Hm, Ha. split; reflexivity.
Qed.

Lemma roster_by_hints_witness :
  In (u "mobile-agent")
     (ids (required_agents (Samples.profile_of [] [u "A mobile app for schools"])))
  /\ List.length (required_agents (Samples.profile_of [] [u "Runs in the cloud"])) = 8.
Proof.
  split.
  - apply (proj1 (roster_by_hints (Samples.profile_of [] [u "A mobile app for schools"]))).
    exists (u "A mobile app for schools"). split.
    + left. reflexivity.
    + exists (u "A "), (u " app for schools"). reflexivity.
  - apply (proj2 (roster_by_hints (Samples.profile_of [] [u "Runs in the cloud"]))).
    + vm_compute. reflexivity.
    + vm_compute. reflexivity.
Defined.

(** C2 as stated fails: with no hints at all the roster has 8 agents, not
    10; and a hint that spells the word with a capital, so that it has
    neither substring, still brings the mobile agent, for 9 agents. *)
Lemma roster_size_counterexample :
  (forall h, In h (architecture_hints (Samples.profile_of [] [])) ->
     ~ substring (u "mobile") h /\ ~ substring (u "api") h)
  /\ List.length (required_agents (Samples.profile_of [] [])) = 8
  /\ List.length (required_agents (Samples.profile_of [] [])) <> 10
  /\ ~ substring (u "mobile") (u "Mobile app")
  /\ ~ substring (u "api") (u "Mobile app")
  /\ List.length (required_agents (Samples.profile_of [] [u "Mobile app"])) = 9.
Proof.
  repeat split.
  - destruct H.
  - destruct H.
  - vm_compute. discriminate.
  - intro H. apply contains_substring in H. vm_compute in H. discriminate.
  - intro H. apply contains_substring in H. vm_compute in H. discriminate.
Qed.

End RosterFacts.

(** ** The constitution *)

Module ConstitutionFacts.
Import PyStr Props StrFacts MasterAgent PRConstitutionGenerator.

Lemma generate_constitution_with_profile
    (set_order : list str -> list str) (stakeholders_of : str -> list str)
    (fs : files) (now : str) (st : State) (profile : VisionData) :
  vision_data st = Some profile ->
  exists c,
    generate_constitution set_order stakeholders_of fs now st
      = Py.Ok (c, {| repo_root := repo_root st; vision_path := vision_path st;
                     vision_data := Some profile; constitution := Some c;
                     agents := agents st |})
    /\ c = {| version := u "1.0";
              created := now;
              source_vision := str_of_path (vision_path st);
              core_laws := _derive_core_laws profile;
              working_principles := _derive_principles;
              decision_framework := _create_decision_framework;
              quality_gates := _define_quality_gates profile;
              review_criteria := _define_review_criteria;
              enforcement_rules := _define_enforcement_rules;
              escalation := _define_escalation_paths |}.
Proof.
  intro Hv. unfold generate_constitution, ensure_vision. rewrite Hv. simpl.
  eexists. split; [|reflexivity]. rewrite Hv. reflexivity.
Qed.

Lemma core_laws_from_ids (i : nat) (ps : list str) :
  map id (core_laws_from i ps)
  = map (fun k => u "LAW-" ++ format_0d 3 (k + 1)) (seq i (List.length ps))
  /\ map principle (core_laws_from i ps) = ps
  /\ Forall (fun l => enforcement l = u "automatic"
                      /\ violation_action l = u "reject") (core_laws_from i ps).
Proof.
  revert i; induction ps as [|p ps IH]; intro i; simpl.
  - repeat split. constructor.
  - destruct (IH (S i)) as [H1 [H2 H3]]. rewrite H1, H2.
    repeat split. constructor; [split; reflexivity | exact H3].
Qed.

Lemma connectivity_checks (p : str) :
  contains (lower p) (u "offline") = true \/ contains (lower p) (u "network") = true ->
  _generate_principle_checks p =
    [ u "Implementation aligns with principle";
      u "Feature works without network connectivity";
      u "Graceful handling of network failures" ].
Proof.
  intro H. unfold _generate_principle_checks.
  assert (E : any_in (lower p) [u "offline"; u "connectivity"; u "network"] = true).
  { unfold any_in. cbn [existsb]. destruct H as [-> | ->].
    - reflexivity.
    - rewrite !orb_true_r. reflexivity. }
  rewrite E. reflexivity.
Qed.

(** C3. For a profile of at least 5 principles whose first principle
    mentions offline or network, the derivation of the constitution turns
    the first 5 principles, in their order, into the core laws LAW-001 to
    LAW-005, each enforced automatically with violation action reject, and
    the checks generated for the first principle include the connectivity
    checks. *)
Theorem core_laws_of_first_five
    (set_order : list str -> list str) (stakeholders_of : str -> list str)
    (fs : files) (now : str) (st : State) (profile : VisionData) :
  5 <= List.length (principles profile) ->
  contains (lower (hd [] (principles profile))) (u "offline") = true
    \/ contains (lower (hd [] (principles profile))) (u "network") = true ->
  exists c st',
    generate_constitution set_order stakeholders_of fs now (holding st profile)
      = Py.Ok (c, st')
    /\ map id (core_laws c) =
         [u "LAW-001"; u "LAW-002"; u "LAW-003"; u "LAW-004"; u "LAW-005"]
    /\ map principle (core_laws c) = firstn 5 (principles profile)
    /\ Forall (fun l => enforcement l = u "automatic"
                        /\ violation_action l = u "reject") (core_laws c)
    /\ In (u "Feature works without network connectivity")
          (_generate_principle_checks (hd [] (principles profile)))
    /\ In (u "Graceful handling of network failures")
          (_generate_principle_checks (hd [] (principles profile))).
Proof.
  intros Hlen Hfirst.
  destruct (@generate_constitution_with_profile set_order stakeholders_of fs now
              (holding st profile) profile eq_refl) as [c [Hrun Hc]].
  exists c. eexists. split; [exact Hrun|].
  assert (Ecl : core_laws c = _derive_core_laws profile) by (rewrite Hc; reflexivity).
  rewrite Ecl. unfold _derive_core_laws.
  destruct (core_laws_from_ids 0 (firstn 5 (principles profile))) as [H1 [H2 H3]].
  rewrite H1, H2. rewrite firstn_length_le by exact Hlen.
  rewrite (connectivity_checks _ Hfirst).
  repeat split; try exact H3; simpl; auto.
Qed.

Lemma core_laws_of_first_five_witness :
  exists c st',
    generate_constitution (fun l => l) (fun _ => []) Samples.no_files (u "2024-01-01T00:00:00")
      (holding (init (u ".")) (Samples.profile_of Samples.five_principles []))
      = Py.Ok (c, st')
    /\ map id (core_laws c) =
         [u "LAW-001"; u "LAW-002"; u "LAW-003"; u "LAW-004"; u "LAW-005"]
    /\ map principle (core_laws c) = Samples.five_principles.
Proof.
  destruct (@core_laws_of_first_five (fun l => l) (fun _ => []) Samples.no_files
              (u "2024-01-01T00:00:00") (init (u "."))
              (Samples.profile_of Samples.five_principles []))
    as [c [st' [Hrun [Hids [Hps _]]]]].
  - simpl. lia.
  - left. vm_compute. reflexivity.
  - exists c, st'. repeat split; assumption.
Defined.

(** C7. Two derivations from the same vision profile, whatever the clock,
    the files and the rest of the state, return constitutions with the
    same core laws and quality gates, and the profile they leave in the
    state gives the same technical requirements; with the same source path
    the constitutions differ in the time stamp only.  A second derivation
    on the state left by the first one returns the same again. *)
Theorem constitution_deterministic
    (set_order set_order' : list str -> list str)
    (stakeholders_of stakeholders_of' : str -> list str)
    (fs fs' : files) (now now' : str) (st st' : State) (profile : VisionData) :
  vision_data st = Some profile ->
  vision_data st' = Some profile ->
  exists c c' s s' c2 s2,
    generate_constitution set_order stakeholders_of fs now st = Py.Ok (c, s)
    /\ generate_constitution set_order' stakeholders_of' fs' now' st' = Py.Ok (c', s')
    /\ generate_constitution set_order' stakeholders_of' fs' now' s = Py.Ok (c2, s2)
    /\ core_laws c = core_laws c' /\ core_laws c = core_laws c2
    /\ quality_gates c = quality_gates c' /\ quality_gates c = quality_gates c2
    /\ option_map _derive_technical_requirements (vision_data s)
       = option_map _derive_technical_requirements (vision_data s')
    /\ option_map _derive_technical_requirements (vision_data s)
       = option_map _derive_technical_requirements (vision_data s2)
    /\ vision_data s = Some profile
    /\ c2 = with_created now' c
    /\ (vision_path st = vision_path st' -> c' = with_created now' c).
Proof.
  intros Hv Hv'.
  destruct (@generate_constitution_with_profile set_order stakeholders_of fs now st profile Hv)
    as [c [Hrun Hc]].
  destruct (@generate_constitution_with_profile set_order' stakeholders_of' fs' now' st' profile Hv')
    as [c' [Hrun' Hc']].
  set (s := {| repo_root := repo_root st; vision_path := vision_path st;
               vision_data := Some profile; constitution := Some c;
               agents := agents st |}) in *.
  destruct (@generate_constitution_with_profile set_order' stakeholders_of' fs' now' s profile eq_refl)
    as [c2 [Hrun2 Hc2]].
  exists c, c'. eexists s, _, c2, _.
  split; [exact Hrun|]. split; [exact Hrun'|]. split; [exact Hrun2|].
  subst c c' c2. simpl. repeat split.
  intro Hp. unfold with_created. simpl. now rewrite Hp.
Qed.

Lemma constitution_deterministic_witness :
  let profile := Samples.profile_of Samples.five_principles [u "A mobile app"] in
  exists c c' s s' c2 s2,
    generate_constitution (fun l => l) (fun _ => []) Samples.no_files
      (u "2024-01-01T00:00:00") (Samples.state_of profile) = Py.Ok (c, s)
    /\ generate_constitution (@rev str) (fun _ => []) Samples.no_files
         (u "2025-06-30T12:00:00") (holding (init (u "/srv")) profile) = Py.Ok (c', s')
    /\ generate_constitution (@rev str) (fun _ => []) Samples.no_files
         (u "2025-06-30T12:00:00") s = Py.Ok (c2, s2)
    /\ core_laws c = core_laws c' /\ core_laws c = core_laws c2
    /\ quality_gates c = quality_gates c' /\ quality_gates c = quality_gates c2
    /\ option_map _derive_technical_requirements (vision_data s)
       = option_map _derive_technical_requirements (vision_data s')
    /\ option_map _derive_technical_requirements (vision_data s)
       = option_map _derive_technical_requirements (vision_data s2)
    /\ vision_data s = Some profile
    /\ c2 = with_created (u "2025-06-30T12:00:00") c
    /\ (vision_path (Samples.state_of profile)
          = vision_path (holding (init (u "/srv")) profile) ->
        c' = with_created (u "2025-06-30T12:00:00") c).
Proof.
  intro profile.
  apply (@constitution_deterministic (fun l => l) (@rev str) (fun _ => []) (fun _ => [])
           Samples.no_files Samples.no_files
           (u "2024-01-01T00:00:00") (u "2025-06-30T12:00:00")
           (Samples.state_of profile) (holding (init (u "/srv")) profile) profile).
  - reflexivity.
  - reflexivity.
Defined.

End ConstitutionFacts.

(** ** The analysis of task patterns *)

Module AgentCreatorFacts.
Import PyStr Props StrFacts AgentCreator TaskNotions.

Lemma record_task_keys (ty descr : str) (points : Z) (needs : Needs) :
  keys (record_task ty descr points needs)
  = if existsb (fun k => str_eqb k ty) (keys needs) then keys needs else keys needs ++ [ty].
Proof.
  unfold keys. induction needs as [|[k d] rest IH]; simpl.
  - reflexivity.
  - destruct (str_eqb k ty) eqn:E; simpl.
    + reflexivity.
    + rewrite IH. destruct (existsb _ (map fst rest)); reflexivity.
Qed.

Lemma record_task_count (ty descr : str) (points : Z) (needs : Needs) (ty' : str) :
  count_of ty' (record_task ty descr points needs)
  = count_of ty' needs + (if str_eqb ty ty' then 1 else 0).
Proof.
  unfold count_of. induction needs as [|[k d] rest IH]; simpl.
  - destruct (str_eqb ty ty'); reflexivity.
  - destruct (str_eqb k ty) eqn:E; simpl.
    + apply str_eqb_eq in E. subst k.
      destruct (str_eqb ty ty'); simpl; lia.
    + destruct (str_eqb k ty') eqn:E'; simpl.
      * apply str_eqb_eq in E'. subst k. rewrite str_eqb_sym, E. lia.
      * exact IH.
Qed.

Lemma count_tasks_spec (plan : list Task) (needs : Needs) :
  Forall (fun t => description t <> None) plan ->
  exists needs',
    count_tasks plan needs = Py.Ok needs'
    /\ keys needs' = seen_order (keys needs) (map effective_type plan)
    /\ forall ty, count_of ty needs' = count_of ty needs + occurrences ty plan.
Proof.
  revert needs; induction plan as [|t plan IH]; intros needs Hwf; simpl.
  - exists needs. repeat split. intro ty. unfold occurrences. simpl. lia.
  - inversion Hwf as [|? ? Hd Hrest]; subst.
    destruct (description t) as [descr|] eqn:Ed; [|congruence].
    fold (effective_type t).
    destruct (IH (record_task (effective_type t) descr
                    match estimated_points t with Some p => p | None => 2%Z end needs) Hrest)
      as [needs' [Hrun [Hkeys Hcount]]].
    exists needs'. split; [exact Hrun|]. split.
    + rewrite Hkeys, record_task_keys. reflexivity.
    + intro ty. rewrite Hcount, record_task_count.
      unfold occurrences. simpl.
      destruct (str_eqb (effective_type t) ty); simpl; lia.
Qed.

Lemma seen_order_NoDup (types seen : list str) :
  NoDup seen -> NoDup (seen_order seen types).
Proof.
  revert seen; induction types as [|ty rest IH]; intros seen Hnd; simpl.
  - exact Hnd.
  - apply IH. destruct (existsb _ seen) eqn:E.
    + exact Hnd.
    + apply NoDup_app; [exact Hnd | constructor; [intros [] | constructor] |].
      intros x Hx [Hxt|[]].
      assert (Hex : existsb (fun k => str_eqb k ty) seen = true).
      { apply existsb_exists. exists x. split; [exact Hx|].
        rewrite Hxt. apply str_eqb_refl. }
      rewrite Hex in E. discriminate.
Qed.

(** With distinct keys, the count found for a key is that of its entry. *)
Lemma count_of_entry (needs : Needs) (k : str) (d : Need) :
  NoDup (keys needs) -> In (k, d) needs -> count_of k needs = count d.
Proof.
  unfold count_of. induction needs as [|[k' d'] rest IH]; simpl; intros Hnd Hin.
  - contradiction.
  - inversion Hnd as [|? ? Hk Hrest]; subst.
    destruct Hin as [E|Hin].
    + injection E as -> ->. now rewrite str_eqb_refl.
    + destruct (str_eqb k' k) eqn:E.
      * apply str_eqb_eq in E. subst k'. exfalso. apply Hk.
        change k with (fst (k, d)). now apply in_map.
      * now apply IH.
Qed.

Lemma count_of_positive (needs : Needs) (ty : str) :
  0 < count_of ty needs -> exists d, In (ty, d) needs.
Proof.
  unfold count_of. destruct (find _ needs) as [[k d]|] eqn:E; intro H; [|lia].
  apply find_some in E as [Hin Hk]. simpl in Hk. apply str_eqb_eq in Hk. subst k.
  now exists d.
Qed.

Lemma record_task_complexity (ty descr : str) (points : Z) (needs : Needs) (ty' : str) :
  complexity_of ty' (record_task ty descr points needs)
  = complexity_of ty' needs ++ (if str_eqb ty ty' then [points] else []).
Proof.
  unfold complexity_of. induction needs as [|[k d] rest IH]; simpl.
  - destruct (str_eqb ty ty'); reflexivity.
  - destruct (str_eqb k ty) eqn:E; simpl.
    + apply str_eqb_eq in E. subst k.
      destruct (str_eqb ty ty'); simpl; [reflexivity | now rewrite app_nil_r].
    + destruct (str_eqb k ty') eqn:E'; simpl.
      * apply str_eqb_eq in E'. subst k. rewrite str_eqb_sym, E. now rewrite app_nil_r.
      * exact IH.
Qed.

Lemma count_tasks_points (plan : list Task) (needs needs' : Needs) :
  count_tasks plan needs = Py.Ok needs' ->
  forall ty, complexity_of ty needs' = complexity_of ty needs ++ points_of ty plan.
Proof.
  revert needs; induction plan as [|t plan IH]; intros needs Hrun ty; cbn [count_tasks] in Hrun.
  - injection Hrun as <-. unfold points_of. simpl. now rewrite app_nil_r.
  - destruct (description t) as [descr|]; [|discriminate].
    fold (effective_type t) in Hrun. fold (effective_points t) in Hrun.
    rewrite (IH _ Hrun ty), record_task_complexity, <- app_assoc. f_equal.
    unfold points_of. cbn [filter].
    destruct (str_eqb (effective_type t) ty); reflexivity.
Qed.

(** With distinct keys, the points found for a key are those of its
    entry. *)
Lemma complexity_of_entry (needs : Needs) (k : str) (d : Need) :
  NoDup (keys needs) -> In (k, d) needs -> complexity_of k needs = complexity d.
Proof.
  unfold complexity_of. induction needs as [|[k' d'] rest IH]; simpl; intros Hnd Hin.
  - contradiction.
  - inversion Hnd as [|? ? Hk Hrest]; subst.
    destruct Hin as [E|Hin].
    + injection E as -> ->. now rewrite str_eqb_refl.
    + destruct (str_eqb k' k) eqn:E.
      * apply str_eqb_eq in E. subst k'. exfalso. apply Hk.
        change k with (fst (k, d)). now apply in_map.
      * now apply IH.
Qed.

Lemma points_of_length (ty : str) (plan : list Task) :
  List.length (points_of ty plan) = occurrences ty plan.
Proof. unfold points_of, occurrences. apply length_map. Qed.

(** The suggestions, or the error of the first average that rounds to no
    float. *)
Lemma suggest_outcome (needs : Needs) :
  Forall (fun kd => List.length (complexity (snd kd)) = count (snd kd)) needs ->
  suggest needs
  = if existsb (fun kd => (3 <=? count (snd kd)) && average_overflows (complexity (snd kd)))%bool
         needs
    then Py.Raise (Py.OverflowError (u "integer division result too large for a float"))
    else Py.Ok (map suggestion_of (filter (fun kd => 3 <=? count (snd kd)) needs)).
Proof.
  intro H. induction H as [|[k d] rest Hd Hrest IH]; [reflexivity|].
  cbn [suggest existsb filter snd] in *. rewrite IH.
  destruct (3 <=? count d) eqn:E3; cbn [andb orb]; [|reflexivity].
  apply Nat.leb_le in E3. unfold Py.true_divide.
  destruct (Nat.eqb (List.length (complexity d)) 0) eqn:E0;
    [apply Nat.eqb_eq in E0; lia|].
  fold (average_overflows (complexity d)).
  destruct (average_overflows (complexity d)); cbn [Py.bind orb]; [reflexivity|].
  destruct (existsb _ rest); reflexivity.
Qed.

Lemma sum_below (bound : Z) (points : list Z) :
  Forall (fun x => (Z.abs x < bound)%Z) points -> points <> [] ->
  (Z.abs (fold_right Z.add 0 points) < bound * Z.of_nat (List.length points))%Z.
Proof.
  intro H. induction H as [|x l Hx Hl IH]; intro Hne; [congruence|].
  cbn [fold_right List.length]. rewrite Nat2Z.inj_succ, Z.mul_succ_r.
  destruct l as [|y l].
  - simpl. lia.
  - specialize (IH ltac:(discriminate)). lia.
Qed.

(** Points that fit have an average that fits. *)
Lemma fitting_average (ty : str) (plan : list Task) :
  Forall points_fit plan -> 0 < occurrences ty plan ->
  average_overflows (points_of ty plan) = false.
Proof.
  intros Hfit Hpos. unfold average_overflows. apply Z.leb_gt. apply sum_below.
  - unfold points_of. apply Forall_forall. intros x Hx.
    apply in_map_iff in Hx as [t [<- Ht]]. apply filter_In in Ht as [Ht _].
    rewrite Forall_forall in Hfit. exact (Hfit t Ht).
  - intro E. rewrite <- points_of_length, E in Hpos. simpl in Hpos. lia.
Qed.

(** The dictionary of the counts of a plan whose tasks are described: its
    keys, and the count and the points of each entry. *)
Lemma counted_entries (plan : list Task) :
  Forall (fun t => description t <> None) plan ->
  exists needs,
    count_tasks plan [] = Py.Ok needs
    /\ keys needs = types_in_order plan
    /\ NoDup (keys needs)
    /\ (forall kd, In kd needs ->
          count (snd kd) = occurrences (fst kd) plan
          /\ complexity (snd kd) = points_of (fst kd) plan)
    /\ (forall ty, 0 < occurrences ty plan -> exists d, In (ty, d) needs).
Proof.
  intro Hwf.
  destruct (count_tasks_spec [] Hwf) as [needs [Hrun [Hkeys Hcount]]].
  assert (Hnd : NoDup (keys needs)).
  { rewrite Hkeys. apply seen_order_NoDup. constructor. }
  exists needs. repeat split; try assumption.
  - destruct kd as [k d]. simpl. rewrite <- (@count_of_entry needs k d Hnd H). apply Hcount.
  - destruct kd as [k d]. simpl. rewrite <- (@complexity_of_entry needs k d Hnd H).
    apply (count_tasks_points _ _ Hrun).
  - intros ty Hpos. apply count_of_positive. rewrite Hcount. unfold count_of. simpl. lia.
Qed.

(** The outcome of [suggest] on that dictionary, told from the plan. *)
Lemma suggest_of_plan (plan : list Task) (needs : Needs) :
  (forall kd, In kd needs ->
     count (snd kd) = occurrences (fst kd) plan
     /\ complexity (snd kd) = points_of (fst kd) plan) ->
  suggest needs
  = if existsb (fun kd => (3 <=? occurrences (fst kd) plan)
                          && average_overflows (points_of (fst kd) plan))%bool needs
    then Py.Raise (Py.OverflowError (u "integer division result too large for a float"))
    else Py.Ok (map suggestion_of (filter (fun kd => 3 <=? count (snd kd)) needs)).
Proof.
  intro Hentry. rewrite suggest_outcome.
  - replace (existsb (fun kd => (3 <=? count (snd kd))
                                && average_overflows (complexity (snd kd)))%bool needs)
      with (existsb (fun kd => (3 <=? occurrences (fst kd) plan)
                               && average_overflows (points_of (fst kd) plan))%bool needs);
      [reflexivity|].
    clear - Hentry. induction needs as [|kd needs IH]; [reflexivity|].
    cbn [existsb]. destruct (Hentry kd (or_introl eq_refl)) as [-> ->].
    rewrite IH; [reflexivity|]. intros kd' H. apply Hentry. now right.
  - apply Forall_forall. intros kd Hin. destruct (Hentry kd Hin) as [-> ->].
    apply points_of_length.
Qed.

Lemma suggest_fitting (plan : list Task) (needs : Needs) :
  Forall points_fit plan ->
  (forall kd, In kd needs ->
     count (snd kd) = occurrences (fst kd) plan
     /\ complexity (snd kd) = points_of (fst kd) plan) ->
  suggest needs = Py.Ok (map suggestion_of (filter (fun kd => 3 <=? count (snd kd)) needs)).
Proof.
  intros Hfit Hentry. rewrite (suggest_of_plan plan needs Hentry).
  replace (existsb _ needs) with false; [reflexivity|].
  symmetry. clear Hentry. induction needs as [|kd needs IH]; [reflexivity|].
  cbn [existsb]. rewrite IH, orb_false_r.
  destruct (3 <=? occurrences (fst kd) plan) eqn:E; [|reflexivity].
  apply Nat.leb_le in E. cbn [andb]. apply fitting_average; [exact Hfit | lia].
Qed.

(** *** The stable sort *)

Lemma insert_desc_In (x y : Suggestion) (l : list Suggestion) :
  In y (insert_desc x l) <-> y = x \/ In y l.
Proof.
  induction l as [|z l IH]; simpl.
  - intuition.
  - destruct (task_count x <? task_count z); simpl; rewrite ?IH; intuition.
Qed.

Lemma sorted_desc_In (y : Suggestion) (l : list Suggestion) :
  In y (sorted_desc l) <-> In y l.
Proof.
  induction l as [|x l IH]; simpl.
  - reflexivity.
  - rewrite insert_desc_In, IH. intuition.
Qed.

Lemma insert_desc_sorted (x : Suggestion) (l : list Suggestion) :
  StronglySorted (fun a b => task_count b <= task_count a) l ->
  StronglySorted (fun a b => task_count b <= task_count a) (insert_desc x l).
Proof.
  induction l as [|y l IH]; simpl; intro Hs.
  - repeat constructor.
  - inversion Hs as [|? ? Hl Hy]; subst.
    destruct (task_count x <? task_count y) eqn:E.
    + apply Nat.ltb_lt in E. constructor; [now apply IH|].
      apply Forall_forall. intros z Hz. apply insert_desc_In in Hz as [->|Hz].
      * lia.
      * rewrite Forall_forall in Hy. now apply Hy.
    + apply Nat.ltb_ge in E. constructor; [exact Hs|].
      constructor; [exact E|].
      eapply Forall_impl; [|exact Hy]. simpl. intros; lia.
Qed.

Lemma sorted_desc_sorted (l : list Suggestion) :
  StronglySorted (fun a b => task_count b <= task_count a) (sorted_desc l).
Proof.
  induction l as [|x l IH]; simpl.
  - constructor.
  - now apply insert_desc_sorted.
Qed.

(** Suggestions with the same count keep their order. *)
Lemma insert_desc_stable (n : nat) (x : Suggestion) (l : list Suggestion) :
  filter (fun s => task_count s =? n) (insert_desc x l)
  = filter (fun s => task_count s =? n) (x :: l).
Proof.
  induction l as [|y l IH]; simpl.
  - reflexivity.
  - destruct (task_count x <? task_count y) eqn:E; [|reflexivity].
    apply Nat.ltb_lt in E. simpl. rewrite IH. simpl.
    destruct (task_count x =? n) eqn:Ex, (task_count y =? n) eqn:Ey; try reflexivity.
    apply Nat.eqb_eq in Ex, Ey. lia.
Qed.

Lemma sorted_desc_stable (n : nat) (l : list Suggestion) :
  filter (fun s => task_count s =? n) (sorted_desc l)
  = filter (fun s => task_count s =? n) l.
Proof.
  induction l as [|x l IH]; simpl.
  - reflexivity.
  - rewrite insert_desc_stable. simpl. now rewrite IH.
Qed.

Lemma filter_suggestions (needs : Needs) (n : nat) (f : str -> nat) :
  (forall kd, In kd needs -> count (snd kd) = f (fst kd)) ->
  map s_agent_type
    (filter (fun s => task_count s =? n)
       (map suggestion_of (filter (fun kd => 3 <=? count (snd kd)) needs)))
  = filter (fun ty => (f ty =? n) && (3 <=? n))%bool (keys needs).
Proof.
  unfold keys. induction needs as [|kd rest IH]; intro Hf.
  - reflexivity.
  - assert (IH' := IH (fun kd' H => Hf kd' (or_intror H))).
    assert (Hc := Hf kd (or_introl eq_refl)).
    assert (Hb : ((f (fst kd) =? n) && (3 <=? n))%bool
                 = ((3 <=? count (snd kd)) && (count (snd kd) =? n))%bool).
    { rewrite <- Hc. destruct (count (snd kd) =? n) eqn:En.
      - apply Nat.eqb_eq in En. rewrite En. simpl. now rewrite andb_true_r.
      - now rewrite andb_false_r. }
    cbn [filter map]. rewrite Hb.
    destruct (3 <=? count (snd kd)); cbn [map filter suggestion_of task_count andb];
      [destruct (count (snd kd) =? n); cbn [map s_agent_type]|];
      rewrite IH'; reflexivity.
Qed.

(** C8, as amended.  For a task list in which every task has a
    description and points that fit a float, the analysis proposes an agent
    for exactly the agent types that count at least 3 tasks, with priority
    high from 5 tasks on and medium below, in the order of the task counts,
    largest first; the types with the same count come in the order in which
    they first occur in the task list. *)
Theorem specialization_analysis (plan : list Task) :
  Forall (fun t => description t <> None) plan ->
  Forall points_fit plan ->
  exists a,
    analyze_task_patterns plan = Py.Ok a
    /\ (forall ty, In ty (map s_agent_type (suggestions a)) <-> 3 <= occurrences ty plan)
    /\ Forall (fun s => task_count s = occurrences (s_agent_type s) plan
                        /\ priority s = (if 5 <=? task_count s then u "high" else u "medium"))
              (suggestions a)
    /\ StronglySorted (fun x y => task_count y <= task_count x) (suggestions a)
    /\ (forall n,
          map s_agent_type (filter (fun s => task_count s =? n) (suggestions a))
          = filter (fun ty => (occurrences ty plan =? n) && (3 <=? n))%bool
              (types_in_order plan)).
Proof.
  intros Hwf Hfit.
  destruct (counted_entries Hwf) as [needs [Hrun [Hkeys [Hnd [Hboth Hfound]]]]].
  assert (Hentry : forall kd, In kd needs -> count (snd kd) = occurrences (fst kd) plan).
  { intros kd Hin. now apply Hboth. }
  unfold analyze_task_patterns. rewrite Hrun. cbn [Py.bind].
  rewrite (suggest_fitting needs Hfit Hboth). cbn [Py.bind].
  eexists. split; [reflexivity|]. cbn [suggestions].
  split; [|split; [|split]].
  - intro ty. rewrite in_map_iff. split.
    + intros [s [Hty Hs]]. apply (proj1 (sorted_desc_In _ _)) in Hs.
      apply in_map_iff in Hs as [kd [Hkd Hin]].
      apply filter_In in Hin as [Hin H3]. apply Nat.leb_le in H3.
      subst s. simpl in Hty. subst ty. rewrite <- (Hentry _ Hin). exact H3.
    + intro H3.
      destruct (Hfound ty) as [d Hin]; [lia|].
      exists (suggestion_of (ty, d)). split; [reflexivity|].
      apply (proj2 (sorted_desc_In _ _)). apply in_map.
      apply filter_In. split; [exact Hin|].
      apply Nat.leb_le. rewrite (Hentry _ Hin). exact H3.
  - apply Forall_forall. intros s Hs. apply (proj1 (sorted_desc_In _ _)) in Hs.
    apply in_map_iff in Hs as [kd [Hkd Hin]].
    apply filter_In in Hin as [Hin _].
    subst s. split; [apply (Hentry _ Hin) | reflexivity].
  - apply sorted_desc_sorted.
  - intro n. rewrite sorted_desc_stable.
    rewrite (@filter_suggestions needs n (fun ty => occurrences ty plan) Hentry).
    rewrite Hkeys. reflexivity.
Qed.

Lemma specialization_analysis_witness :
  exists a,
    analyze_task_patterns tied_plan = Py.Ok a
    /\ (forall ty, In ty (map s_agent_type (suggestions a)) <-> 3 <= occurrences ty tied_plan)
    /\ Forall (fun s => task_count s = occurrences (s_agent_type s) tied_plan
                        /\ priority s = (if 5 <=? task_count s then u "high" else u "medium"))
              (suggestions a)
    /\ StronglySorted (fun x y => task_count y <= task_count x) (suggestions a)
    /\ (forall n,
          map s_agent_type (filter (fun s => task_count s =? n) (suggestions a))
          = filter (fun ty => (occurrences ty tied_plan =? n) && (3 <=? n))%bool
              (types_in_order tied_plan)).
Proof.
  apply (@specialization_analysis tied_plan).
  - repeat constructor; discriminate.
  - repeat constructor.
Defined.

(** C8 as stated fails: three tasks for the data agent followed by three
    for the UI agent give two proposals with the same count, the data
    agent first, whereas the catalog has the UI agent before the data
    agent. *)
Lemma tie_order_counterexample :
  exists a,
    analyze_task_patterns tied_plan = Py.Ok a
    /\ map s_agent_type (suggestions a) = [u "data-agent"; u "ui-agent"]
    /\ map task_count (suggestions a) = [3; 3]
    /\ map s_agent_type (suggestions a)
         <> filter (fun ty => existsb (str_eqb ty) [u "data-agent"; u "ui-agent"]) catalog.
Proof.
  eexists. split; [vm_compute; reflexivity|].
  repeat split. vm_compute. discriminate.
Qed.

End AgentCreatorFacts.

(** ** The matcher *)

Module ReFacts.
Import PyStr Re ReNotions Props StrFacts.

Lemma orelse_some (R : Type) (a b : option R) (x : R) :
  orelse a b = Some x -> a = Some x \/ b = Some x.
Proof. destruct a; simpl; auto. Qed.

Lemma orelse_none_r (R : Type) (a : option R) : orelse a None = a.
Proof. destruct a; reflexivity. Qed.

(** What holds of every result of the continuation holds of the result of
    a quantifier followed by it. *)
Lemma rep_match_post (fl : flags) (R : Type) (cs : cset) (greedy : bool)
    (k : nat -> str -> option R) (Q : R -> Prop) :
  (forall p r' x, k p r' = Some x -> Q x) ->
  forall rest lo hi pos x,
    rep_match fl cs greedy lo hi pos rest k = Some x -> Q x.
Proof.
  intro Hk. induction rest as [|c rest IH]; intros lo hi pos x H.
  - simpl in H. destruct lo; [|discriminate].
    destruct greedy; simpl in H; eauto.
    apply orelse_some in H as [H|H]; [eauto | discriminate].
  - cbn [rep_match] in H.
    destruct lo.
    + destruct greedy; apply orelse_some in H as [H|H]; eauto;
        destruct (hi_open hi && cset_mem fl cs c)%bool; try discriminate; eauto.
    + destruct (hi_open hi && cset_mem fl cs c)%bool; try discriminate; eauto.
Qed.

(** A pattern without group [n] leaves the capture of group [n] as it
    finds it. *)
Lemma bt_frame (fl : flags) (n : nat) (r : re) :
  no_group n r = true ->
  forall (R : Type) pos rest c (k : nat -> str -> caps -> option R) (Q : R -> Prop),
    (forall p r' c' x, group n c' = group n c -> k p r' c' = Some x -> Q x) ->
    forall x, bt fl r pos rest c k = Some x -> Q x.
Proof.
  induction r as [s | cs | cs lo hi g | a IHa b IHb | a IHa b IHb | m a IHa | a IHa | |];
    intros Hng R pos rest c k Q Hk x H; cbn [bt] in H.
  - destruct (lit_match fl s rest); [|discriminate]. eapply Hk; [reflexivity | exact H].
  - destruct rest as [|y rest]; [discriminate|].
    destruct (cset_mem fl cs y); [|discriminate]. eapply Hk; [reflexivity | exact H].
  - eapply rep_match_post; [|exact H].
    intros p r' x' Hx. eapply Hk; [reflexivity | exact Hx].
  - simpl in Hng. apply andb_true_iff in Hng as [Ha Hb].
    eapply (IHa Ha); [|exact H].
    intros p r' c' x' Hc Hx. eapply (IHb Hb); [|exact Hx].
    intros p2 r2 c2 x2 Hc2 Hx2. eapply Hk; [|exact Hx2]. congruence.
  - simpl in Hng. apply andb_true_iff in Hng as [Ha Hb].
    apply orelse_some in H as [H|H]; [eapply (IHa Ha) | eapply (IHb Hb)]; eauto.
  - simpl in Hng. apply andb_true_iff in Hng as [Hm Ha].
    eapply (IHa Ha); [|exact H].
    intros p r' c' x' Hc Hx. eapply Hk; [|exact Hx].
    simpl. destruct (Nat.eqb m n); [discriminate | exact Hc].
  - simpl in Hng.
    destruct (bt fl a pos rest c (fun _ _ c' => Some c')) as [c'|] eqn:E; [|discriminate].
    eapply Hk; [|exact H].
    eapply (IHa Hng _ pos rest c (fun _ _ c' => Some c') (fun c' => group n c' = group n c));
      [|exact E].
    intros p r' c2 x2 Hc2 Hx2. injection Hx2 as <-. exact Hc2.
  - destruct (Nat.eqb pos 0); [|discriminate]. eapply Hk; [reflexivity | exact H].
  - destruct rest; [|discriminate]. eapply Hk; [reflexivity | exact H].
Qed.

Lemma search_from_match (fl : flags) (r : re) (rest : str) (pos : nat) (m : nat * caps) :
  search_from fl r pos rest = Some m ->
  exists pos' rest', match_at fl r pos' rest' = Some m.
Proof.
  revert pos; induction rest as [|c rest IH]; intros pos H; simpl in H.
  - apply orelse_some in H as [H|H]; [eauto | discriminate].
  - apply orelse_some in H as [H|H]; [eauto | eapply IH; eauto].
Qed.

(** Without IGNORECASE a literal matches its own text only. *)
Lemma lit_match_exact (fl : flags) (p s : str) :
  ignorecase fl = false -> lit_match fl p s = true -> firstn (List.length p) s = p.
Proof.
  intro Hic. revert s; induction p as [|x p IH]; intros s H; simpl in *.
  - reflexivity.
  - destruct s as [|y s]; [discriminate|].
    apply andb_true_iff in H as [Hx Hp]. unfold chr_match in Hx. rewrite Hic in Hx.
    apply char_eqb_eq in Hx. subst y. now rewrite (IH _ Hp).
Qed.

End ReFacts.

(** ** The extraction of sections *)

Module SectionFacts.
Import PyStr Re ReNotions Props Samples StrFacts ReFacts VisionTaskExtractor.

(** Whenever the pattern of [_extract_section] matches, its group 1 is the
    text [1, 3]. *)
Lemma section_pattern_group1 (heading : str) (pos : nat) (rest : str) (m : nat * caps) :
  match_at fl_dotall (section_pattern heading) pos rest = Some m ->
  group 1 (snd m) = Some (u "1, 3").
Proof.
  unfold match_at.
  remember (seq [ plus CSpace; Lit heading; star_lazy CDot; Lit nl;
                  Group 2 (star_lazy CDot);
                  Ahead (Alt (seq [Lit nl; Lit (u "#"); Group 3 (Lit (u "1, 3")); plus CSpace])
                             EndZ) ]) as tl eqn:Etl.
  assert (Hng : no_group 1 tl = true) by (subst tl; reflexivity).
  change (section_pattern heading)
    with (Seq (Lit (u "#")) (Seq (Group 1 (Lit (u "1, 3"))) (seq [
            plus CSpace; Lit heading; star_lazy CDot; Lit nl;
            Group 2 (star_lazy CDot);
            Ahead (Alt (seq [Lit nl; Lit (u "#"); Group 3 (Lit (u "1, 3")); plus CSpace])
                       EndZ) ]))).
  rewrite <- Etl. clear Etl. cbn [bt]. intro H.
  destruct (lit_match fl_dotall (u "#") rest); [|discriminate].
  destruct (lit_match fl_dotall (u "1, 3") (skipn (List.length (u "#")) rest)) eqn:E;
    [|discriminate].
  apply lit_match_exact in E; [|reflexivity].
  revert H.
  match goal with
  | |- bt _ tl ?p ?rs ?c ?k = Some m -> _ =>
      intro H;
      apply (@bt_frame fl_dotall 1 tl Hng _ p rs c k
               (fun m => group 1 (snd m) = Some (u "1, 3"))) with (x := m);
      [|exact H]
  end.
  intros p r' c' x Hc Hx. cbv beta in Hx. injection Hx as <-. cbn [snd]. rewrite Hc.
  cbn [group Nat.eqb].
  replace (pos + List.length (u "#") + List.length (u "1, 3") - (pos + List.length (u "#")))
    with (List.length (u "1, 3")) by lia.
  now rewrite E.
Qed.

(** [_extract_section] returns nothing or the text [1, 3], whatever the
    document and the heading. *)
Lemma extract_section_range (content heading : str) :
  _extract_section content heading = []
  \/ _extract_section content heading = u "1, 3".
Proof.
  unfold _extract_section, search.
  destruct (search_from fl_dotall (section_pattern heading) 0 content) as [m|] eqn:E.
  - right. apply search_from_match in E as [pos [rest E]].
    rewrite (section_pattern_group1 _ _ _ E). vm_compute. reflexivity.
  - left. reflexivity.
Qed.

(** C5.  On a document made of the heading [# Mission] and one line of
    text, [_extract_section] returns the empty text where the claim has the
    line under the heading: the pattern asks for the text [#1, 3] in front
    of the heading.  The pattern of [_extract_mission], written without
    replacement fields, finds the line. *)
Theorem extract_section_misses_heading :
  _extract_section mission_doc (u "Mission") = []
  /\ MasterAgent._extract_mission mission_doc = u "Build tools."
  /\ _extract_section (u "#1, 3 Mission" ++ nl ++ u "Build tools." ++ nl) (u "Mission")
     = u "1, 3".
Proof. repeat split; vm_compute; reflexivity. Qed.

End SectionFacts.

(** ** The extraction of list items *)

Module ListItemFacts.
Import PyStr Re ReNotions Props StrFacts ReFacts MasterAgent ListItemNotions.

(** *** Greedy quantifiers *)

(** A greedy unbounded quantifier whose continuation accepts at the end of
    the longest run stops there. *)
Lemma rep_greedy_at_max (fl : flags) (R : Type) (cs : cset)
    (k : nat -> str -> option R) (x : R) :
  forall rest lo pos,
    lo <= span (cset_mem fl cs) rest ->
    k (pos + span (cset_mem fl cs) rest) (skipn (span (cset_mem fl cs) rest) rest) = Some x ->
    rep_match fl cs true lo None pos rest k = Some x.
Proof.
  induction rest as [|c rest IH]; intros lo pos Hlo Hk; cbn [rep_match span hi_open hi_pred andb] in *.
  - assert (lo = 0) by lia. subst lo. rewrite Nat.add_0_r in Hk. simpl in Hk. now rewrite Hk.
  - destruct (cset_mem fl cs c) eqn:Ec.
    + assert (Hm : rep_match fl cs true (Nat.pred lo) None (S pos) rest k = Some x).
      { apply IH; [lia|]. rewrite <- Hk. simpl. f_equal. lia. }
      rewrite Hm. destruct lo; reflexivity.
    + assert (lo = 0) by lia. subst lo. rewrite Nat.add_0_r in Hk. simpl in Hk.
      simpl. now rewrite Hk.
Qed.

(** When the continuation refuses every character of the class, a greedy
    unbounded quantifier can stop at the end of the longest run only. *)
Lemma rep_greedy_only_max (fl : flags) (R : Type) (cs : cset)
    (k : nat -> str -> option R) :
  (forall p c r', cset_mem fl cs c = true -> k p (c :: r') = None) ->
  forall rest lo pos,
    rep_match fl cs true lo None pos rest k
    = if lo <=? span (cset_mem fl cs) rest
      then k (pos + span (cset_mem fl cs) rest) (skipn (span (cset_mem fl cs) rest) rest)
      else None.
Proof.
  intro Hk. induction rest as [|c rest IH]; intros lo pos;
    cbn [rep_match span hi_open hi_pred andb].
  - destruct lo; simpl; [now rewrite Nat.add_0_r | reflexivity].
  - destruct (cset_mem fl cs c) eqn:Ec.
    + rewrite IH. cbn [skipn].
      replace (S pos + span (cset_mem fl cs) rest) with (pos + S (span (cset_mem fl cs) rest)) by lia.
      destruct lo as [|lo]; cbn [Nat.pred].
      * rewrite (Hk pos c rest Ec). simpl. apply orelse_none_r.
      * reflexivity.
    + destruct lo; simpl; [now rewrite Nat.add_0_r | reflexivity].
Qed.


Lemma span_le_length (p : char -> bool) (s : str) : span p s <= List.length s.
Proof. induction s as [|c s IH]; simpl; [lia | destruct (p c); simpl; lia]. Qed.

Lemma lstrip_span (s : str) : lstrip s = skipn (span isspace s) s.
Proof. induction s as [|c s IH]; simpl; [reflexivity | destruct (isspace c); auto]. Qed.


(** *** The marker pattern *)









(** *** Removing the markers *)


Lemma sub_from_skip (r : re) (n : nat) (s : str) (pos : nat) :
  n <= List.length s ->
  sub_from fl_none r n pos s = sub_from fl_none r 0 (pos + n) (skipn n s).
Proof.
  revert s pos; induction n as [|n IH]; intros s pos Hn.
  - rewrite Nat.add_0_r. reflexivity.
  - destruct s as [|x s]; [simpl in Hn; lia|].
    cbn [sub_from skipn]. rewrite IH by (simpl in Hn; lia).
    f_equal. lia.
Qed.


(** *** Lines *)






Lemma list_items_of_lines_flat_map (lines : list str) :
  list_items_of_lines lines = flat_map line_items lines.
Proof.
  induction lines as [|line lines IH]; [reflexivity|].
  cbn [list_items_of_lines flat_map]. unfold line_items. rewrite IH.
  destruct (is_list_line (strip line)); [|reflexivity].
  destruct (_ && _)%bool; reflexivity.
Qed.

Lemma line_items_long (line : str) :
  Forall (fun item => 5 < List.length item) (line_items line).
Proof.
  unfold line_items. destruct (is_list_line (strip line)); [|constructor].
  destruct (negb _ && _)%bool eqn:E; [|constructor].
  apply andb_true_iff in E as [_ E]. apply Nat.ltb_lt in E.
  constructor; [exact E | constructor].
Qed.





(** Beyond the marker, [re.sub] also removes the digits followed by a dot
    that it meets further on the line. *)
Example version_number_removed :
  _extract_list_items (u "- Support version 2.0 of API")
  = [u "Support version 0 of API"].
Proof. vm_compute. reflexivity. Qed.

End ListItemFacts.

(** ** Discovery and interpretation of the vision document *)

Module DiscoveryFacts.
Import PyStr Props StrFacts MasterAgent VisionNotions.

Lemma first_existing_spec (fs : files) (root : str) (locations : list str) :
  match first_existing fs root locations with
  | Some p =>
      exists pre location post,
        locations = pre ++ location :: post
        /\ p = root ++ u "/" ++ location
        /\ exists_ fs p = true
        /\ Forall (missing fs root) pre
  | None => Forall (missing fs root) locations
  end.
Proof.
  induction locations as [|l ls IH]; cbn [first_existing].
  - constructor.
  - destruct (exists_ fs (root ++ u "/" ++ l)) eqn:E.
    + exists [], l, ls. repeat split; [exact E | constructor].
    + destruct (first_existing fs root ls) as [p|].
      * destruct IH as [pre [loc [post [Hl [Hp [He Hpre]]]]]].
        exists (l :: pre), loc, post. rewrite Hl. repeat split; try assumption.
        constructor; assumption.
      * constructor; assumption.
Qed.

(** X1. [discover_vision] returns the first of the four candidate
    locations that exists, in the order docs/product/vision.md,
    docs/vision.md, VISION.md, README.md, and stores it as the vision path;
    when none exists it returns nothing and leaves the state, a vision path
    set before included, as it is. *)
Theorem discover_vision_first_candidate (fs : files) (st : State) :
  match discover_vision fs st with
  | (Some p, st') =>
      (exists pre location post,
         possible_locations = pre ++ location :: post
         /\ p = repo_root st ++ u "/" ++ location
         /\ exists_ fs p = true
         /\ Forall (missing fs (repo_root st)) pre)
      /\ vision_path st' = Some p
      /\ repo_root st' = repo_root st /\ vision_data st' = vision_data st
      /\ constitution st' = constitution st /\ agents st' = agents st
  | (None, st') =>
      st' = st /\ Forall (missing fs (repo_root st)) possible_locations
  end.
Proof.
  unfold discover_vision.
  pose proof (first_existing_spec fs (repo_root st) possible_locations) as H.
  destruct (first_existing fs (repo_root st) possible_locations) as [p|].
  - repeat split; assumption.
  - split; [reflexivity | exact H].
Qed.



End DiscoveryFacts.

(** ** Trimming *)

Module StripFacts.
Import PyStr Props StrFacts MoreNotions.

Lemma lstrip_app_nonspace (a b : str) (c : char) :
  isspace c = false -> lstrip (a ++ c :: b) = lstrip a ++ c :: b.
Proof.
  intro Hc. induction a as [|y a IH]; simpl.
  - now rewrite Hc.
  - destruct (isspace y); [exact IH | reflexivity].
Qed.

Lemma rstrip_app_nonspace (a b : str) (c : char) :
  isspace c = false -> rstrip ((a ++ [c]) ++ b) = (a ++ [c]) ++ rstrip b.
Proof.
  intro Hc. unfold rstrip. rewrite !rev_app_distr. simpl.
  rewrite lstrip_app_nonspace by exact Hc.
  rewrite rev_app_distr. simpl. rewrite rev_involutive.
  now rewrite <- app_assoc.
Qed.

(** A text whose first and last characters are no white space stays whole
    inside what is trimmed around it. *)
Lemma strip_middle (a b k : str) (c1 c2 : char) (k1 k2 : str) :
  k = c1 :: k1 -> k = k2 ++ [c2] -> isspace c1 = false -> isspace c2 = false ->
  strip (a ++ k ++ b) = lstrip a ++ k ++ rstrip b.
Proof.
  intros H1 H2 Hc1 Hc2. unfold strip.
  rewrite H1 at 1. cbn [app]. rewrite lstrip_app_nonspace by exact Hc1.
  change (lstrip a ++ c1 :: k1 ++ b) with (lstrip a ++ (c1 :: k1) ++ b).
  rewrite <- H1, H2.
  replace (lstrip a ++ (k2 ++ [c2]) ++ b) with (((lstrip a ++ k2) ++ [c2]) ++ b)
    by now rewrite <- !app_assoc.
  rewrite rstrip_app_nonspace by exact Hc2.
  now rewrite <- !app_assoc.
Qed.

Lemma lstrip_head (s : str) :
  lstrip s = [] \/ exists c t, lstrip s = c :: t /\ isspace c = false.
Proof.
  induction s as [|y s IH]; simpl; [now left|].
  destruct (isspace y) eqn:E; [exact IH|]. right. now exists y, s.
Qed.

Lemma rstrip_last (s : str) :
  rstrip s = [] \/ exists t c, rstrip s = t ++ [c] /\ isspace c = false.
Proof.
  unfold rstrip. destruct (lstrip_head (rev s)) as [->|[c [t [-> Hc]]]].
  - now left.
  - right. exists (rev t), c. split; [reflexivity | exact Hc].
Qed.

Lemma rstrip_cons_nonspace (c : char) (t : str) :
  isspace c = false -> rstrip (c :: t) = c :: rstrip t.
Proof.
  intro Hc. change (c :: t) with (([] ++ [c]) ++ t).
  now rewrite rstrip_app_nonspace.
Qed.

(** What [strip] returns is empty, or starts and ends with a character that
    is no white space. *)
Lemma strip_ends (s : str) :
  strip s = []
  \/ exists c1 k1 k2 c2,
       strip s = c1 :: k1 /\ strip s = k2 ++ [c2]
       /\ isspace c1 = false /\ isspace c2 = false.
Proof.
  unfold strip. destruct (lstrip_head s) as [->|[c [t [-> Hc]]]].
  - now left.
  - right. rewrite rstrip_cons_nonspace by exact Hc.
    destruct (rstrip_last (c :: t)) as [E|[t' [c' [E Hc']]]];
      rewrite rstrip_cons_nonspace in E by exact Hc; [discriminate|].
    exists c, (rstrip t), t', c'. repeat split; assumption.
Qed.

(** Trimming what is trimmed changes nothing. *)
Lemma strip_idempotent (s : str) : strip (strip s) = strip s.
Proof.
  destruct (strip_ends s) as [->|[c1 [k1 [k2 [c2 [H1 [H2 [Hc1 Hc2]]]]]]]].
  - reflexivity.
  - pose proof (@strip_middle [] [] (strip s) c1 c2 k1 k2 H1 H2 Hc1 Hc2) as H.
    change (lstrip []) with (@nil char) in H.
    change (rstrip []) with (@nil char) in H.
    cbn [app] in H. rewrite !app_nil_r in H. exact H.
Qed.

Lemma lstrip_incl (s : str) (c : char) : In c (lstrip s) -> In c s.
Proof.
  induction s as [|y s IH]; simpl; [auto|].
  destruct (isspace y); [intro H; right; now apply IH | auto].
Qed.

Lemma strip_incl (s : str) (c : char) : In c (strip s) -> In c s.
Proof.
  unfold strip, rstrip. intro H. rewrite <- in_rev in H. apply lstrip_incl in H.
  rewrite <- in_rev in H. now apply lstrip_incl.
Qed.

Lemma isspace_lower (c : char) : isspace (lower_char c) = isspace c.
Proof.
  unfold lower_char.
  destruct (in_range 65 90 c || in_range 192 222 c && negb (N.eqb c 215))%bool eqn:E;
    [|reflexivity].
  assert (Hr : (65 <= c <= 90 \/ 192 <= c <= 222)%N).
  { unfold in_range in E. apply orb_true_iff in E as [E|E].
    - apply andb_true_iff in E as [E1 E2]. apply N.leb_le in E1, E2. lia.
    - apply andb_true_iff in E as [E _].
      apply andb_true_iff in E as [E1 E2]. apply N.leb_le in E1, E2. lia. }
  unfold isspace, in_range.
  repeat match goal with
         | |- context [N.leb ?a ?b] =>
             destruct (N.leb_spec a b); try lia
         | |- context [N.eqb ?a ?b] =>
             destruct (N.eqb_spec a b); try lia
         end; reflexivity.
Qed.

(** A word without white space that occurs in a text, whatever the case of
    the text, still occurs in the trimmed text. *)
Lemma contains_lower_strip (s kw : str) :
  kw <> [] -> Forall (fun c => isspace c = false) kw ->
  contains (lower s) kw = true -> contains (lower (strip s)) kw = true.
Proof.
  intros Hne Hns H. apply contains_substring in H as [pre [post H]].
  unfold lower in H. apply map_eq_app in H as [a [rest [Hs [Ha Hrest]]]].
  apply map_eq_app in Hrest as [k [b [Hr [Hk Hb]]]]. subst s rest.
  assert (Hk' : Forall (fun c => isspace c = false) k).
  { rewrite <- Hk in Hns. rewrite Forall_map in Hns.
    eapply Forall_impl; [|exact Hns]. intros c Hc. simpl in Hc.
    now rewrite isspace_lower in Hc. }
  assert (Hkne : k <> []) by (intro E; subst k; simpl in Hk; congruence).
  destruct k as [|c1 k1] eqn:Ek; [congruence|].
  destruct (@exists_last _ (c1 :: k1)) as [k2 [c2 Hlast]]; [discriminate|].
  assert (Hc1 : isspace c1 = false) by (inversion Hk'; assumption).
  assert (Hc2 : isspace c2 = false).
  { rewrite Hlast in Hk'. apply Forall_app in Hk' as [_ Hk']. now inversion Hk'. }
  rewrite (@strip_middle a b (c1 :: k1) c1 c2 k1 k2 eq_refl Hlast Hc1 Hc2).
  apply contains_substring. exists (lower (lstrip a)), (lower (rstrip b)).
  rewrite !lower_app. unfold lower at 2. rewrite Hk. reflexivity.
Qed.

(** Trimming gives a piece of the text. *)
Lemma lstrip_suffix (s : str) : suffix (lstrip s) s.
Proof.
  induction s as [|c s IH]; cbn [lstrip]; [now exists []|].
  destruct (isspace c); [|now exists []].
  destruct IH as [pre E]. exists (c :: pre). simpl. now rewrite <- E.
Qed.

Lemma strip_substring (s : str) : substring (strip s) s.
Proof.
  unfold strip, rstrip.
  destruct (lstrip_suffix s) as [pre Hpre].
  destruct (lstrip_suffix (rev (lstrip s))) as [post Hpost].
  exists pre, (rev post).
  rewrite <- rev_app_distr, <- Hpost, rev_involutive. exact Hpre.
Qed.

End StripFacts.

(** ** The vision profile *)

Module ProfileFacts.
Import PyStr Re Props StrFacts StripFacts MasterAgent ListItemNotions VisionNotions.

(** *** Values *)

Lemma firstn_filter_In (A : Type) (p : A -> bool) (n : nat) (pre post : list A) (x : A) :
  List.length pre < n -> p x = true -> In x (firstn n (filter p (pre ++ x :: post))).
Proof.
  intros Hn Hx. rewrite filter_app. cbn [filter]. rewrite Hx.
  assert (Hlen : List.length (filter p pre) < n).
  { pose proof (filter_length_le p pre). lia. }
  rewrite firstn_app. apply in_or_app. right.
  destruct (n - List.length (filter p pre)) eqn:E; [lia|]. now left.
Qed.

Lemma extract_values_sound (content v : str) :
  In v (_extract_values content) -> contains (lower content) v = true.
Proof.
  unfold _extract_values. intro H.
  assert (Hin : In v (filter (fun v => contains (lower content) v) value_keywords)).
  { rewrite <- (firstn_skipn 7). apply in_or_app. now left. }
  now apply filter_In in Hin.
Qed.

Lemma extract_values_first_seven (content v : str) :
  In v (firstn 7 value_keywords) -> contains (lower content) v = true ->
  In v (_extract_values content).
Proof.
  intros Hv Hc. unfold _extract_values.
  cbn [firstn value_keywords] in Hv.
  repeat (destruct Hv as [<-|Hv];
          [ match goal with
            | |- In ?x _ =>
                let rec split_at pre l :=
                  lazymatch l with
                  | x :: ?post =>
                      change value_keywords with (pre ++ x :: post);
                      apply firstn_filter_In; [simpl; lia | exact Hc]
                  | ?y :: ?l' => split_at constr:(pre ++ [y]) l'
                  end in
                let l := eval cbv delta [value_keywords] in value_keywords in
                split_at constr:(@nil str) l
            end
          | ]).
  destruct Hv.
Qed.

(** X4. Each of the first seven words of the vocabulary (simple, secure,
    reliable, fast, accessible, private, open) is among the values exactly
    when it occurs in the document, whatever the case of the letters; a
    value is never reported for a word that does not occur. *)
Theorem values_complete_for_first_seven (content v : str) :
  (In v (firstn 7 value_keywords) ->
   (In v (_extract_values content) <-> contains (lower content) v = true))
  /\ (In v (_extract_values content) ->
      In v value_keywords /\ contains (lower content) v = true).
Proof.
  split.
  - intro Hv. split; [apply extract_values_sound | now apply extract_values_first_seven].
  - intro H. split; [|now apply extract_values_sound].
    unfold _extract_values in H.
    assert (Hin : In v (filter (fun v => contains (lower content) v) value_keywords)).
    { rewrite <- (firstn_skipn 7). apply in_or_app. now left. }
    now apply filter_In in Hin.
Qed.

Lemma values_complete_for_first_seven_witness :
  In (u "private") (_extract_values (u "A PRIVATE and Fast tool"))
  <-> contains (lower (u "A PRIVATE and Fast tool")) (u "private") = true.
Proof.
  apply (proj1 (values_complete_for_first_seven (u "A PRIVATE and Fast tool") (u "private"))).
  vm_compute. tauto.
Defined.

(** *** Domain and quality gates *)

Lemma infer_domain_education (content : str) :
  let sc := score (lower content) in
  _infer_domain content = u "education"
  <-> 0 < sc education_keywords
      /\ Forall (fun dk => sc (snd dk) <= sc education_keywords) domain_keywords.
Proof.
  intro sc.
  destruct (VisionFacts.infer_domain_position content)
    as [pre [d [kws [post [Etab [Hpre [Hpost Hres]]]]]]].
  fold sc in Hpre, Hpost, Hres.
  assert (Hhd : domain_keywords = (u "education", education_keywords) :: tl domain_keywords)
    by reflexivity.
  assert (Hcases :
            (pre = [] /\ d = u "education" /\ kws = education_keywords
             /\ tl domain_keywords = post)
            \/ (exists pre', pre = (u "education", education_keywords) :: pre'
                            /\ tl domain_keywords = pre' ++ (d, kws) :: post)).
  { destruct pre as [|x pre'].
    - left. cbn [app] in Etab. rewrite Hhd in Etab.
      injection Etab as Ed Ek Et. repeat split; auto.
    - right. exists pre'. cbn [app] in Etab. rewrite Hhd in Etab.
      injection Etab as Ex Et. split; [now rewrite Ex | exact Et]. }
  split.
  - intro Hedu. rewrite Hres in Hedu.
    destruct (0 <? sc kws) eqn:E0; [|vm_compute in Hedu; discriminate].
    apply Nat.ltb_lt in E0.
    destruct Hcases as [[_ [_ [Ek Et]]]|[pre' [_ Et]]].
    + rewrite Ek in *. split; [exact E0|]. rewrite Hhd.
      constructor; [cbn [snd]; lia|]. rewrite Et. exact Hpost.
    + exfalso.
      assert (Hn : ~ In (u "education") (map fst (tl domain_keywords))).
      { intro H. apply existsb_str_eqb_In in H. vm_compute in H. discriminate. }
      apply Hn. rewrite Et, map_app. apply in_or_app. right. left. exact Hedu.
  - intros [H0 Hall]. rewrite Hres.
    destruct Hcases as [[_ [Ed [Ek _]]]|[pre' [Epre Et]]].
    + rewrite Ek, Ed. apply Nat.ltb_lt in H0. now rewrite H0.
    + exfalso. rewrite Epre in Hpre.
      inversion Hpre as [|? ? Hlt _]; subst. cbn [snd] in Hlt.
      assert (Hin : In (d, kws) domain_keywords).
      { rewrite Hhd, Et. right. apply in_or_app. right. now left. }
      rewrite Forall_forall in Hall. specialize (Hall _ Hin). cbn [snd] in Hall. lia.
Qed.

(** X5. The quality gates of a document are Code Quality, Vision Alignment
    and Security, all required, followed by Accessibility exactly when the
    score of the education keywords is positive and no domain scores
    higher. *)
Theorem accessibility_gate_for_education
    (set_order : list str -> list str) (stakeholders_of : str -> list str)
    (content : str) :
  let gates := _define_quality_gates (vision_of_content set_order stakeholders_of content) in
  let sc := score (lower content) in
  let education_first :=
    0 < sc education_keywords
    /\ Forall (fun dk => sc (snd dk) <= sc education_keywords) domain_keywords in
  (education_first ->
   map gate_name gates
   = [u "Code Quality"; u "Vision Alignment"; u "Security"; u "Accessibility"])
  /\ (~ education_first ->
      map gate_name gates = [u "Code Quality"; u "Vision Alignment"; u "Security"])
  /\ Forall (fun g => required g = true) gates.
Proof.
  intros gates sc education_first. unfold gates, _define_quality_gates.
  cbn [vision_of_content domain].
  pose proof (infer_domain_education content) as Hedu. cbv zeta in Hedu.
  destruct (str_eqb (_infer_domain content) (u "education")) eqn:E.
  - apply str_eqb_eq in E. apply Hedu in E.
    repeat split; try reflexivity.
    + intro Hn. contradiction.
    + repeat constructor.
  - repeat split; try reflexivity.
    + intro H. apply Hedu in H. rewrite H in E. vm_compute in E. discriminate.
    + repeat constructor.
Qed.

Lemma accessibility_gate_for_education_witness :
  map gate_name
    (_define_quality_gates
       (vision_of_content (fun l => l) (fun _ => []) (u "Students learn in every course")))
  = [u "Code Quality"; u "Vision Alignment"; u "Security"; u "Accessibility"]
  /\ map gate_name
       (_define_quality_gates
          (vision_of_content (fun l => l) (fun _ => []) (u "A shop with a cart for students")))
     = [u "Code Quality"; u "Vision Alignment"; u "Security"].
Proof.
  split.
  - apply (proj1 (accessibility_gate_for_education (fun l => l) (fun _ => [])
                    (u "Students learn in every course"))).
    split; [vm_compute; lia|].
    apply Forall_forall. intros dk Hin. cbn [domain_keywords In] in Hin.
    repeat (destruct Hin as [<-|Hin]; [vm_compute; lia|]). destruct Hin.
  - apply (proj1 (proj2 (accessibility_gate_for_education (fun l => l) (fun _ => [])
                           (u "A shop with a cart for students")))).
    intros [_ H]. rewrite Forall_forall in H.
    specialize (H (u "ecommerce", [u "shop"; u "product"; u "cart"; u "checkout"; u "order"])).
    vm_compute in H.
    assert (2 <= 1) by (apply H; do 3 right; left; reflexivity). lia.
Defined.

(** *** Architecture hints *)

Lemma split_class_pieces (fl : flags) (cs : cset) (s cur : str) :
  (forall c, In c cur -> cset_mem fl cs c = false) ->
  Forall (fun piece => forall c, In c piece -> cset_mem fl cs c = false)
         (split_class fl cs cur s).
Proof.
  revert cur; induction s as [|x s IH]; intros cur Hcur; cbn [split_class].
  - constructor; [|constructor]. intros c Hc. apply Hcur. now apply in_rev.
  - destruct (cset_mem fl cs x) eqn:E.
    + constructor.
      * intros c Hc. apply Hcur. now apply in_rev.
      * apply IH. intros c [].
    + apply IH. intros c [<-|Hc]; [exact E | now apply Hcur].
Qed.

Lemma terminator_class (c : char) :
  cset_mem fl_none (chr ".!?") c = false -> ~ In c (u ".!?").
Proof.
  intros H Hin. cbn [cset_mem chr] in H.
  assert (Hex : existsb (chr_match fl_none c) (u ".!?") = true).
  { apply existsb_exists. exists c. split; [exact Hin|].
    unfold chr_match. cbn [ignorecase fl_none]. now apply char_eqb_eq. }
  rewrite Hex in H. discriminate.
Qed.

(** The pieces between the characters of a class are pieces of the
    text. *)
Lemma split_class_substrings (fl : flags) (cs : cset) (s cur : str) :
  Forall (fun piece => substring piece (rev cur ++ s)) (split_class fl cs cur s).
Proof.
  revert cur; induction s as [|x s IH]; intro cur; cbn [split_class].
  - constructor; [|constructor]. exists [], []. now rewrite !app_nil_r.
  - destruct (cset_mem fl cs x).
    + constructor; [exists [], (x :: s); reflexivity|].
      eapply Forall_impl; [|exact (IH [])].
      intros piece [a [b E]]. cbn [rev app] in E.
      exists (rev cur ++ x :: a), b. rewrite E, <- app_assoc. reflexivity.
    + eapply Forall_impl; [|exact (IH (x :: cur))].
      intros piece [a [b E]]. exists a, b. rewrite <- E.
      cbn [rev]. now rewrite <- app_assoc.
Qed.

Lemma hints_of_ok (keywords all : list str) (content : str) :
  incl keywords all ->
  Forall (fun kw => kw <> [] /\ Forall (fun c => isspace c = false) kw) keywords ->
  Forall (hint_ok content all) (hints_of keywords content).
Proof.
  induction keywords as [|kw kws IH]; intros Hincl Hkw; cbn [hints_of].
  - constructor.
  - inversion Hkw as [|? ? [Hne Hns] Hrest]; subst.
    assert (IH' : Forall (hint_ok content all) (hints_of kws content)).
    { apply IH; [|exact Hrest]. intros x Hx. apply Hincl. now right. }
    destruct (contains (lower content) kw); [|exact IH'].
    destruct (find _ _) as [sentence|] eqn:Ef; [|exact IH'].
    constructor; [|exact IH'].
    apply find_some in Ef as [Hin Hc].
    split; [|repeat split].
    + eapply RosterFacts.substring_trans; [apply strip_substring|].
      pose proof (@split_class_substrings fl_none (chr ".!?") content []) as Hp.
      rewrite Forall_forall in Hp. exact (Hp sentence Hin).
    + apply strip_idempotent.
    + intros c Hc'. apply strip_incl in Hc'. apply terminator_class.
      pose proof (@split_class_pieces fl_none (chr ".!?") content []) as Hp.
      rewrite Forall_forall in Hp. apply (Hp ltac:(intros ? []) sentence Hin c Hc').
    + exists kw. split; [apply Hincl; now left|].
      now apply contains_lower_strip.
Qed.

Lemma Forall_firstn (A : Type) (P : A -> Prop) (n : nat) (l : list A) :
  Forall P l -> Forall P (firstn n l).
Proof.
  intro H. rewrite <- (firstn_skipn n l) in H. now apply Forall_app in H as [H _].
Qed.

(** X6. There are at most 5 architecture hints; each is a piece of the
    document, trimmed and without [.], [!] or [?], in which one of the
    architecture keywords occurs, whatever the case of its letters. *)
Theorem architecture_hints_mention_keywords (content : str) :
  List.length (_extract_architecture_hints content) <= 5
  /\ Forall (hint_ok content arch_keywords) (_extract_architecture_hints content).
Proof.
  unfold _extract_architecture_hints. split; [apply firstn_le_length|].
  apply Forall_firstn. apply hints_of_ok.
  - intros x Hx. exact Hx.
  - assert (Hb : forallb (fun kw => (negb (Nat.eqb (List.length kw) 0)
                                     && forallb (fun c => negb (isspace c)) kw)%bool)
                   arch_keywords = true) by (vm_compute; reflexivity).
    rewrite forallb_forall in Hb. apply Forall_forall. intros kw Hin.
    specialize (Hb kw Hin). apply andb_true_iff in Hb as [Hne Hns]. split.
    + intros ->. discriminate.
    + apply Forall_forall. intros c Hc. rewrite forallb_forall in Hns.
      specialize (Hns c Hc). now destruct (isspace c).
Qed.

(** *** Items *)

Lemma extract_list_items_long (content : str) :
  Forall (fun item => 5 < List.length item) (_extract_list_items content).
Proof.
  unfold _extract_list_items. rewrite ListItemFacts.list_items_of_lines_flat_map.
  induction (split content nl) as [|line lines IH]; [constructor|].
  cbn [flat_map]. apply Forall_app. split; [apply ListItemFacts.line_items_long | exact IH].
Qed.

Lemma items_under_long (p : re) (content : str) :
  Forall (fun item => 5 < List.length item) (items_under p content).
Proof.
  unfold items_under. destruct (search fl_section p content); [|constructor].
  apply extract_list_items_long.
Qed.

Lemma principles_of_long (keywords : list str) (content : str) :
  Forall (fun item => 5 < List.length item) (principles_of keywords content).
Proof.
  induction keywords as [|kw kws IH]; cbn [principles_of]; [constructor|].
  destruct (search fl_section (principles_pattern kw) content); [|exact IH].
  apply Forall_app. split; [apply extract_list_items_long | exact IH].
Qed.

(** X7. Every goal, constraint and success criterion of a vision profile
    has more than 5 characters; so has every principle, and there are at
    most 10 of them, when the list made from the set of principles holds
    elements of the set only. *)
Theorem profile_items_are_long
    (set_order : list str -> list str) (stakeholders_of : str -> list str)
    (content : str) :
  (forall l, incl (set_order l) l) ->
  let profile := vision_of_content set_order stakeholders_of content in
  let long := fun item : str => 5 < List.length item in
  Forall long (short_term (goals profile))
  /\ Forall long (long_term (goals profile))
  /\ Forall long (constraints profile)
  /\ Forall long (success_criteria profile)
  /\ Forall long (principles profile)
  /\ List.length (principles profile) <= 10.
Proof.
  intros Hset profile long. unfold profile, long.
  cbn [vision_of_content goals short_term long_term constraints success_criteria principles
       _extract_goals].
  repeat split; try apply items_under_long.
  - unfold _extract_principles. apply Forall_firstn.
    apply Forall_forall. intros x Hx. apply Hset in Hx.
    pose proof (principles_of_long
                  [u "principle"; u "value"; u "philosophy"; u "approach"] content) as H.
    rewrite Forall_forall in H. now apply H.
  - unfold _extract_principles. apply firstn_le_length.
Qed.

Lemma profile_items_are_long_witness :
  Forall (fun item : str => 5 < List.length item)
    (principles (vision_of_content (fun l => l) (fun _ => [])
                   (u "## Principles" ++ nl ++ u "- Offline first" ++ nl ++ u "- Fast")))
  /\ principles (vision_of_content (fun l => l) (fun _ => [])
                   (u "## Principles" ++ nl ++ u "- Offline first" ++ nl ++ u "- Fast"))
     = [u "Offline first"].
Proof.
  split.
  - apply (@profile_items_are_long (fun l => l) (fun _ => [])
             (u "## Principles" ++ nl ++ u "- Offline first" ++ nl ++ u "- Fast")).
    intros l x Hx. exact Hx.
  - vm_compute. reflexivity.
Defined.

End ProfileFacts.

(** ** The PR constitution *)

Module PRFacts.
Import PyStr Props StrFacts MasterAgent PRConstitutionGenerator.

(** X8. Every principle gets exactly three checks, the first of which is
    the generic one, and no check twice: the limit of four checks is never
    reached. *)
Theorem principle_checks_are_three (principle : str) :
  List.length (_generate_principle_checks principle) = 3
  /\ hd [] (_generate_principle_checks principle) = u "Implementation aligns with principle"
  /\ NoDup (_generate_principle_checks principle).
Proof.
  unfold _generate_principle_checks.
  repeat match goal with
         | |- context [if any_in ?t ?l then _ else _] => destruct (any_in t l)
         end;
    (split; [reflexivity | split; [reflexivity | apply distinctb_NoDup; vm_compute; reflexivity]]).
Qed.

(** X9. The technical requirements are named device_compatibility,
    performance, resource_constraints, in that order, each at most once and
    each with four checks; a document in which the word fast occurs,
    whatever the case of its letters, always has the performance
    requirement. *)
Theorem technical_requirements_shape
    (set_order : list str -> list str) (stakeholders_of : str -> list str)
    (vision_data : VisionData) (content : str) :
  subseq (map fst (_derive_technical_requirements vision_data))
         [u "device_compatibility"; u "performance"; u "resource_constraints"]
  /\ Forall (fun r => List.length (req_checks (snd r)) = 4)
            (_derive_technical_requirements vision_data)
  /\ (contains (lower content) (u "fast") = true ->
      In (u "performance")
         (map fst (_derive_technical_requirements
                     (vision_of_content set_order stakeholders_of content)))).
Proof.
  split; [|split].
  - unfold _derive_technical_requirements.
    match goal with
    | |- subseq (map fst ((if ?a then _ else _) ++ (if ?b then _ else _) ++ (if ?c then _ else _))) _ =>
        destruct a, b, c
    end; cbn [map fst app]; repeat (first [apply subseq_take | apply subseq_skip | apply subseq_nil]).
  - unfold _derive_technical_requirements.
    match goal with
    | |- Forall _ ((if ?a then _ else _) ++ (if ?b then _ else _) ++ (if ?c then _ else _)) =>
        destruct a, b, c
    end; repeat constructor.
  - intro Hfast. unfold _derive_technical_requirements.
    cbn [vision_of_content values constraints architecture_hints].
    assert (Hv : contains (join (u " ") (_extract_values content)) (u "fast") = true).
    { apply contains_substring. apply RosterFacts.substring_join.
      apply ProfileFacts.extract_values_first_seven; [|exact Hfast].
      cbn. auto 10. }
    rewrite Hv, orb_true_r. rewrite !map_app. apply in_or_app. right.
    apply in_or_app. left. left. reflexivity.
Qed.

Lemma technical_requirements_shape_witness :
  In (u "performance")
     (map fst (_derive_technical_requirements
                 (vision_of_content (fun l => l) (fun _ => []) (u "A FAST and simple tool")))).
Proof.
  apply (proj2 (proj2 (@technical_requirements_shape (fun l => l) (fun _ => [])
                         (Samples.profile_of [] []) (u "A FAST and simple tool")))).
  vm_compute. reflexivity.
Defined.

(** X10. The security requirements of a document are data_protection,
    followed by privacy exactly when the word private occurs in the
    document, whatever the case of its letters. *)
Theorem privacy_requirement_iff_private
    (set_order : list str -> list str) (stakeholders_of : str -> list str)
    (content : str) :
  map fst (_define_security_requirements
             (vision_of_content set_order stakeholders_of content))
  = if contains (lower content) (u "private")
    then [u "data_protection"; u "privacy"]
    else [u "data_protection"].
Proof.
  unfold _define_security_requirements. cbn [vision_of_content values].
  destruct (contains (lower content) (u "private")) eqn:E.
  - assert (Hin : existsb (str_eqb (u "private")) (_extract_values content) = true).
    { apply existsb_str_eqb_In. apply ProfileFacts.extract_values_first_seven; [|exact E].
      cbn. auto 10. }
    rewrite Hin. reflexivity.
  - destruct (existsb (str_eqb (u "private")) (_extract_values content)) eqn:Hin;
      [|reflexivity].
    apply existsb_str_eqb_In in Hin. apply ProfileFacts.extract_values_sound in Hin.
    rewrite Hin in E. discriminate.
Qed.

End PRFacts.

(** ** Core principles of the PR constitution *)

Module CorePrincipleFacts.
Import PyStr Props StrFacts MasterAgent PRConstitutionGenerator MoreNotions.

Lemma dict_set_keys (A : Type) (key : str) (value : A) (d : list (str * A)) :
  map fst (dict_set key value d)
  = if existsb (fun k => str_eqb k key) (map fst d) then map fst d else map fst d ++ [key].
Proof.
  induction d as [|[k v] rest IH]; cbn [dict_set map fst existsb].
  - reflexivity.
  - destruct (str_eqb k key) eqn:E; cbn [map fst orb].
    + reflexivity.
    + rewrite IH. destruct (existsb _ (map fst rest)); reflexivity.
Qed.

Lemma keys_add_NoDup (keys : list str) (key : str) :
  NoDup keys ->
  NoDup (if existsb (fun k => str_eqb k key) keys then keys else keys ++ [key]).
Proof.
  intro Hnd. destruct (existsb _ keys) eqn:E; [exact Hnd|].
  apply NoDup_app; [exact Hnd | constructor; [intros [] | constructor] |].
  intros x Hx [Hk|[]].
  assert (Hex : existsb (fun k => str_eqb k key) keys = true).
  { apply existsb_exists. exists x. split; [exact Hx|]. rewrite Hk. apply str_eqb_refl. }
  rewrite Hex in E. discriminate.
Qed.

Lemma dict_set_Forall (A : Type) (P : str * A -> Prop) (key : str) (value : A)
    (d : list (str * A)) :
  P (key, value) -> Forall P d -> Forall P (dict_set key value d).
Proof.
  intros Hp Hd. induction Hd as [|[k v] rest Hkv Hrest IH]; cbn [dict_set].
  - constructor; [exact Hp | constructor].
  - destruct (str_eqb k key) eqn:E.
    + apply str_eqb_eq in E. subst k. constructor; assumption.
    + constructor; assumption.
Qed.

Lemma dict_set_length (A : Type) (key : str) (value : A) (d : list (str * A)) :
  List.length (dict_set key value d) <= S (List.length d).
Proof.
  induction d as [|[k v] rest IH]; cbn [dict_set].
  - simpl. lia.
  - destruct (str_eqb k key); simpl; lia.
Qed.

Section Entries.
Variable isalnum : char -> bool.
Variable capitalize : str -> str.

Lemma principle_id_ok (principle : str) :
  List.length (principle_id_of isalnum principle) <= 40
  /\ Forall (fun c => isalnum c = true \/ c = 95%N) (principle_id_of isalnum principle).
Proof.
  unfold principle_id_of. split; [apply firstn_le_length|].
  apply ProfileFacts.Forall_firstn. apply Forall_forall. intros c Hc.
  apply filter_In in Hc as [_ Hc]. apply orb_true_iff in Hc as [Hc|Hc]; [now left|].
  right. now apply char_eqb_eq in Hc.
Qed.

Lemma add_principles_spec (all ps : list str) (d : list (str * Principle)) :
  incl ps all ->
  NoDup (map fst d) -> Forall (principle_entry isalnum all) d ->
  NoDup (map fst (add_principles isalnum ps d))
  /\ Forall (principle_entry isalnum all) (add_principles isalnum ps d)
  /\ List.length (add_principles isalnum ps d) <= List.length d + List.length ps.
Proof.
  revert d; induction ps as [|p ps IH]; intros d Hincl Hnd Hd; cbn [add_principles].
  - repeat split; [exact Hnd | exact Hd | simpl; lia].
  - destruct (IH (dict_set (principle_id_of isalnum p)
                    {| p_description := p; p_enforcement := u "mandatory";
                       p_checks := _generate_principle_checks p |} d))
      as [H1 [H2 H3]].
    + intros x Hx. apply Hincl. now right.
    + rewrite dict_set_keys. now apply keys_add_NoDup.
    + apply dict_set_Forall; [|exact Hd].
      destruct (principle_id_ok p) as [Hl Hc].
      repeat split; cbn [fst snd p_description p_checks]; try assumption.
      apply Hincl. now left.
    + repeat split; [exact H1 | exact H2 |].
      pose proof (dict_set_length (principle_id_of isalnum p)
                    {| p_description := p; p_enforcement := u "mandatory";
                       p_checks := _generate_principle_checks p |} d).
      simpl. lia.
Qed.

Lemma add_values_spec (all vs : list str) (ps : list str) (d : list (str * Principle)) :
  incl vs all ->
  NoDup (map fst d) ->
  Forall (fun kv => principle_entry isalnum ps kv \/ value_entry all kv) d ->
  NoDup (map fst (add_values capitalize vs d))
  /\ Forall (fun kv => principle_entry isalnum ps kv \/ value_entry all kv)
            (add_values capitalize vs d)
  /\ List.length (add_values capitalize vs d) <= List.length d + List.length vs.
Proof.
  revert d; induction vs as [|v vs IH]; intros d Hincl Hnd Hd; cbn [add_values].
  - repeat split; [exact Hnd | exact Hd | simpl; lia].
  - assert (Hincl' : incl vs all) by (intros x Hx; apply Hincl; now right).
    destruct (existsb (fun kv => str_eqb (fst kv) (v ++ u "_focused")) d) eqn:E.
    + destruct (IH d Hincl' Hnd Hd) as [H1 [H2 H3]].
      repeat split; [exact H1 | exact H2 | simpl; lia].
    + destruct (IH (d ++ [(v ++ u "_focused",
                          {| p_description := u "Maintain " ++ v ++ u " as a core value";
                             p_enforcement := u "mandatory";
                             p_checks := _generate_value_checks capitalize v |})]))
        as [H1 [H2 H3]]; try exact Hincl'.
      * rewrite map_app. cbn [map fst].
        apply NoDup_app; [exact Hnd | constructor; [intros [] | constructor] |].
        intros x Hx [Hk|[]]. apply in_map_iff in Hx as [kv [Hkv Hin]].
        assert (Hex : existsb (fun kv => str_eqb (fst kv) (v ++ u "_focused")) d = true).
        { apply existsb_exists. exists kv. split; [exact Hin|].
          rewrite Hkv, Hk. apply str_eqb_refl. }
        rewrite Hex in E. discriminate.
      * apply Forall_app. split; [exact Hd|]. constructor; [|constructor].
        right. exists v. repeat split. apply Hincl. now left.
      * repeat split; [exact H1 | exact H2 |].
        rewrite length_app in H3. simpl in *. lia.
Qed.

(** X11. The core principles of the PR constitution form a dictionary of
    at most 7 entries with distinct keys.  An entry made from a principle
    has a key of at most 40 characters, each alphanumeric or an underscore,
    and holds one of the first 7 principles with its checks; the other
    entries come from the first 3 values, under the value followed by
    [_focused], and there are such entries only when the principles gave
    fewer than 3 keys. *)
Theorem core_principles_shape (vision_data : VisionData) :
  let result := _derive_core_principles isalnum capitalize vision_data in
  let from_principles := add_principles isalnum (firstn 7 (principles vision_data)) [] in
  NoDup (map fst result)
  /\ List.length result <= 7
  /\ Forall (fun kv => principle_entry isalnum (firstn 7 (principles vision_data)) kv
                       \/ value_entry (firstn 3 (values vision_data)) kv) result
  /\ Forall (fun kv => p_enforcement (snd kv) = u "mandatory") result
  /\ (3 <= List.length from_principles -> result = from_principles)
  /\ Forall (principle_entry isalnum (firstn 7 (principles vision_data))) from_principles.
Proof.
  intros result from_principles.
  destruct (@add_principles_spec (firstn 7 (principles vision_data))
              (firstn 7 (principles vision_data)) [])
    as [H1 [H2 H3]]; [intros x Hx; exact Hx | constructor | constructor |].
  fold from_principles in H1, H2, H3.
  assert (Hlen7 : List.length from_principles <= 7).
  { pose proof (firstn_le_length 7 (principles vision_data)).
    change (List.length (@nil (str * Principle))) with 0 in H3. lia. }
  assert (Hmand : forall ps d,
             Forall (fun kv : str * Principle => p_enforcement (snd kv) = u "mandatory") d ->
             Forall (fun kv : str * Principle => p_enforcement (snd kv) = u "mandatory")
                    (add_principles isalnum ps d)).
  { induction ps as [|p ps IH]; intros d Hd; cbn [add_principles]; [exact Hd|].
    apply IH. apply dict_set_Forall; [reflexivity | exact Hd]. }
  assert (Hmandv : forall vs d,
             Forall (fun kv : str * Principle => p_enforcement (snd kv) = u "mandatory") d ->
             Forall (fun kv : str * Principle => p_enforcement (snd kv) = u "mandatory")
                    (add_values capitalize vs d)).
  { induction vs as [|v vs IH]; intros d Hd; cbn [add_values]; [exact Hd|].
    apply IH. destruct (existsb _ d); [exact Hd|].
    apply Forall_app. split; [exact Hd | repeat constructor]. }
  unfold result, _derive_core_principles. fold from_principles.
  destruct (List.length from_principles <? 3) eqn:E.
  - apply Nat.ltb_lt in E.
    destruct (@add_values_spec (firstn 3 (values vision_data)) (firstn 3 (values vision_data))
                (firstn 7 (principles vision_data)) from_principles)
      as [V1 [V2 V3]]; [intros x Hx; exact Hx | exact H1 | |].
    { eapply Forall_impl; [|exact H2]. intros kv Hkv. now left. }
    pose proof (firstn_le_length 3 (values vision_data)).
    repeat split; try assumption; try lia.
    apply Hmandv, Hmand. constructor.
  - apply Nat.ltb_ge in E.
    repeat split; try assumption.
    + eapply Forall_impl; [|exact H2]. intros kv Hkv. now left.
    + apply Hmand. constructor.
Qed.

End Entries.

End CorePrincipleFacts.

(** ** Tasks of the sprint plan *)

Module TaskFacts.
Import PyStr Props StrFacts VisionTaskExtractor MoreNotions.

(** *** Decimal numerals *)

Lemma parse_decimal_digits (fuel n : nat) (acc : str) (a : nat) :
  n < fuel ->
  exists k, parse_decimal a (digits_fuel fuel n acc) = parse_decimal (a * 10 ^ k + n) acc.
Proof.
  revert n acc. induction fuel as [|f IH]; intros n acc Hlt; [lia|].
  cbn [digits_fuel].
  assert (Hd : N.to_nat (N.of_nat (48 + n mod 10)) - 48 = n mod 10)
    by (rewrite Nat2N.id; lia).
  pose proof (Nat.div_mod_eq n 10) as Hn.
  destruct (n / 10 =? 0) eqn:E.
  - apply Nat.eqb_eq in E. exists 1. unfold parse_decimal. cbn [fold_left]. rewrite Hd.
    f_equal. change (10 ^ 1) with 10. lia.
  - apply Nat.eqb_neq in E.
    assert (Hpos : 0 < n) by (destruct n as [|n']; [exfalso; apply E; reflexivity | lia]).
    destruct (IH (n / 10) (N.of_nat (48 + n mod 10) :: acc)) as [k Hk].
    + pose proof (Nat.div_lt n 10 Hpos). lia.
    + exists (S k). rewrite Hk. unfold parse_decimal. cbn [fold_left]. rewrite Hd.
      f_equal. rewrite Nat.pow_succ_r'. generalize (10 ^ k). intro p. nia.
Qed.

Lemma parse_str_of_nat (n : nat) : parse_decimal 0 (str_of_nat n) = n.
Proof.
  unfold str_of_nat.
  destruct (@parse_decimal_digits (S n) n [] 0) as [k Hk]; [lia|].
  rewrite Hk. reflexivity.
Qed.

Lemma parse_zeros (m : nat) (ds : str) :
  parse_decimal 0 (repeat 48%N m ++ ds) = parse_decimal 0 ds.
Proof. induction m as [|m IH]; [reflexivity | exact IH]. Qed.

(** The padded numeral determines the number. *)
Lemma format_0d_inj (w a b : nat) : format_0d w a = format_0d w b -> a = b.
Proof.
  intro H. apply (f_equal (parse_decimal 0)) in H. unfold format_0d in H.
  now rewrite !parse_zeros, !parse_str_of_nat in H.
Qed.

Lemma NoDup_map_inj (A B : Type) (f : A -> B) (l : list A) :
  (forall x y, f x = f y -> x = y) -> NoDup l -> NoDup (map f l).
Proof.
  intros Hinj Hnd. induction Hnd as [|x l Hx Hnd IH]; cbn [map]; constructor.
  - intro Hin. apply in_map_iff in Hin as [y [Hy Hin]]. apply Hinj in Hy. now subst y.
  - exact IH.
Qed.

(** *** The three loops of [_extract_actionable_tasks] *)

Lemma estimate_range (task_desc : str) :
  In (_estimate_task_points task_desc) [1; 2; 3; 5].
Proof.
  unfold _estimate_task_points. cbv zeta.
  repeat match goal with |- context [if ?b then _ else _] => destruct b end;
    simpl; tauto.
Qed.

Lemma suggest_range (task_desc : str) :
  In (_suggest_agent_type task_desc) agent_types.
Proof.
  unfold _suggest_agent_type, agent_types. cbv zeta.
  repeat match goal with |- context [if ?b then _ else _] => destruct b end;
    cbn [In]; tauto.
Qed.

Lemma tasks_of_story_ids (epic : Epic) (story : Story) (descs : list str) (n : nat) :
  map task_id (tasks_of_story epic story n descs)
  = map (fun k => u "TASK-" ++ format_0d 3 k) (List.seq n (List.length descs)).
Proof.
  revert n; induction descs as [|d descs IH]; intro n;
    cbn [tasks_of_story map List.length List.seq task_id]; [reflexivity|].
  now rewrite IH.
Qed.

Lemma tasks_of_stories_ids (epic : Epic) (stories : list Story) (n : nat) :
  map task_id (tasks_of_stories epic stories n)
  = map (fun k => u "TASK-" ++ format_0d 3 k)
        (List.seq n (list_sum (map (fun story => List.length (story_tasks story)) stories))).
Proof.
  revert n; induction stories as [|story stories IH]; intro n;
    cbn [tasks_of_stories map list_sum fold_right]; [reflexivity|].
  now rewrite map_app, tasks_of_story_ids, IH, List.seq_app, map_app.
Qed.

Lemma tasks_of_epics_ids (epics : list Epic) (n : nat) :
  map task_id (tasks_of_epics epics n)
  = map (fun k => u "TASK-" ++ format_0d 3 k) (List.seq n (total_tasks_in epics)).
Proof.
  unfold total_tasks_in.
  revert n; induction epics as [|epic epics IH]; intro n;
    cbn [tasks_of_epics map list_sum fold_right]; [reflexivity|].
  rewrite map_app, tasks_of_stories_ids, IH, List.seq_app, map_app. reflexivity.
Qed.

Lemma tasks_of_story_descs (epic : Epic) (story : Story) (descs : list str) (n : nat) :
  map task_description (tasks_of_story epic story n descs) = descs.
Proof.
  revert n; induction descs as [|d descs IH]; intro n;
    cbn [tasks_of_story map task_description]; [reflexivity|].
  now rewrite IH.
Qed.

Lemma tasks_of_stories_descs (epic : Epic) (stories : list Story) (n : nat) :
  map task_description (tasks_of_stories epic stories n) = flat_map story_tasks stories.
Proof.
  revert n; induction stories as [|story stories IH]; intro n;
    cbn [tasks_of_stories map flat_map]; [reflexivity|].
  now rewrite map_app, tasks_of_story_descs, IH.
Qed.

Lemma tasks_of_epics_descs (epics : list Epic) (n : nat) :
  map task_description (tasks_of_epics epics n) = checkbox_items_of epics.
Proof.
  unfold checkbox_items_of.
  revert n; induction epics as [|epic epics IH]; intro n;
    cbn [tasks_of_epics map flat_map]; [reflexivity|].
  now rewrite map_app, tasks_of_stories_descs, IH.
Qed.

Lemma tasks_of_story_meta (epic : Epic) (story : Story) (descs : list str) (n : nat) :
  Forall (fun t => task_status t = u "todo"
                   /\ In (task_estimated_points t) [1; 2; 3; 5]
                   /\ In (task_agent_type t) agent_types
                   /\ task_epic t = epic_title epic
                   /\ task_priority t = epic_priority epic)
         (tasks_of_story epic story n descs).
Proof.
  revert n; induction descs as [|d descs IH]; intro n; cbn [tasks_of_story]; constructor.
  - cbn [task_status task_estimated_points task_agent_type task_epic task_priority].
    repeat split; [apply estimate_range | apply suggest_range].
  - apply IH.
Qed.

Lemma tasks_of_stories_meta (epic : Epic) (stories : list Story) (n : nat) :
  Forall (fun t => task_status t = u "todo"
                   /\ In (task_estimated_points t) [1; 2; 3; 5]
                   /\ In (task_agent_type t) agent_types
                   /\ task_epic t = epic_title epic
                   /\ task_priority t = epic_priority epic)
         (tasks_of_stories epic stories n).
Proof.
  revert n; induction stories as [|story stories IH]; intro n; cbn [tasks_of_stories].
  - constructor.
  - apply Forall_app. split; [apply tasks_of_story_meta | apply IH].
Qed.

Lemma tasks_of_epics_meta (epics : list Epic) (n : nat) :
  Forall (fun t => task_status t = u "todo"
                   /\ In (task_estimated_points t) [1; 2; 3; 5]
                   /\ In (task_agent_type t) agent_types
                   /\ exists epic, In epic epics
                                   /\ task_epic t = epic_title epic
                                   /\ task_priority t = epic_priority epic)
         (tasks_of_epics epics n).
Proof.
  revert n; induction epics as [|epic epics IH]; intro n; cbn [tasks_of_epics].
  - constructor.
  - apply Forall_app. split.
    + eapply Forall_impl; [|apply tasks_of_stories_meta].
      intros t [H1 [H2 [H3 [H4 H5]]]]. repeat split; try assumption.
      exists epic. repeat split; [now left | assumption | assumption].
    + eapply Forall_impl; [|apply IH].
      intros t [H1 [H2 [H3 [e [He H4]]]]]. repeat split; try assumption.
      exists e. split; [now right | exact H4].
Qed.

(** X12. [_extract_actionable_tasks] makes one task for each checkbox item
    under the epics, in their order, and numbers them from 1: the ids are
    [TASK-001], [TASK-002], ... (three digits at least) and no two tasks
    share an id.  Every task has status [todo], 1, 2, 3 or 5 points, one of
    the six agent types, and the title and priority of one of the epics. *)
Theorem actionable_tasks_numbered (epics : list Epic) :
  let tasks := _extract_actionable_tasks epics in
  map task_description tasks = checkbox_items_of epics
  /\ map task_id tasks
     = map (fun k => u "TASK-" ++ format_0d 3 k) (List.seq 1 (total_tasks_in epics))
  /\ NoDup (map task_id tasks)
  /\ Forall (fun t => task_status t = u "todo"
                      /\ In (task_estimated_points t) [1; 2; 3; 5]
                      /\ In (task_agent_type t) agent_types
                      /\ exists epic, In epic epics
                                      /\ task_epic t = epic_title epic
                                      /\ task_priority t = epic_priority epic)
            tasks.
Proof.
  intro tasks. unfold tasks, _extract_actionable_tasks.
  split; [apply tasks_of_epics_descs|].
  split; [apply tasks_of_epics_ids|].
  split; [|apply tasks_of_epics_meta].
  rewrite tasks_of_epics_ids. apply NoDup_map_inj; [|apply List.seq_NoDup].
  intros x y H. apply app_inv_head in H. exact (format_0d_inj _ _ _ H).
Qed.

(** X13. [_suggest_agent_type] looks for its keywords as substrings, the UI
    keywords first: a description with a word that has [ui] inside, such as
    [guide] or [build], gets the UI agent, whatever else it says.  So the
    keyword [guide] of the documentation agent is never what decides. *)
Theorem ui_inside_a_word (task_desc word : str) :
  contains word (u "ui") = true ->
  contains (lower task_desc) word = true ->
  _suggest_agent_type task_desc = u "ui-agent".
Proof.
  intros Hw Hd.
  assert (H : contains (lower task_desc) (u "ui") = true).
  { apply contains_substring.
    eapply RosterFacts.substring_trans; apply contains_substring; eassumption. }
  unfold _suggest_agent_type, any_kw. cbv zeta. cbn [existsb]. rewrite H. reflexivity.
Qed.

Lemma ui_inside_a_word_witness :
  contains (u "guide") (u "ui") = true
  /\ contains (lower (u "Write the API guide")) (u "guide") = true
  /\ _suggest_agent_type (u "Write the API guide") = u "ui-agent".
Proof.
  split; [reflexivity|]. split; [reflexivity|].
  apply (@ui_inside_a_word (u "Write the API guide") (u "guide")); reflexivity.
Defined.

End TaskFacts.

(** ** The sprint plan *)

Module SprintPlanFacts.
Import PyStr Props StrFacts VisionTaskExtractor MoreNotions.

Lemma list_items_of_section (content heading : str) :
  _extract_list_items (_extract_section content heading) = [].
Proof.
  destruct (SectionFacts.extract_section_range content heading) as [-> | ->];
    vm_compute; reflexivity.
Qed.

Lemma stories_of_section (content heading : str) :
  _extract_stories (_extract_section content heading) = [].
Proof.
  destruct (SectionFacts.extract_section_range content heading) as [-> | ->];
    vm_compute; reflexivity.
Qed.

Lemma tasks_without_stories (epics : list Epic) (n : nat) :
  Forall (fun epic => epic_stories epic = []) epics -> tasks_of_epics epics n = [].
Proof.
  intro H. revert n. induction H as [|epic epics He Hrest IH]; intro n; cbn [tasks_of_epics].
  - reflexivity.
  - rewrite He. cbn [tasks_of_stories app]. apply IH.
Qed.

(** X14. [parse_vision] raises [FileNotFoundError] when the repository has
    no docs/product/vision.md.  When the file is there, whatever it holds,
    the goals, the principles and the success criteria come out empty and
    the mission is the empty text or the text [1, 3]. *)
Theorem parse_vision_outcome (fs : MasterAgent.files) (repo_root : str) :
  match fs (vision_file repo_root) with
  | None =>
      parse_vision fs repo_root
      = Py.Raise (Py.FileNotFoundError (u "Vision file not found: " ++ vision_file repo_root))
  | Some content =>
      exists mission,
        parse_vision fs repo_root
        = Py.Ok {| v_mission := mission; short_term_goals := [];
                   guiding_principles := []; v_success_criteria := [] |}
        /\ (mission = [] \/ mission = u "1, 3")
  end.
Proof.
  unfold parse_vision. destruct (fs (vision_file repo_root)) as [content|]; [|reflexivity].
  exists (_extract_section content (u "Mission Statement")).
  rewrite !list_items_of_section. split; [reflexivity|].
  apply SectionFacts.extract_section_range.
Qed.

Section Plan.
Variable word_chars : list char.

Lemma parse_backlog_no_stories (fs : MasterAgent.files) (repo_root : str) (backlog : list Epic) :
  parse_backlog word_chars fs repo_root = Py.Ok backlog ->
  Forall (fun epic => epic_stories epic = []) backlog.
Proof.
  unfold parse_backlog. destruct (fs (backlog_file repo_root)) as [content|]; [|discriminate].
  intro H. injection H as <-. apply Forall_forall. intros epic Hin.
  apply in_map_iff in Hin as [m [<- _]]. cbn [epic_of_match epic_stories].
  apply stories_of_section.
Qed.

(** X15. [generate_sprint_plan] reads the vision first: without the vision
    file it raises the error of the vision, without the backlog file that
    of the backlog.  With both files it returns a plan, whatever the files
    hold, with the duration it was given and at most 3 epics, all of
    priority critical (in any letter case) and all without stories; the
    plan has no task, no vision goal and no success criterion, and its goal
    is [Initialize project foundation] exactly when it has no epic. *)
Theorem sprint_plan_outcome (fs : MasterAgent.files) (repo_root : str)
    (sprint_duration_days : Z) :
  match fs (vision_file repo_root), fs (backlog_file repo_root) with
  | None, _ =>
      generate_sprint_plan word_chars fs repo_root sprint_duration_days
      = Py.Raise (Py.FileNotFoundError (u "Vision file not found: " ++ vision_file repo_root))
  | Some _, None =>
      generate_sprint_plan word_chars fs repo_root sprint_duration_days
      = Py.Raise (Py.FileNotFoundError (u "Backlog file not found: " ++ backlog_file repo_root))
  | Some _, Some _ =>
      exists plan,
        generate_sprint_plan word_chars fs repo_root sprint_duration_days = Py.Ok plan
        /\ duration_days plan = sprint_duration_days
        /\ List.length (epics plan) <= 3
        /\ Forall (fun epic => lower (epic_priority epic) = u "critical"
                               /\ epic_stories epic = []) (epics plan)
        /\ tasks plan = []
        /\ vision_goals (alignment plan) = []
        /\ success_criteria (alignment plan) = []
        /\ (epics plan = [] <-> sprint_goal plan = u "Initialize project foundation")
  end.
Proof.
  pose proof (parse_vision_outcome fs repo_root) as Hv.
  unfold generate_sprint_plan.
  destruct (fs (vision_file repo_root)) as [vision_text|] eqn:Ev.
  - destruct Hv as [mission [Hv _]]. rewrite Hv. cbn [Py.bind].
    destruct (parse_backlog word_chars fs repo_root) as [backlog|e] eqn:Eb.
    + pose proof (parse_backlog_no_stories _ _ Eb) as Hns.
      unfold parse_backlog in Eb.
      destruct (fs (backlog_file repo_root)) as [backlog_text|]; [|discriminate].
      cbn [Py.bind]. eexists. split; [reflexivity|].
      cbn [duration_days epics tasks alignment vision_goals success_criteria sprint_goal
           short_term_goals v_success_criteria].
      set (critical :=
             filter (fun epic => str_eqb (lower (epic_priority epic)) (u "critical")) backlog).
      assert (Hcrit : Forall (fun epic => lower (epic_priority epic) = u "critical"
                                          /\ epic_stories epic = []) critical).
      { apply Forall_forall. intros epic Hin. apply filter_In in Hin as [Hin Hp].
        split; [now apply str_eqb_eq in Hp|].
        rewrite Forall_forall in Hns. now apply Hns. }
      assert (Hfirst : Forall (fun epic => lower (epic_priority epic) = u "critical"
                                           /\ epic_stories epic = []) (firstn 3 critical))
        by (apply ProfileFacts.Forall_firstn; exact Hcrit).
      split; [reflexivity|]. split; [apply firstn_le_length|]. split; [exact Hfirst|].
      split.
      { unfold _extract_actionable_tasks. apply tasks_without_stories.
        eapply Forall_impl; [|exact Hfirst]. now intros epic [_ H]. }
      split; [reflexivity|]. split; [reflexivity|].
      destruct critical as [|epic rest]; [split; reflexivity|].
      split; [discriminate|].
      intro H. exfalso. cbn [_determine_sprint_goal] in H.
      apply (f_equal (hd 0%N)) in H. vm_compute in H. discriminate.
    + unfold parse_backlog in Eb.
      destruct (fs (backlog_file repo_root)) as [backlog_text|]; [discriminate|].
      injection Eb as <-. reflexivity.
  - rewrite Hv. reflexivity.
Qed.

End Plan.

End SprintPlanFacts.

(** ** Agent specifications from a sprint plan *)

Module SpecFacts.
Import PyStr Props StrFacts AgentCreator TaskNotions MoreNotions AgentCreatorFacts.

(** *** The count of the tasks *)

Lemma count_tasks_raises (plan : list Task) (needs : Needs) :
  Exists (fun t => description t = None) plan ->
  count_tasks plan needs = Py.Raise (Py.KeyError (u "description")).
Proof.
  intro H. revert needs. induction H as [t plan Ht|t plan Hrest IH]; intro needs;
    cbn [count_tasks].
  - now rewrite Ht.
  - destruct (description t); [apply IH | reflexivity].
Qed.

Lemma described_or_not (plan : list Task) :
  Forall (fun t => description t <> None) plan
  \/ Exists (fun t => description t = None) plan.
Proof.
  induction plan as [|t plan [IH|IH]].
  - left. constructor.
  - destruct (description t) eqn:E.
    + left. constructor; [congruence | exact IH].
    + right. now constructor.
  - right. now constructor 2.
Qed.

Lemma seen_order_length (types seen : list str) :
  List.length (seen_order seen types) <= List.length seen + List.length types.
Proof.
  revert seen; induction types as [|ty types IH]; intro seen; cbn [seen_order List.length].
  - lia.
  - specialize (IH (if existsb (fun k => str_eqb k ty) seen then seen else seen ++ [ty])).
    destruct (existsb _ seen); [|rewrite length_app in IH; simpl in IH]; lia.
Qed.

Lemma insert_desc_perm (x : Suggestion) (l : list Suggestion) :
  Permutation (insert_desc x l) (x :: l).
Proof.
  induction l as [|y l IH]; cbn [insert_desc].
  - apply Permutation_refl.
  - destruct (task_count x <? task_count y).
    + eapply Permutation_trans; [apply perm_skip, IH | apply perm_swap].
    + apply Permutation_refl.
Qed.

Lemma sorted_desc_perm (l : list Suggestion) : Permutation (sorted_desc l) l.
Proof.
  induction l as [|x l IH]; cbn [sorted_desc fold_right].
  - apply Permutation_refl.
  - eapply Permutation_trans; [apply insert_desc_perm | apply perm_skip, IH].
Qed.

(** Each key counts for its own tasks: the counts add up to no more than
    the number of tasks. *)
Lemma indicator_sum (ty : str) (ks : list str) :
  NoDup ks -> list_sum (map (fun k => if str_eqb ty k then 1 else 0) ks) <= 1.
Proof.
  intro Hnd. induction Hnd as [|k ks Hk Hnd IH]; cbn [map list_sum fold_right]; [lia|].
  fold (list_sum (map (fun k => if str_eqb ty k then 1 else 0) ks)).
  destruct (str_eqb ty k) eqn:E; [|lia].
  apply str_eqb_eq in E. subst k.
  assert (Hz : list_sum (map (fun k => if str_eqb ty k then 1 else 0) ks) = 0).
  { clear IH Hnd. induction ks as [|k ks IH]; [reflexivity|].
    cbn [map list_sum fold_right].
    fold (list_sum (map (fun k => if str_eqb ty k then 1 else 0) ks)).
    destruct (str_eqb ty k) eqn:E.
    - apply str_eqb_eq in E. subst k. exfalso. apply Hk. now left.
    - rewrite IH; [reflexivity|]. intro H. apply Hk. now right. }
  lia.
Qed.

Lemma occurrences_sum (plan : list Task) (ks : list str) :
  NoDup ks -> list_sum (map (fun k => occurrences k plan) ks) <= List.length plan.
Proof.
  intro Hnd. induction plan as [|t plan IH].
  - unfold occurrences. cbn [filter List.length].
    induction ks as [|k ks IHk]; [simpl; lia|].
    inversion Hnd; subst. cbn [map list_sum fold_right]. now apply IHk.
  - assert (Hsplit : list_sum (map (fun k => occurrences k (t :: plan)) ks)
                     = list_sum (map (fun k => if str_eqb (effective_type t) k then 1 else 0) ks)
                       + list_sum (map (fun k => occurrences k plan) ks)).
    { clear IH Hnd. induction ks as [|k ks IHk]; [reflexivity|].
      cbn [map list_sum fold_right].
      fold (list_sum (map (fun k => occurrences k (t :: plan)) ks)).
      fold (list_sum (map (fun k => if str_eqb (effective_type t) k then 1 else 0) ks)).
      fold (list_sum (map (fun k => occurrences k plan) ks)).
      rewrite IHk. unfold occurrences at 1. cbn [filter].
      destruct (str_eqb (effective_type t) k); cbn [List.length]; unfold occurrences; lia. }
    rewrite Hsplit. pose proof (indicator_sum (effective_type t) Hnd). simpl. lia.
Qed.

Lemma suggestions_third (needs : Needs) :
  3 * List.length (filter (fun kd => 3 <=? count (snd kd)) needs)
  <= list_sum (map (fun kd => count (snd kd)) needs).
Proof.
  induction needs as [|kd needs IH]; [simpl; lia|].
  cbn [filter map list_sum fold_right].
  fold (list_sum (map (fun kd => count (snd kd)) needs)).
  destruct (3 <=? count (snd kd)) eqn:E.
  - apply Nat.leb_le in E. cbn [List.length]. lia.
  - lia.
Qed.

(** X16. [analyze_task_patterns] raises [KeyError] for the key
    [description] exactly when some task of the plan has no description.
    When every task is described it raises [OverflowError] exactly when,
    for some agent type of at least 3 tasks, the average of the points
    rounds to no float.  Otherwise it reports the number of tasks and the
    number of distinct agent types, a task without agent type counting for
    the general agent, and it makes at most one proposal for every three
    tasks.  It raises nothing else. *)
Theorem analysis_outcome (plan : list Task) :
  match analyze_task_patterns plan with
  | Py.Raise e =>
      (e = Py.KeyError (u "description")
       /\ Exists (fun t => description t = None) plan)
      \/ (e = Py.OverflowError (u "integer division result too large for a float")
          /\ Forall (fun t => description t <> None) plan
          /\ exists ty, 3 <= occurrences ty plan
                        /\ average_overflows (points_of ty plan) = true)
  | Py.Ok a =>
      Forall (fun t => description t <> None) plan
      /\ (forall ty, 3 <= occurrences ty plan ->
            average_overflows (points_of ty plan) = false)
      /\ total_tasks a = List.length plan
      /\ unique_agent_types a = List.length (types_in_order plan)
      /\ unique_agent_types a <= total_tasks a
      /\ 3 * List.length (suggestions a) <= total_tasks a
  end.
Proof.
  unfold analyze_task_patterns.
  destruct (described_or_not plan) as [Hwf|Hex].
  - destruct (counted_entries Hwf) as [needs [Hrun [Hkeys [Hnd [Hboth Hfound]]]]].
    assert (Hentry : forall kd, In kd needs -> count (snd kd) = occurrences (fst kd) plan).
    { intros kd Hin. now apply Hboth. }
    rewrite Hrun. cbn [Py.bind]. rewrite (suggest_of_plan plan needs Hboth).
    destruct (existsb _ needs) eqn:Eov; cbn [Py.bind].
    + right. split; [reflexivity|]. split; [exact Hwf|].
      apply existsb_exists in Eov as [kd [_ Hkd]]. apply andb_true_iff in Hkd as [H3 Hov].
      exists (fst kd). split; [now apply Nat.leb_le | exact Hov].
    + cbn [total_tasks unique_agent_types suggestions].
      assert (Hlen : List.length needs = List.length (types_in_order plan)).
      { rewrite <- Hkeys. unfold keys. now rewrite length_map. }
      split; [exact Hwf|]. split.
      { intros ty H3. destruct (Hfound ty) as [d Hin]; [lia|].
        destruct (average_overflows (points_of ty plan)) eqn:Eo; [|reflexivity].
        assert (Hex : existsb (fun kd => (3 <=? occurrences (fst kd) plan)
                                         && average_overflows (points_of (fst kd) plan))%bool
                        needs = true).
        { apply existsb_exists. exists (ty, d). split; [exact Hin|]. cbn [fst].
          rewrite Eo, andb_true_r. now apply Nat.leb_le. }
        rewrite Hex in Eov. discriminate. }
      split; [reflexivity|]. split; [exact Hlen|]. split.
      * rewrite Hlen. unfold types_in_order.
        pose proof (seen_order_length (map effective_type plan) []) as H.
        rewrite length_map in H. simpl in H. exact H.
      * rewrite (Permutation_length (sorted_desc_perm _)), length_map.
        eapply Nat.le_trans; [apply suggestions_third|].
        replace (map (fun kd => count (snd kd)) needs)
          with (map (fun k => occurrences k plan) (keys needs)).
        -- now apply occurrences_sum.
        -- unfold keys. rewrite map_map. apply map_ext_in. intros kd Hin. symmetry.
           now apply Hentry.
  - rewrite (count_tasks_raises [] Hex). cbn [Py.bind]. left.
    split; [reflexivity | exact Hex].
Qed.

(** *** The catalog *)

Lemma generated_spec (ty : str) (s : Suggestion) (spec : AgentSpec) :
  _generate_agent_spec ty s = Some spec ->
  In (ty, agent_id spec) catalog_ids
  /\ type spec = u "mutagen"
  /\ spec_priority spec = priority s
  /\ spec_sample_tasks spec = sample_tasks s.
Proof.
  unfold _generate_agent_spec, catalog_ids.
  repeat match goal with
         | |- context [if str_eqb ty ?k then _ else _] =>
             let E := fresh "E" in
             destruct (str_eqb ty k) eqn:E;
             [apply str_eqb_eq in E; subst ty; intro H; injection H as <-;
              cbn [spec_entry agent_id type spec_priority spec_sample_tasks In];
              repeat split; tauto|]
         end.
  discriminate.
Qed.

Lemma catalog_has_spec (ty id : str) (s : Suggestion) :
  In (ty, id) catalog_ids ->
  exists spec, _generate_agent_spec ty s = Some spec /\ agent_id spec = id.
Proof.
  unfold catalog_ids. cbn [In]. intro H.
  repeat (destruct H as [H|H]; [injection H as <- <-; eexists; split; reflexivity|]).
  destruct H.
Qed.

(** The id of an agent of the catalog determines its type. *)
Lemma catalog_ids_inj (ty1 ty2 id : str) :
  In (ty1, id) catalog_ids -> In (ty2, id) catalog_ids -> ty1 = ty2.
Proof.
  unfold catalog_ids. intros H1 H2. vm_compute in H1, H2.
  repeat match goal with
         | H : _ \/ _ |- _ => destruct H
         end; try contradiction; congruence.
Qed.

Lemma specs_of_In (spec : AgentSpec) (l : list Suggestion) :
  In spec (specs_of l)
  <-> exists s, In s l /\ _generate_agent_spec (s_agent_type s) s = Some spec.
Proof.
  induction l as [|s l IH]; cbn [specs_of].
  - split; [intros [] | intros [s [[] _]]].
  - destruct (_generate_agent_spec (s_agent_type s) s) as [spec'|] eqn:E.
    + cbn [In]. rewrite IH. split.
      * intros [<-|[s' [Hin Hs']]]; [exists s; split; [now left | exact E]|].
        exists s'. split; [now right | exact Hs'].
      * intros [s' [[<-|Hin] Hs']]; [left; congruence|].
        right. exists s'. split; assumption.
    + rewrite IH. split.
      * intros [s' [Hin Hs']]. exists s'. split; [now right | exact Hs'].
      * intros [s' [[<-|Hin] Hs']]; [congruence|]. exists s'. split; assumption.
Qed.

Lemma specs_of_NoDup (l : list Suggestion) :
  NoDup (map s_agent_type l) -> NoDup (map agent_id (specs_of l)).
Proof.
  induction l as [|s l IH]; cbn [specs_of map]; intro Hnd; [constructor|].
  inversion Hnd as [|? ? Hs Hl]; subst.
  destruct (_generate_agent_spec (s_agent_type s) s) as [spec|] eqn:E; [|now apply IH].
  cbn [map]. constructor; [|now apply IH].
  intro Hin. apply in_map_iff in Hin as [spec' [Hid Hin]].
  apply specs_of_In in Hin as [s' [Hin' Hs']].
  apply generated_spec in E as [E _]. apply generated_spec in Hs' as [Hs' _].
  rewrite Hid in Hs'. apply Hs. rewrite <- (catalog_ids_inj Hs' E).
  now apply in_map.
Qed.

Lemma suggested_types (needs : Needs) (ty : str) :
  In ty (map s_agent_type
           (map suggestion_of (filter (fun kd => 3 <=? count (snd kd)) needs))) ->
  In ty (keys needs).
Proof.
  unfold keys. induction needs as [|[k d] needs IH]; cbn [filter map fst snd]; [intros []|].
  destruct (3 <=? count d); cbn [map suggestion_of s_agent_type fst In]; intro H.
  - destruct H as [H|H]; [now left | right; now apply IH].
  - right. now apply IH.
Qed.

Lemma suggested_types_distinct (needs : Needs) :
  NoDup (keys needs) ->
  NoDup (map s_agent_type
           (map suggestion_of (filter (fun kd => 3 <=? count (snd kd)) needs))).
Proof.
  unfold keys. induction needs as [|[k d] needs IH]; cbn [filter map fst snd]; intro Hnd;
    [constructor|].
  inversion Hnd as [|? ? Hk Hrest]; subst.
  destruct (3 <=? count d); cbn [map suggestion_of s_agent_type fst]; [|now apply IH].
  constructor; [|now apply IH].
  intro Hin. apply Hk. now apply suggested_types.
Qed.

(** The suggestions of a plan whose tasks are described, with points that
    fit a float. *)
Lemma analysis_of_plan (plan : list Task) :
  Forall (fun t => description t <> None) plan ->
  Forall points_fit plan ->
  exists a,
    analyze_task_patterns plan = Py.Ok a
    /\ (forall s, In s (suggestions a) ->
          3 <= occurrences (s_agent_type s) plan
          /\ priority s
             = (if 5 <=? occurrences (s_agent_type s) plan then u "high" else u "medium"))
    /\ (forall ty, 3 <= occurrences ty plan ->
          exists s, In s (suggestions a) /\ s_agent_type s = ty)
    /\ NoDup (map s_agent_type (suggestions a)).
Proof.
  intros Hwf Hfit.
  destruct (counted_entries Hwf) as [needs [Hrun [Hkeys [Hnd [Hboth Hfound]]]]].
  assert (Hentry : forall kd, In kd needs -> count (snd kd) = occurrences (fst kd) plan).
  { intros kd Hin. now apply Hboth. }
  unfold analyze_task_patterns. rewrite Hrun. cbn [Py.bind].
  rewrite (suggest_fitting needs Hfit Hboth). cbn [Py.bind].
  eexists. split; [reflexivity|]. cbn [suggestions].
  split; [|split].
  - intros s Hin. apply (proj1 (sorted_desc_In _ _)) in Hin.
    apply in_map_iff in Hin as [kd [<- Hin]].
    apply filter_In in Hin as [Hin H3]. apply Nat.leb_le in H3.
    cbn [suggestion_of s_agent_type priority]. rewrite <- (Hentry _ Hin).
    split; [exact H3 | reflexivity].
  - intros ty H3. destruct (Hfound ty) as [d Hin]; [lia|].
    exists (suggestion_of (ty, d)). split; [|reflexivity].
    apply (proj2 (sorted_desc_In _ _)). apply in_map.
    apply filter_In. split; [exact Hin|]. apply Nat.leb_le.
    rewrite (Hentry _ Hin). exact H3.
  - apply (Permutation_NoDup
             (l := map s_agent_type
                     (map suggestion_of (filter (fun kd => 3 <=? count (snd kd)) needs)))).
    + apply Permutation_map, Permutation_sym, sorted_desc_perm.
    + apply suggested_types_distinct. exact Hnd.
Qed.

(** The ids of the agents specified for such a plan. *)
Lemma spec_ids_of_plan (plan : list Task) :
  Forall (fun t => description t <> None) plan ->
  Forall points_fit plan ->
  exists a,
    analyze_task_patterns plan = Py.Ok a
    /\ suggest_agents_from_sprint plan = Py.Ok (specs_of (suggestions a))
    /\ (forall ty id, In (ty, id) catalog_ids ->
          (In id (map agent_id (specs_of (suggestions a))) <-> 3 <= occurrences ty plan))
    /\ NoDup (map agent_id (specs_of (suggestions a))).
Proof.
  intros Hwf Hfit.
  destruct (analysis_of_plan Hwf Hfit) as [a [Hrun [Hsound [Hcomplete Hnd]]]].
  exists a. split; [exact Hrun|]. split.
  { unfold suggest_agents_from_sprint. rewrite Hrun. reflexivity. }
  split; [|now apply specs_of_NoDup].
  intros ty id Hcat. rewrite in_map_iff. split.
  - intros [spec [Hid Hin]]. apply specs_of_In in Hin as [s [Hin Hs]].
    apply generated_spec in Hs as [Hs _]. rewrite Hid in Hs.
    rewrite (catalog_ids_inj Hcat Hs). now apply Hsound.
  - intro H3. destruct (Hcomplete ty H3) as [s [Hin Hty]].
    destruct (catalog_has_spec s Hcat) as [spec [Hspec Hid]].
    exists spec. split; [exact Hid|]. apply specs_of_In.
    exists s. split; [exact Hin|]. now rewrite Hty.
Qed.

(** X17. For a plan whose tasks are described, with points that fit a
    float, [suggest_agents_from_sprint] specifies the agent of a catalog
    type exactly when the plan has at least 3 tasks of that type: tasks of
    the general agent, or of any type outside the catalog, lead to no agent,
    however many they are.  The agents specified are of type [mutagen], with
    priority high from 5 tasks on and medium below; no two have the same
    id, so there are at most 5. *)
Theorem suggested_agents (plan : list Task) :
  Forall (fun t => description t <> None) plan ->
  Forall points_fit plan ->
  exists specs,
    suggest_agents_from_sprint plan = Py.Ok specs
    /\ (forall ty id, In (ty, id) catalog_ids ->
          (In id (map agent_id specs) <-> 3 <= occurrences ty plan))
    /\ Forall (fun spec =>
                 type spec = u "mutagen"
                 /\ exists ty, In (ty, agent_id spec) catalog_ids
                               /\ 3 <= occurrences ty plan
                               /\ spec_priority spec
                                  = (if 5 <=? occurrences ty plan then u "high" else u "medium"))
              specs
    /\ NoDup (map agent_id specs)
    /\ List.length specs <= 5.
Proof.
  intros Hwf Hfit.
  destruct (analysis_of_plan Hwf Hfit) as [a [Hrun [Hsound _]]].
  destruct (spec_ids_of_plan Hwf Hfit) as [a' [Hrun' [Hspecs [Hiff Hnd]]]].
  rewrite Hrun in Hrun'. injection Hrun' as <-.
  exists (specs_of (suggestions a)). split; [exact Hspecs|]. split; [exact Hiff|].
  assert (Hall : forall spec, In spec (specs_of (suggestions a)) ->
                   exists s, In s (suggestions a)
                             /\ In (s_agent_type s, agent_id spec) catalog_ids
                             /\ type spec = u "mutagen"
                             /\ spec_priority spec = priority s).
  { intros spec Hin. apply specs_of_In in Hin as [s [Hin Hs]].
    apply generated_spec in Hs as [Hcat [Hty [Hprio _]]].
    exists s. repeat split; assumption. }
  split; [|split; [exact Hnd|]].
  - apply Forall_forall. intros spec Hin.
    destruct (Hall spec Hin) as [s [Hs [Hcat [Hty Hprio]]]].
    destruct (Hsound s Hs) as [H3 Hp].
    split; [exact Hty|]. exists (s_agent_type s).
    repeat split; [exact Hcat | exact H3 | now rewrite Hprio].
  - rewrite <- (length_map agent_id).
    change 5 with (List.length (map snd catalog_ids)).
    apply NoDup_incl_length; [exact Hnd|].
    intros id Hin. apply in_map_iff in Hin as [spec [Hid Hin]].
    destruct (Hall spec Hin) as [s [_ [Hcat _]]].
    rewrite Hid in Hcat. change id with (snd (s_agent_type s, id)). now apply in_map.
Qed.

Lemma suggested_agents_witness :
  exists specs,
    suggest_agents_from_sprint tied_plan = Py.Ok specs
    /\ (forall ty id, In (ty, id) catalog_ids ->
          (In id (map agent_id specs) <-> 3 <= occurrences ty tied_plan))
    /\ Forall (fun spec =>
                 type spec = u "mutagen"
                 /\ exists ty, In (ty, agent_id spec) catalog_ids
                               /\ 3 <= occurrences ty tied_plan
                               /\ spec_priority spec
                                  = (if 5 <=? occurrences ty tied_plan
                                     then u "high" else u "medium"))
              specs
    /\ NoDup (map agent_id specs)
    /\ List.length specs <= 5.
Proof.
  apply (@suggested_agents tied_plan).
  - repeat constructor; discriminate.
  - repeat constructor.
Defined.


(** *** From the checkbox items to the agents *)

Lemma loaded_described (tasks : list VisionTaskExtractor.SprintTask) :
  Forall (fun t => description t <> None) (map as_loaded tasks).
Proof.
  apply Forall_forall. intros t Hin. apply in_map_iff in Hin as [t' [<- _]]. discriminate.
Qed.

Lemma loaded_fit (epics : list VisionTaskExtractor.Epic) (n : nat) :
  Forall points_fit (map as_loaded (VisionTaskExtractor.tasks_of_epics epics n)).
Proof.
  apply Forall_forall. intros t Hin. apply in_map_iff in Hin as [t' [<- Hin]].
  pose proof (TaskFacts.tasks_of_epics_meta epics n) as Hmeta.
  rewrite Forall_forall in Hmeta. destruct (Hmeta t' Hin) as [_ [Hpoints _]].
  unfold points_fit, effective_points. cbn [as_loaded estimated_points].
  cbn [In] in Hpoints.
  destruct Hpoints as [<-|[<-|[<-|[<-|[]]]]]; reflexivity.
Qed.

Lemma occurrences_loaded (ty : str) (tasks : list VisionTaskExtractor.SprintTask) :
  occurrences ty (map as_loaded tasks)
  = List.length (filter (fun t => str_eqb (VisionTaskExtractor.task_agent_type t) ty) tasks).
Proof.
  unfold occurrences. induction tasks as [|t tasks IH]; [reflexivity|].
  cbn [map filter]. unfold effective_type at 1. cbn [as_loaded agent_type].
  destruct (str_eqb (VisionTaskExtractor.task_agent_type t) ty); cbn [List.length];
    now rewrite IH.
Qed.

Lemma agent_types_of_tasks (epics : list VisionTaskExtractor.Epic) (n : nat) :
  map VisionTaskExtractor.task_agent_type (VisionTaskExtractor.tasks_of_epics epics n)
  = map VisionTaskExtractor._suggest_agent_type (checkbox_items_of epics).
Proof.
  unfold checkbox_items_of.
  revert n; induction epics as [|epic epics IH]; intro n;
    cbn [VisionTaskExtractor.tasks_of_epics flat_map]; [reflexivity|].
  rewrite !map_app, IH. f_equal. clear IH.
  generalize (VisionTaskExtractor.epic_stories epic). intro stories. revert n.
  induction stories as [|story stories IH]; intro n;
    cbn [VisionTaskExtractor.tasks_of_stories flat_map]; [reflexivity|].
  rewrite !map_app, IH. f_equal. clear IH.
  generalize (VisionTaskExtractor.story_tasks story). intro descs. revert n.
  induction descs as [|d descs IH]; intro n;
    cbn [VisionTaskExtractor.tasks_of_story map VisionTaskExtractor.task_agent_type];
    [reflexivity|].
  now rewrite IH.
Qed.

Lemma filter_length_map (A B : Type) (f : A -> B) (p : B -> bool) (l : list A) :
  List.length (filter (fun x => p (f x)) l) = List.length (filter p (map f l)).
Proof.
  induction l as [|x l IH]; [reflexivity|]. cbn [map filter].
  destruct (p (f x)); cbn [List.length]; now rewrite IH.
Qed.

(** X18. From the backlog to the agents: when the tasks that
    [_extract_actionable_tasks] makes are read back from the sprint plan
    with their description, points and agent type, [suggest_agents_from_sprint]
    raises nothing, and it specifies the agent of a catalog type exactly
    when at least 3 checkbox items under the epics are given that type by
    [_suggest_agent_type]. *)
Theorem agents_of_checkbox_items (epics : list VisionTaskExtractor.Epic) :
  exists specs,
    suggest_agents_from_sprint
      (map as_loaded (VisionTaskExtractor._extract_actionable_tasks epics))
    = Py.Ok specs
    /\ (forall ty id, In (ty, id) catalog_ids ->
          (In id (map agent_id specs)
           <-> 3 <= List.length
                      (filter (fun d => str_eqb (VisionTaskExtractor._suggest_agent_type d) ty)
                         (checkbox_items_of epics))))
    /\ NoDup (map agent_id specs).
Proof.
  destruct (spec_ids_of_plan
              (loaded_described (VisionTaskExtractor._extract_actionable_tasks epics))
              (loaded_fit epics 1))
    as [a [_ [Hrun [Hiff Hnd]]]].
  exists (specs_of (suggestions a)). split; [exact Hrun|]. split; [|exact Hnd].
  intros ty id Hcat. rewrite (Hiff ty id Hcat), occurrences_loaded.
  unfold VisionTaskExtractor._extract_actionable_tasks.
  rewrite (filter_length_map VisionTaskExtractor.task_agent_type (fun a => str_eqb a ty)).
  rewrite agent_types_of_tasks.
  rewrite <- (filter_length_map VisionTaskExtractor._suggest_agent_type (fun a => str_eqb a ty)).
  reflexivity.
Qed.

End SpecFacts.

(** ** The documents of the bootstrap *)

Module BootstrapFacts.
Import PyStr Props StrFacts MaSfBootstrap MoreNotions.






Lemma ensure_file_again (fs : MasterAgent.files) (path text : str) :
  MasterAgent.exists_ fs path = true -> ensure_file fs path text = fs.
Proof. intro H. unfold ensure_file. now rewrite H. Qed.


Section Platform.
Variable mkdir_refused : str -> bool.
Variable mkdir_error : str -> Py.exn.




Variable word_chars : list char.


End Platform.


End BootstrapFacts.

(** ** Checkbox items *)

Module ChecklistFacts.
Import PyStr Re ReNotions Props StrFacts ReFacts StripFacts VisionTaskExtractor MoreNotions.

Lemma skipn_cons_tl (A : Type) (n : nat) (l : list A) (x : A) (t : list A) :
  skipn n l = x :: t -> skipn (S n) l = t /\ n < List.length l.
Proof.
  revert l; induction n as [|n IH]; intros [|y l] H; simpl in *; try discriminate.
  - injection H as _ <-. split; [reflexivity | lia].
  - destruct (IH l H) as [H1 H2]. split; [exact H1 | lia].
Qed.

Lemma char_eqb_sym (a b : char) : char_eqb a b = char_eqb b a.
Proof. apply N.eqb_sym. Qed.

Lemma lstrip_lstrip (s : str) : lstrip (lstrip s) = lstrip s.
Proof.
  induction s as [|c s IH]; [reflexivity|]. cbn [lstrip].
  destruct (isspace c) eqn:E; [exact IH|]. cbn [lstrip]. now rewrite E.
Qed.

Lemma bol_at_start (R : Type) (r : re) (rest : str) (c : caps)
    (k : nat -> str -> caps -> option R) :
  bt fl_plain (Seq Bol r) 0 rest c k = bt fl_plain r 0 rest c k.
Proof. reflexivity. Qed.

Lemma bol_later (r : re) (pos : nat) (rest : str) :
  0 < pos -> match_at fl_plain (Seq Bol r) pos rest = None.
Proof. intro H. unfold match_at. cbn [bt]. destruct pos; [lia | reflexivity]. Qed.

Lemma sub_from_bol (r : re) (pos : nat) (s : str) :
  0 < pos -> sub_from fl_plain (Seq Bol r) 0 pos s = s.
Proof.
  revert pos; induction s as [|x s IH]; intros pos Hpos; cbn [sub_from]; [reflexivity|].
  rewrite bol_later by exact Hpos. f_equal. apply IH. lia.
Qed.

(** White space, then one character that is no white space: the white
    space is passed over, all of it. *)
Lemma spaces_then_lit (R : Type) (x : char) (r : re) (pos : nat) (rest : str) (c : caps)
    (k : nat -> str -> caps -> option R) :
  isspace x = false ->
  bt fl_plain (Seq (star CSpace) (Seq (Lit [x]) r)) pos rest c k
  = match lstrip rest with
    | y :: rest' =>
        if char_eqb x y then bt fl_plain r (pos + span isspace rest + 1) rest' c k else None
    | [] => None
    end.
Proof.
  intro Hx. cbn [bt star]. rewrite ListItemFacts.rep_greedy_only_max.
  - cbn [Nat.leb]. change (cset_mem fl_plain CSpace) with isspace.
    rewrite <- ListItemFacts.lstrip_span.
    destruct (lstrip rest) as [|y rest']; cbn [lit_match List.length skipn]; [reflexivity|].
    unfold chr_match. cbn [ignorecase fl_plain]. rewrite andb_true_r.
    destruct (char_eqb x y); reflexivity.
  - intros p y r' Hy. cbn [lit_match]. unfold chr_match. cbn [ignorecase fl_plain].
    change (cset_mem fl_plain CSpace y) with (isspace y) in Hy.
    destruct (char_eqb x y) eqn:E; [|reflexivity].
    apply char_eqb_eq in E. subst y. congruence.
Qed.

(** The pattern of the checkbox, read by hand. *)
Lemma checkbox_bt (R : Type) (line : str) (c : caps) (k : nat -> str -> caps -> option R) :
  bt fl_plain checkbox_pattern 0 line c k
  = match checkbox_rest line with
    | Some rest => k (List.length line - List.length rest) rest c
    | None => None
    end.
Proof.
  unfold checkbox_rest.
  change checkbox_pattern
    with (Seq Bol (Seq (star CSpace) (Seq (Lit [45%N])
            (Seq (star CSpace) (Seq (Lit [91%N]) (Seq (One (chr " x")) (Lit [93%N]))))))).
  rewrite bol_at_start, spaces_then_lit by reflexivity.
  pose proof (ListItemFacts.lstrip_span line) as H1.
  destruct (lstrip line) as [|dash l2]; [reflexivity|].
  symmetry in H1. apply skipn_cons_tl in H1 as [H1 L1].
  rewrite (char_eqb_sym dash 45%N).
  rewrite spaces_then_lit by reflexivity.
  pose proof (ListItemFacts.lstrip_span l2) as H2.
  destruct (char_eqb 45%N dash);
    [|destruct (lstrip l2) as [|open [|mark [|close rest]]]; reflexivity].
  destruct (lstrip l2) as [|open l3]; [reflexivity|].
  rewrite <- H1, skipn_skipn in H2. symmetry in H2.
  apply skipn_cons_tl in H2 as [H2 L2].
  rewrite (char_eqb_sym open 91%N).
  destruct (char_eqb 91%N open); [|destruct l3 as [|mark [|close rest]]; reflexivity].
  cbn [bt andb].
  destruct l3 as [|mark l4]; [reflexivity|].
  apply skipn_cons_tl in H2 as [H3 L3].
  unfold chr. change (u " x") with [32%N; 120%N].
  cbn [cset_mem existsb]. unfold chr_match. cbn [ignorecase fl_plain]. rewrite orb_false_r.
  destruct l4 as [|close rest]; [destruct (_ || _)%bool; reflexivity|].
  apply skipn_cons_tl in H3 as [H4 L4].
  cbn [lit_match List.length skipn]. unfold chr_match. cbn [ignorecase fl_plain].
  rewrite andb_true_r, (char_eqb_sym close 93%N).
  destruct (char_eqb mark 32%N || char_eqb mark 120%N)%bool; [|reflexivity].
  cbn [andb]. destruct (char_eqb 93%N close); [|reflexivity].
  f_equal. rewrite <- H4, length_skipn. subst l2. lia.
Qed.

Lemma checkbox_rest_suffix (line rest : str) :
  checkbox_rest line = Some rest ->
  exists e, 0 < e /\ e <= List.length line /\ skipn e line = rest.
Proof.
  unfold checkbox_rest.
  pose proof (ListItemFacts.lstrip_span line) as H1.
  destruct (lstrip line) as [|dash l2]; [discriminate|].
  symmetry in H1. apply skipn_cons_tl in H1 as [H1 L1].
  pose proof (ListItemFacts.lstrip_span l2) as H2.
  destruct (lstrip l2) as [|open [|mark [|close rest']]]; try discriminate.
  rewrite <- H1, skipn_skipn in H2. symmetry in H2.
  apply skipn_cons_tl in H2 as [H2 L2].
  apply skipn_cons_tl in H2 as [H3 L3].
  apply skipn_cons_tl in H3 as [H4 L4].
  destruct (_ && _)%bool; [|discriminate].
  intro H. injection H as <-.
  eexists. split; [|split; [|exact H4]]; lia.
Qed.

Lemma checkbox_prefix_removed (line rest : str) :
  checkbox_rest line = Some rest ->
  sub_empty fl_plain checkbox_prefix line = lstrip rest.
Proof.
  intro Hrest. destruct (checkbox_rest_suffix line Hrest) as [e [He [Hlen Hskip]]].
  assert (Hle : List.length line - List.length rest = e).
  { rewrite <- Hskip, length_skipn. lia. }
  assert (Hm : match_at fl_plain checkbox_prefix 0 line
               = Some (e + span isspace rest, [])).
  { unfold match_at.
    change (bt fl_plain checkbox_prefix 0 line []
              (fun (p : nat) (_ : str) (c : caps) => Some (p, c)))
      with (bt fl_plain checkbox_pattern 0 line []
              (fun p r c' => bt fl_plain (star CSpace) p r c'
                               (fun (p : nat) (_ : str) (c : caps) => Some (p, c)))).
    rewrite checkbox_bt, Hrest, Hle. cbn [bt star].
    apply ListItemFacts.rep_greedy_at_max; [lia | reflexivity]. }
  assert (Hspan : span isspace rest <= List.length rest)
    by apply ListItemFacts.span_le_length.
  assert (Hrl : List.length rest = List.length line - e)
    by (rewrite <- Hskip; apply length_skipn).
  unfold sub_empty. destruct line as [|x r]; [cbn [List.length] in Hlen; lia|].
  cbn [sub_from]. rewrite Hm.
  destruct (e + span isspace rest <=? 0) eqn:E0; [apply Nat.leb_le in E0; lia|].
  change fl_plain with MasterAgent.fl_none.
  rewrite ListItemFacts.sub_from_skip by (cbn [List.length] in Hrl, Hlen; lia).
  change MasterAgent.fl_none with fl_plain.
  change checkbox_prefix
    with (Seq Bol (Seq (star CSpace) (Seq (Lit (u "-"))
            (Seq (star CSpace) (Seq (Lit (u "["))
               (Seq (One (chr " x")) (Seq (Lit (u "]")) (star CSpace)))))))).
  rewrite sub_from_bol by lia.
  replace (skipn (e + span isspace rest - 0 - 1) r)
    with (skipn (span isspace rest + e) (x :: r)).
  - rewrite <- skipn_skipn, Hskip. symmetry. apply ListItemFacts.lstrip_span.
  - replace (span isspace rest + e) with (S (e + span isspace rest - 0 - 1)) by lia.
    reflexivity.
Qed.

Lemma checkbox_line (line : str) (rest : list str) :
  checkbox_items_of_lines (line :: rest)
  = line_checkbox_items line ++ checkbox_items_of_lines rest.
Proof.
  cbn [checkbox_items_of_lines]. unfold rmatch, match_at, line_checkbox_items.
  rewrite checkbox_bt.
  destruct (checkbox_rest line) as [after|] eqn:E; [|reflexivity].
  rewrite (checkbox_prefix_removed line E).
  assert (Hs : strip (lstrip after) = strip after)
    by (unfold strip; now rewrite lstrip_lstrip).
  rewrite Hs. destruct (strip after); reflexivity.
Qed.

(** X21. [_extract_checkbox_items] reads a text line by line.  A line gives
    an item when it starts, after any white space, with [-] and then, after
    any white space, with [[ ]] or [[x]] (a capital X is no checkbox); the
    item is the rest of the line, trimmed, and it is left out when empty.
    So every item is a trimmed text that is not empty. *)
Theorem checkbox_items_by_line (content : str) :
  _extract_checkbox_items content = flat_map line_checkbox_items (split content nl)
  /\ Forall (fun item => item <> [] /\ strip item = item) (_extract_checkbox_items content).
Proof.
  assert (H : forall lines,
             checkbox_items_of_lines lines = flat_map line_checkbox_items lines).
  { induction lines as [|line lines IH]; [reflexivity|].
    rewrite checkbox_line, IH. reflexivity. }
  unfold _extract_checkbox_items. split; [apply H|].
  rewrite H. apply Forall_forall. intros item Hin.
  apply in_flat_map in Hin as [line [_ Hin]]. unfold line_checkbox_items in Hin.
  destruct (checkbox_rest line) as [rest|]; [|destruct Hin].
  destruct (strip rest) as [|x item'] eqn:E; [destruct Hin|].
  destruct Hin as [<-|[]]. split; [discriminate|].
  rewrite <- E. apply strip_idempotent.
Qed.

End ChecklistFacts.

(** ** What the patterns capture *)

Module CaptureFacts.
Import PyStr Re ReNotions Props StrFacts StripFacts ReFacts MasterAgent MoreNotions.

Lemma suffix_refl (s : str) : suffix s s.
Proof. now exists []. Qed.

Lemma suffix_tail (c : char) (t s : str) : suffix (c :: t) s -> suffix t s.
Proof. intros [pre ->]. exists (pre ++ [c]). now rewrite <- app_assoc. Qed.

Lemma suffix_skipn (n : nat) (t s : str) : suffix t s -> suffix (skipn n t) s.
Proof.
  intros [pre ->]. exists (pre ++ firstn n t).
  now rewrite <- app_assoc, firstn_skipn.
Qed.

Lemma substring_of_suffix (n : nat) (t s : str) : suffix t s -> substring (firstn n t) s.
Proof.
  intros [pre ->]. exists pre, (skipn n t). now rewrite firstn_skipn.
Qed.

(** A quantifier hands to what follows it a later position of the same
    subject. *)
Lemma rep_match_suffix (fl : flags) (R : Type) (cs : cset) (greedy : bool)
    (subject : str) (k : nat -> str -> option R) (Q : R -> Prop) :
  (forall p r' x, suffix r' subject -> k p r' = Some x -> Q x) ->
  forall rest lo hi pos x,
    suffix rest subject ->
    rep_match fl cs greedy lo hi pos rest k = Some x -> Q x.
Proof.
  intro Hk. induction rest as [|c rest IH]; intros lo hi pos x Hs H.
  - simpl in H. destruct lo; [|discriminate].
    destruct greedy; simpl in H; eauto.
    apply orelse_some in H as [H|H]; [eauto | discriminate].
  - pose proof (suffix_tail Hs) as Hs'. cbn [rep_match] in H.
    destruct lo.
    + destruct greedy; apply orelse_some in H as [H|H]; eauto;
        destruct (hi_open hi && cset_mem fl cs c)%bool; try discriminate; eauto.
    + destruct (hi_open hi && cset_mem fl cs c)%bool; try discriminate; eauto.
Qed.

(** Whatever a pattern captures is a piece of the subject. *)
Lemma bt_subject (fl : flags) (subject : str) (r : re) :
  forall (R : Type) pos rest c (k : nat -> str -> caps -> option R) (Q : R -> Prop),
    suffix rest subject -> caps_in subject c ->
    (forall p r' c' x, suffix r' subject -> caps_in subject c' -> k p r' c' = Some x -> Q x) ->
    forall x, bt fl r pos rest c k = Some x -> Q x.
Proof.
  induction r as [s | cs | cs lo hi g | a IHa b IHb | a IHa b IHb | m a IHa | a IHa | |];
    intros R pos rest c k Q Hs Hc Hk x H; cbn [bt] in H.
  - destruct (lit_match fl s rest); [|discriminate].
    eapply Hk; [apply suffix_skipn; exact Hs | exact Hc | exact H].
  - destruct rest as [|y rest]; [discriminate|].
    destruct (cset_mem fl cs y); [|discriminate].
    eapply Hk; [eapply suffix_tail; exact Hs | exact Hc | exact H].
  - eapply rep_match_suffix; [|exact Hs | exact H].
    intros p r' x' Hs' Hx. eapply Hk; [exact Hs' | exact Hc | exact Hx].
  - eapply IHa; [exact Hs | exact Hc | | exact H].
    intros p r' c' x' Hs' Hc' Hx. eapply IHb; [exact Hs' | exact Hc' | | exact Hx].
    exact Hk.
  - apply orelse_some in H as [H|H]; [eapply IHa | eapply IHb]; eauto.
  - eapply IHa; [exact Hs | exact Hc | | exact H].
    intros p r' c' x' Hs' Hc' Hx. eapply Hk; [exact Hs' | | exact Hx].
    constructor; [|exact Hc']. cbn [snd]. now apply substring_of_suffix.
  - destruct (bt fl a pos rest c (fun _ _ c' => Some c')) as [c'|] eqn:E; [|discriminate].
    eapply Hk; [exact Hs | | exact H].
    eapply (IHa _ pos rest c (fun _ _ c' => Some c') (fun c' => caps_in subject c'));
      [exact Hs | exact Hc | | exact E].
    intros p r' c2 x2 _ Hc2 Hx2. injection Hx2 as <-. exact Hc2.
  - destruct (Nat.eqb pos 0); [|discriminate]. eapply Hk; [exact Hs | exact Hc | exact H].
  - destruct rest; [|discriminate]. eapply Hk; [exact Hs | exact Hc | exact H].
Qed.

Lemma search_from_subject (fl : flags) (subject : str) (r : re) (rest : str) (pos : nat)
    (m : nat * caps) :
  suffix rest subject ->
  search_from fl r pos rest = Some m -> caps_in subject (snd m).
Proof.
  revert pos; induction rest as [|c rest IH]; intros pos Hs H; cbn [search_from] in H;
    apply orelse_some in H as [H|H]; try discriminate.
  - unfold match_at in H.
    eapply (@bt_subject fl subject r _ pos [] [] _ (fun m => caps_in subject (snd m)));
      [exact Hs | constructor | | exact H].
    intros p r' c' x _ Hc Hx. injection Hx as <-. exact Hc.
  - unfold match_at in H.
    eapply (@bt_subject fl subject r _ pos (c :: rest) [] _
              (fun m => caps_in subject (snd m)));
      [exact Hs | constructor | | exact H].
    intros p r' c' x _ Hc Hx. injection Hx as <-. exact Hc.
  - eapply IH; [eapply suffix_tail; exact Hs | exact H].
Qed.

Lemma group_in_subject (subject : str) (c : caps) (n : nat) (g : str) :
  caps_in subject c -> group n c = Some g -> substring g subject.
Proof.
  intro Hc. induction Hc as [|[i s] c Hs Hc IH]; cbn [group]; [discriminate|].
  destruct (Nat.eqb i n); [|exact IH]. intro H. injection H as <-. exact Hs.
Qed.

(** Cutting gives a piece of the text. *)
Lemma firstn_substring (n : nat) (s : str) : substring (firstn n s) s.
Proof. exists [], (skipn n s). simpl. now rewrite firstn_skipn. Qed.

Lemma split_first_piece (sep : str) (s cur p : str) (ps : list str) :
  split_from sep 0 cur s = p :: ps ->
  exists a b, s = a ++ b /\ p = rev cur ++ a.
Proof.
  revert cur; induction s as [|c s IH]; intros cur H; cbn [split_from] in H.
  - injection H as <- _. exists [], []. split; [reflexivity | now rewrite app_nil_r].
  - destruct (startswith (c :: s) sep).
    + injection H as <- _. exists [], (c :: s).
      split; [reflexivity | now rewrite app_nil_r].
    + destruct (IH _ H) as [a [b [-> ->]]]. exists (c :: a), b.
      split; [reflexivity|]. cbn [rev]. now rewrite <- app_assoc.
Qed.

(** X22. The mission of a document is always a piece of the document: the
    text under the heading found, or the first paragraph, trimmed and cut
    to 500 characters.  The default text [Mission not specified] is never
    returned unless the document holds it. *)
Theorem mission_from_document (content : str) :
  substring (_extract_mission content) content
  /\ (_extract_mission content = u "Mission not specified" ->
      substring (u "Mission not specified") content).
Proof.
  assert (H : substring (_extract_mission content) content).
  { unfold _extract_mission. cbv zeta.
    assert (Hpiece : forall g, substring g content ->
                       substring (firstn 500 (strip g)) content).
    { intros g Hg. eapply RosterFacts.substring_trans; [apply firstn_substring|].
      eapply RosterFacts.substring_trans; [apply strip_substring | exact Hg]. }
    assert (Hfirst : forall patterns r,
               first_match patterns content = Some r -> substring r content).
    { induction patterns as [|p ps IH]; intros r Hr; cbn [first_match] in Hr; [discriminate|].
      destruct (search fl_section p content) as [m|] eqn:E; [|now apply IH].
      injection Hr as <-. apply Hpiece. unfold group1.
      pose proof (@search_from_subject fl_section content p content 0 m
                    (suffix_refl content) E) as Hc.
      destruct (group 1 (snd m)) as [g|] eqn:Eg.
      - exact (group_in_subject 1 Hc Eg).
      - exists [], content. reflexivity. }
    destruct (first_match _ content) as [r|] eqn:E; [exact (Hfirst _ _ E)|].
    unfold split. destruct (split_from (nl ++ nl) 0 [] content) as [|p ps] eqn:Es.
    - exfalso. exact (VisionFacts.split_from_not_nil _ _ _ _ Es).
    - apply Hpiece. destruct (split_first_piece _ _ _ Es) as [a [b [-> ->]]].
      exists [], b. reflexivity. }
  split; [exact H|]. intro E. rewrite E in H. exact H.
Qed.

End CaptureFacts.
